(** * Checkpoint and timeline subsystem of claude-code-manager-pyqt

    A shallow embedding of [src/core/checkpoint_manager.py] (class
    [CheckpointManager]) and of the [Checkpoint] dataclass of
    [src/core/models.py], followed by the properties of the checkpoint
    operations: create, delete, restore, fork, diff projection, timeline.
    Beside them stand the code these operations rest on and the code that
    uses them: [Checkpoint.to_dict] and [Checkpoint.from_dict] with the
    text of [index.json], [SessionManager._parse_project_name]
    ([src/core/session_manager.py]) and the tree building of
    [TimelinePanel.refresh_timeline] ([src/ui/panels/timeline_panel.py]).

    Conventions of the embedding.
    - A Python [str] is a [string] whose characters are the code points
      below 256, one [ascii] each; every string operation the source uses
      (equality, concatenation, slicing, [strip]) acts character by
      character.
    - A [pathlib.Path] is the list of its components ([Path.parts]), and
      a file is named by them: no component is [..] or a link, so two
      paths name one file exactly when they are equal.  Joining with [/]
      appends one component; a statement that depends on which file a
      joined path names asks the joined string to be one component
      ([PyPath.component]).
    - The file system is a finite map from paths to the lines of regular
      files of UTF-8 text.  Directories carry no state of their own:
      [mkdir] leaves the map unchanged and [rmtree] removes the files
      below a prefix; no regular file stands where the code makes or
      removes a directory, and no directory where it opens a file.  The
      directory of a file the code writes can be missing, which the map
      does not tell: a statement that a call returns is about a write
      into a directory the code has made or that holds a file it has
      read, and the other statements are about the calls that return.
    - [index.json] is kept apart from the text files, as what
      [get_checkpoints] makes of it: nothing, the checkpoints
      [Checkpoint.from_dict] builds from it, their fields of the types
      the dataclass declares, or an exception.  A statement about a file
      at a path the caller gives says where it needs that path not to be
      the path of [index.json].
    - The [json] module, [uuid.uuid4], [datetime.now], [isoformat],
      [fromisoformat] and [difflib.unified_diff] are library code: they
      are parameters; [json.loads] returns a value or raises
      [JSONDecodeError].
    - A raised exception is a value of [exn]; the state reached when it is
      raised is kept, as Python keeps the files written so far.
    - The depth of recursion the interpreter allows is a parameter,
      counted in nested calls of the recursive function at hand.  How many
      frames such a call takes and how many are on the stack already is
      not modelled: a statement that a recursion returns says so for
      every depth from some depth on.
    - A widget of the panel is what it shows: the tree widget is the list
      of its top-level items, the branch list a set of names. *)

From Stdlib Require Import ZArith String Ascii List Lia.
From stdpp Require Import base option list strings gmap fin_maps pretty.

Set Warnings "-register-all".

Open Scope string_scope.
Open Scope list_scope.

(** ** Python strings *)

Module PyStr.

(** [str.isspace], which tells what [strip] removes, on the code points
    below 256: the ASCII white space, the separators U+001C to U+001F,
    NEXT LINE (U+0085) and NO-BREAK SPACE (U+00A0). *)
Definition is_space (c : ascii) : bool :=
  let n := nat_of_ascii c in
  (Nat.leb 9 n && Nat.leb n 13) || (Nat.leb 28 n && Nat.leb n 32)
  || Nat.eqb n 133 || Nat.eqb n 160.

Fixpoint lstrip (s : string) : string :=
  match s with
  | EmptyString => EmptyString
  | String c s' => if is_space c then lstrip s' else s
  end.

Fixpoint rstrip (s : string) : string :=
  match s with
  | EmptyString => EmptyString
  | String c s' =>
      match rstrip s' with
      | EmptyString => if is_space c then EmptyString else String c EmptyString
      | r => String c r
      end
  end.

(** [s.strip()] *)
Definition strip (s : string) : string := rstrip (lstrip s).

(** [s[:n]] for a non-negative [n]. *)
Definition slice_to (n : nat) (s : string) : string := substring 0 n s.

(** [not s] for a string: the empty string is falsy. *)
Definition falsy (s : string) : bool :=
  match s with EmptyString => true | _ => false end.

(** [s[i:]] *)
Fixpoint drop (i : nat) (s : string) : string :=
  match i, s with
  | 0, _ => s
  | S i', String _ s' => drop i' s'
  | S _, EmptyString => EmptyString
  end.

(** [s.rfind('.')], with [None] for Python's [-1]. *)
Fixpoint rfind_dot (s : string) : option nat :=
  match s with
  | EmptyString => None
  | String c s' =>
      match rfind_dot s' with
      | Some i => Some (S i)
      | None => if Ascii.eqb c "." then Some 0 else None
      end
  end.

(** [s.replace(a, b)] for single characters [a] and [b]. *)
Fixpoint replace_char (a b : ascii) (s : string) : string :=
  match s with
  | EmptyString => EmptyString
  | String c s' => String (if Ascii.eqb c a then b else c) (replace_char a b s')
  end.

(** [s[i:j]] for [0 <= i <= j]. *)
Definition slice (i j : nat) (s : string) : string := substring i (j - i) s.

(** [s.startswith(c)] for a single character [c]. *)
Definition startswith_char (c : ascii) (s : string) : bool :=
  match s with
  | String c' _ => Ascii.eqb c' c
  | EmptyString => false
  end.

(** The characters of a string. *)
Fixpoint chars (s : string) : list ascii :=
  match s with
  | EmptyString => []
  | String c s' => c :: chars s'
  end.

End PyStr.

(** ** pathlib *)

Module PyPath.
Import PyStr.

(** [Path.parts] *)
Definition Path := list string.

(** [p / seg], for a segment that is a single component. *)
Definition joinpath (p : Path) (seg : string) : Path := p ++ [seg].

(** [p.name]: the final component, empty when there is none. *)
Definition name (p : Path) : string := List.last p EmptyString.

(** [p.suffix]: from the last dot of the name, unless that dot opens or
    closes the name. *)
Definition suffix (p : Path) : string :=
  let n := name p in
  match rfind_dot n with
  | Some i =>
      if Nat.ltb 0 i && Nat.ltb i (String.length n - 1) then drop i n
      else EmptyString
  | None => EmptyString
  end.

(** [p.with_suffix(sfx)] for a well-formed [sfx]; [None] is the
    [ValueError] pathlib raises on a path with an empty name. *)
Definition with_suffix (p : Path) (sfx : string) : option Path :=
  let n := name p in
  if falsy n then None
  else
    let old_suffix := suffix p in
    let n' :=
      if falsy old_suffix then n +:+ sfx
      else slice_to (String.length n - String.length old_suffix) n +:+ sfx in
    Some (removelast p ++ [n']).

(** [q] lies in the directory tree rooted at [dir]. *)
Definition below (dir q : Path) : bool :=
  bool_decide (take (length dir) q = dir).

(** A string that [p / s] appends to [p] as one component naming an entry
    of the directory [p]: it is not empty, holds no separator, and is
    neither [.] nor [..]. *)
Definition component (s : string) : bool :=
  negb (falsy s) && negb (String.eqb s ".") && negb (String.eqb s "..")
  && forallb (fun c => negb (Ascii.eqb c "/") && negb (Ascii.eqb c (ascii_of_nat 92))) (chars s).

End PyPath.

(** ** Values of the [json] module *)

Module Json.

(** What [json.loads] can return.  Numbers are kept as integers; a float
    would be one more constructor that is neither a [str] nor a [dict]. *)
Inductive json : Type :=
| JNone
| JBool (b : bool)
| JInt (n : Z)
| JStr (s : string)
| JList (l : list json)
| JDict (d : list (string * json)).

(** A [dict] as the ordered list of its items. *)
Definition dict := list (string * json).

(** [d.get(k)] *)
Fixpoint dict_get (k : string) (d : dict) : option json :=
  match d with
  | [] => None
  | (k', v) :: d' => if String.eqb k k' then Some v else dict_get k d'
  end.

(** [d.get(k, default)] *)
Definition dict_get_default (k : string) (default : json) (d : dict) : json :=
  match dict_get k d with
  | Some v => v
  | None => default
  end.

(** [d[k] = v]: an existing key keeps its place, a new one goes last. *)
Fixpoint dict_set (k : string) (v : json) (d : dict) : dict :=
  match d with
  | [] => [(k, v)]
  | (k', v') :: d' =>
      if String.eqb k k' then (k', v) :: d' else (k', v') :: dict_set k v d'
  end.

(** [isinstance(v, str)] *)
Definition is_str (v : json) : bool :=
  match v with JStr _ => true | _ => false end.

(** [isinstance(v, dict)] *)
Definition is_dict (v : json) : bool :=
  match v with JDict _ => true | _ => false end.

(** [v == s] for a string [s]. *)
Definition eq_str (v : json) (s : string) : bool :=
  match v with JStr s' => String.eqb s' s | _ => false end.

End Json.

(** ** Exceptions, outcomes *)

(** The exceptions that leave the methods of [CheckpointManager]. *)
Inductive exn : Type :=
| RecursionError
| AttributeError
| TypeError
| ValueError
| SameFileError
| FileNotFoundError.

(** A call returns a value or raises. *)
Inductive outcome (A : Type) : Type :=
| Ret (a : A)
| Raise (e : exn).

Arguments Ret {A} a.
Arguments Raise {A} e.

(** [[f(x) for x in l]] for an [f] that may raise. *)
Fixpoint map_outcome {A B : Type} (f : A -> outcome B) (l : list A) : outcome (list B) :=
  match l with
  | [] => Ret []
  | x :: l' =>
      match f x with
      | Raise e => Raise e
      | Ret y =>
          match map_outcome f l' with
          | Raise e => Raise e
          | Ret ys => Ret (y :: ys)
          end
      end
  end.

(** ** The data model ([src/core/models.py]) *)

Record Checkpoint : Type := mkCheckpoint {
  checkpoint_id : string;
  session_id : string;
  name : string;
  description : string;
  timestamp : Z;
  message_uuid : string;
  parent_checkpoint_id : option string;
  branch_name : option string
}.

(** [cp.parent_checkpoint_id = p], the one assignment the source makes to a
    field of an existing checkpoint. *)
Definition set_parent (p : option string) (cp : Checkpoint) : Checkpoint :=
  {| checkpoint_id := checkpoint_id cp;
     session_id := session_id cp;
     name := name cp;
     description := description cp;
     timestamp := timestamp cp;
     message_uuid := message_uuid cp;
     parent_checkpoint_id := p;
     branch_name := branch_name cp |}.

(** A node of the dictionary tree [get_timeline] returns: the checkpoint
    ([cp.to_dict()]) and the list under ['children']. *)
Inductive TimelineNode : Type :=
| Node (checkpoint : Checkpoint) (children : list TimelineNode).

(** The dictionary [get_timeline] returns. *)
Record Timeline : Type := mkTimeline {
  tl_session_id : string;
  total_checkpoints : nat;
  branches : list string;
  tree : list TimelineNode
}.

(** The checkpoints of a tree in preorder, and of a forest. *)
Fixpoint nodes (t : TimelineNode) : list Checkpoint :=
  match t with
  | Node cp kids => cp :: concat (map nodes kids)
  end.

Definition forest_nodes (ts : list TimelineNode) : list Checkpoint :=
  concat (map nodes ts).

(** Number of nodes of a forest. *)
Definition forest_count (ts : list TimelineNode) : nat := length (forest_nodes ts).

(** ** The manager and its files *)

(** What [index.json] holds, by what the [try] statement of
    [get_checkpoints] makes of it: text that [json.load] rejects; an
    array from which [Checkpoint.from_dict] builds these checkpoints; or
    JSON that the list comprehension does not get through, because the
    value is no array of objects or [fromisoformat] rejects a timestamp,
    so that this exception leaves the method. *)
Inductive IndexFile : Type :=
| Corrupt
| Entries (cps : list Checkpoint)
| Unloadable (e : exn).

(** The state a [CheckpointManager] works on: its attributes
    [checkpoints_dir] and [_checkpoints], the text files, and the content
    of [checkpoints_file] ([None]: there is no such file). *)
Record Manager : Type := mkManager {
  checkpoints_dir : PyPath.Path;
  files : gmap PyPath.Path (list string);
  checkpoints_file : option IndexFile;
  _checkpoints : option (list Checkpoint)
}.

Definition set_files (f : gmap PyPath.Path (list string)) (m : Manager) : Manager :=
  {| checkpoints_dir := checkpoints_dir m;
     files := f;
     checkpoints_file := checkpoints_file m;
     _checkpoints := _checkpoints m |}.

Definition set_checkpoints_file (i : option IndexFile) (m : Manager) : Manager :=
  {| checkpoints_dir := checkpoints_dir m;
     files := files m;
     checkpoints_file := i;
     _checkpoints := _checkpoints m |}.

Definition set__checkpoints (c : option (list Checkpoint)) (m : Manager) : Manager :=
  {| checkpoints_dir := checkpoints_dir m;
     files := files m;
     checkpoints_file := checkpoints_file m;
     _checkpoints := c |}.

(** A method body: from a state to an outcome and the state it leaves. *)
Definition M (A : Type) : Type := Manager -> outcome A * Manager.

Definition ret {A : Type} (a : A) : M A := fun m => (Ret a, m).

Definition raise {A : Type} (e : exn) : M A := fun m => (Raise e, m).

Definition bind {A B : Type} (c : M A) (k : A -> M B) : M B :=
  fun m =>
    match c m with
    | (Ret a, m') => k a m'
    | (Raise e, m') => (Raise e, m')
    end.

(** A computation without effect on the state. *)
Definition lift {A : Type} (o : outcome A) : M A := fun m => (o, m).

Definition gets {A : Type} (f : Manager -> A) : M A := fun m => (Ret (f m), m).

Definition modify (f : Manager -> Manager) : M unit := fun m => (Ret tt, f m).

Declare Scope py_scope.
Delimit Scope py_scope with py.
Notation "'do' x <- c ; k" := (bind c (fun x => k))
  (at level 10, x name, c at level 100, k at level 200) : py_scope.
Notation "'run' c ; k" := (bind c (fun _ => k))
  (at level 10, c at level 100, k at level 200) : py_scope.
Open Scope py_scope.

(** [p.exists()] for a path of a regular file. *)
Definition path_exists (p : PyPath.Path) : M bool :=
  gets (fun m => bool_decide (is_Some (files m !! p))).

(** The lines [for line in f] yields after [open(p, 'r', encoding='utf-8')],
    for a file of UTF-8 text. *)
Definition read_lines (p : PyPath.Path) : M (list string) :=
  fun m =>
    match files m !! p with
    | Some ls => (Ret ls, m)
    | None => (Raise FileNotFoundError, m)
    end.

(** [open(p, 'w')] in a directory that exists: the file is created or
    truncated. *)
Definition open_w (p : PyPath.Path) : M unit :=
  modify (fun m => set_files (<[p := []]> (files m)) m).

(** [f.write(text + '
')] on a file opened for writing. *)
Definition write_line (p : PyPath.Path) (text : string) : M unit :=
  modify (fun m => set_files (<[p := default [] (files m !! p) ++ [text]]> (files m)) m).

(** [shutil.copy2(src, dst)] of a regular file, to a path in a directory
    that exists. *)
Definition copy2 (src dst : PyPath.Path) : M unit :=
  if decide (src = dst) then raise SameFileError
  else do ls <- read_lines src; modify (fun m => set_files (<[dst := ls]> (files m)) m).

(** [if d.exists(): shutil.rmtree(d)], for a path that names a directory
    or nothing. *)
Definition rmtree (d : PyPath.Path) : M unit :=
  modify (fun m => set_files (filter (fun kv => PyPath.below d kv.1 = false) (files m)) m).

(** ** A small store for the examples *)

Module Demo.
Import Json.

(** The quotation mark. *)
Definition dq : string := String (ascii_of_nat 34) EmptyString.

Definition quoted (s : string) : string := dq +:+ s +:+ dq.

Fixpoint join (sep : string) (l : list string) : string :=
  match l with
  | [] => ""
  | [x] => x
  | x :: l' => x +:+ sep +:+ join sep l'
  end.

(** [json.dumps], on values whose strings need no escape. *)
Fixpoint dumps (v : json) : string :=
  match v with
  | JNone => "null"
  | JBool b => if b then "true" else "false"
  | JInt n => pretty n
  | JStr s => quoted s
  | JList l => "[" +:+ join ", " (map dumps l) +:+ "]"
  | JDict d =>
      "{" +:+ join ", " (map (fun kv => quoted kv.1 +:+ ": " +:+ dumps kv.2) d) +:+ "}"
  end.

(** A chat record of session [s1]. *)
Definition record (uuid type : string) (content : json) : json :=
  JDict [("uuid", JStr uuid); ("type", JStr type); ("sessionId", JStr "s1");
         ("message", JDict [("role", JStr type); ("content", content)])].

Definition r1 : json := record "m1" "user" (JStr "hi").
Definition r2 : json := record "m2" "assistant" (JList [JDict [("type", JStr "text")]]).
Definition r3 : json := record "m3" "user" (JStr "bye").

(** [r] after [r['sessionId'] = 's2']. *)
Definition moved (r : json) : json :=
  match r with
  | JDict d => JDict (dict_set "sessionId" (JStr "s2") d)
  | _ => r
  end.

(** The JSON texts of the examples and what they stand for. *)
Definition universe : list json := [r1; r2; r3; moved r1; moved r2; moved r3; JInt 42].

(** [json.loads] on the lines of the examples: the text of a value of
    [universe] gives that value, the other lines used below ([{oops] and
    the empty line) are no JSON. *)
Definition loads (s : string) : option json :=
  List.find (fun v => String.eqb (dumps v) s) universe.

(** [str] of a value without strings in it. *)
Definition py_str (v : json) : string :=
  match v with
  | JNone => "None"
  | JBool b => if b then "True" else "False"
  | JInt n => pretty n
  | _ => ""
  end.

Definition recursion_limit : nat := 1000.

Definition checkpoints : PyPath.Path := [".claude"; "claude-code-manager-py"; "checkpoints"].
Definition project : PyPath.Path := [".claude"; "projects"; "demo"].
Definition live : PyPath.Path := project ++ ["s1.jsonl"].
Definition snapshot (id : string) : PyPath.Path := checkpoints ++ [id; "session.jsonl"].

(** A session log with a broken line and a blank one. *)
Definition log : list string := [dumps r1; "{oops"; "  "; dumps r2; dumps r3].

Definition cp (id sid : string) (uuid : string) (parent branch : option string) : Checkpoint :=
  mkCheckpoint id sid ("checkpoint " +:+ id) "" 0 uuid parent branch.

(** First use: no [index.json], nothing read yet. *)
Definition fresh : Manager :=
  mkManager checkpoints {[ live := log ]} None None.


(** An empty index on disk. *)
Definition empty_index : Manager :=
  mkManager checkpoints {[ live := log ]} (Some (Entries [])) None.


(** Session [s1] with checkpoints [A] (through [m1]) and [B] (through
    [m2], child of [A]). *)
Definition two_checkpoints : Manager :=
  mkManager checkpoints
    (<[ snapshot "A" := [dumps r1] ]>
       (<[ snapshot "B" := [dumps r1; dumps r2] ]> {[ live := log ]}))
    (Some (Entries [cp "A" "s1" "m1" None None; cp "B" "s1" "m2" (Some "A") None]))
    None.

(** A chain [A], [B], [C] in the index. *)
Definition chain : Manager :=
  mkManager checkpoints ∅
    (Some (Entries [cp "A" "s1" "m1" None None;
                    cp "B" "s1" "m2" (Some "A") None;
                    cp "C" "s1" "m3" (Some "B") None]))
    None.

(** An index as it can be read from [index.json]: [X] names itself as its
    parent, and [C] is a child of [X]. *)
Definition self_parent : Manager :=
  mkManager checkpoints ∅
    (Some (Entries [cp "X" "s1" "m1" (Some "X") None;
                    cp "C" "s1" "m2" (Some "X") None]))
    None.

(** An index that [json.load] rejects. *)
Definition corrupt_index : Manager :=
  mkManager checkpoints {[ live := log ]} (Some Corrupt) None.


(** [json.loads] on the texts of the values of [u]. *)
Definition loads_in (u : list json) (s : string) : option json :=
  List.find (fun v => String.eqb (dumps v) s) u.


(** A clock that counts the seconds of one minute, and its readings as
    [isoformat] writes them and [fromisoformat] reads them. *)
Definition isoformat (t : Z) : string := "2026-01-01T00:00:0" +:+ pretty t.

Definition fromisoformat (s : string) : option Z :=
  List.find (fun t => String.eqb (isoformat t) s) [0; 1; 2; 3]%Z.

(** An entry of [index.json] whose [timestamp] is [null]. *)
Definition bad_entry : json :=
  JDict [("checkpoint_id", JStr "A"); ("timestamp", JNone)].

(** Two branches of session [s1], and a checkpoint of session [s2]
    forked from [B]. *)
Definition branched : Manager :=
  mkManager checkpoints ∅
    (Some (Entries [cp "A" "s1" "m1" None (Some "main");
                    cp "B" "s1" "m2" (Some "A") (Some "dev");
                    cp "C" "s1" "m3" (Some "A") (Some "dev");
                    cp "F" "s2" "m2" (Some "B") (Some "fork")]))
    None.




(** An [index.json] whose entries [from_dict] does not get through: the
    list comprehension raises [TypeError]. *)
Definition rejected_index : Manager :=
  mkManager checkpoints {[ live := log ]} (Some (Unloadable TypeError)) None.

(** The path of [index.json]. *)
Definition index : PyPath.Path := checkpoints ++ ["index.json"].

End Demo.


(** ** [Checkpoint.to_dict] and [Checkpoint.from_dict] ([src/core/models.py]) *)

Section Models.

(** [dt.isoformat()] and [datetime.fromisoformat(s)] ([None]: it raises
    [ValueError]). *)
Variable isoformat : Z -> string.
Variable fromisoformat : string -> option Z.

(** [json.loads] ([None]: it raises [JSONDecodeError]), which [json.load]
    applies to the text of a file, and [json.dumps(v, indent=2)], the
    text [json.dump(v, f, indent=2)] writes. *)
Variable json_loads : string -> option Json.json.
Variable json_dumps_indent : Json.json -> string.

(** An optional string as a JSON value: [None] is [null]. *)
Definition optional_str (o : option string) : Json.json :=
  match o with
  | Some s => Json.JStr s
  | None => Json.JNone
  end.

(** [Checkpoint.to_dict] *)
Definition to_dict (cp : Checkpoint) : Json.json :=
  Json.JDict
    [("checkpoint_id", Json.JStr (checkpoint_id cp));
     ("session_id", Json.JStr (session_id cp));
     ("name", Json.JStr (name cp));
     ("description", Json.JStr (description cp));
     ("timestamp", Json.JStr (isoformat (timestamp cp)));
     ("message_uuid", Json.JStr (message_uuid cp));
     ("parent_checkpoint_id", optional_str (parent_checkpoint_id cp));
     ("branch_name", optional_str (branch_name cp))].

(** A [Checkpoint] object as [from_dict] builds it.  The dataclass checks
    no type: every field but the timestamp holds whatever value the
    dictionary gave. *)
Record CheckpointObject : Type := mkCheckpointObject {
  obj_checkpoint_id : Json.json;
  obj_session_id : Json.json;
  obj_name : Json.json;
  obj_description : Json.json;
  obj_timestamp : Z;
  obj_message_uuid : Json.json;
  obj_parent_checkpoint_id : Json.json;
  obj_branch_name : Json.json
}.

(** The object whose fields hold the values of a checkpoint with fields of
    the declared types. *)
Definition object_of (cp : Checkpoint) : CheckpointObject :=
  {| obj_checkpoint_id := Json.JStr (checkpoint_id cp);
     obj_session_id := Json.JStr (session_id cp);
     obj_name := Json.JStr (name cp);
     obj_description := Json.JStr (description cp);
     obj_timestamp := timestamp cp;
     obj_message_uuid := Json.JStr (message_uuid cp);
     obj_parent_checkpoint_id := optional_str (parent_checkpoint_id cp);
     obj_branch_name := optional_str (branch_name cp) |}.

(** [datetime.fromisoformat(v)]: a [TypeError] on a value that is no
    string, a [ValueError] on a string it cannot read. *)
Definition fromisoformat_value (v : Json.json) : outcome Z :=
  match v with
  | Json.JStr s =>
      match fromisoformat s with
      | Some t => Ret t
      | None => Raise ValueError
      end
  | _ => Raise TypeError
  end.

(** [Checkpoint.from_dict(data)]; [now] is the value of [datetime.now()]. *)
Definition from_dict (now : Z) (data : Json.json) : outcome CheckpointObject :=
  match data with
  | Json.JDict d =>
      match fromisoformat_value
              (Json.dict_get_default "timestamp" (Json.JStr (isoformat now)) d) with
      | Raise e => Raise e
      | Ret t =>
          Ret {| obj_checkpoint_id := Json.dict_get_default "checkpoint_id" (Json.JStr "") d;
                 obj_session_id := Json.dict_get_default "session_id" (Json.JStr "") d;
                 obj_name := Json.dict_get_default "name" (Json.JStr "") d;
                 obj_description := Json.dict_get_default "description" (Json.JStr "") d;
                 obj_timestamp := t;
                 obj_message_uuid := Json.dict_get_default "message_uuid" (Json.JStr "") d;
                 obj_parent_checkpoint_id :=
                   Json.dict_get_default "parent_checkpoint_id" Json.JNone d;
                 obj_branch_name := Json.dict_get_default "branch_name" Json.JNone d |}
      end
  | _ => Raise AttributeError
  end.

(** ** The text of [index.json] ([get_checkpoints], [_save_checkpoints]) *)

(** [[Checkpoint.from_dict(c) for c in l]] over a list; [clock i] is what
    [datetime.now()] gives in the call for the element at position [i]. *)
Fixpoint from_dicts (clock : nat -> Z) (i : nat) (l : list Json.json)
  : outcome (list CheckpointObject) :=
  match l with
  | [] => Ret []
  | c :: l' =>
      match from_dict (clock i) c with
      | Raise e => Raise e
      | Ret o =>
          match from_dicts clock (S i) l' with
          | Raise e => Raise e
          | Ret os => Ret (o :: os)
          end
      end
  end.

(** [[Checkpoint.from_dict(c) for c in data]] for any value [json.load]
    returns: a dictionary is iterated by its keys and a string by its
    characters, which have no [get]; the other values cannot be iterated. *)
Definition checkpoints_of_json (clock : nat -> Z) (data : Json.json)
  : outcome (list CheckpointObject) :=
  match data with
  | Json.JList l => from_dicts clock 0 l
  | Json.JDict [] => Ret []
  | Json.JDict (_ :: _) => Raise AttributeError
  | Json.JStr EmptyString => Ret []
  | Json.JStr (String _ _) => Raise AttributeError
  | _ => Raise TypeError
  end.

(** The [try] statement of [get_checkpoints] on the text of [index.json]:
    the value assigned to [self._checkpoints], or the exception that
    leaves the method.  Only [JSONDecodeError] and [IOError] are caught. *)
Definition load_checkpoints (clock : nat -> Z) (text : string)
  : outcome (list CheckpointObject) :=
  match json_loads text with
  | None => Ret []
  | Some data => checkpoints_of_json clock data
  end.

(** The text [_save_checkpoints] writes:
    [json.dump([c.to_dict() for c in checkpoints], f, indent=2)]. *)
Definition index_text (checkpoints : list Checkpoint) : string :=
  json_dumps_indent (Json.JList (to_dict <$> checkpoints)).

End Models.

(** ** [CheckpointManager] *)

Section CheckpointManager.

(** [json.loads] ([None]: it raises [JSONDecodeError]) and [json.dumps]. *)
Variable json_loads : string -> option Json.json.
Variable json_dumps : Json.json -> string.

(** [str(v)] for a value that is not a string, as an f-string renders it. *)
Variable py_str : Json.json -> string.

(** [difflib.unified_diff(a, b, fromfile, tofile, lineterm="")], as a list. *)
Variable unified_diff : list string -> list string -> string -> string -> list string.

(** How many nested calls of a recursive function the interpreter still
    allows where a method starts one (what [sys.getrecursionlimit()]
    leaves of the stack, in calls of that function); one more raises
    [RecursionError]. *)
Variable recursion_limit : nat.

(** [_ensure_dir_exists], with the call [self._save_checkpoints([])] it
    makes when [index.json] is missing left open. *)
Definition _ensure_dir_exists_calling (save_empty : M unit) : M unit :=
  (* self.checkpoints_dir.mkdir(parents=True, exist_ok=True) *)
  do index <- gets checkpoints_file;
  match index with
  | None => save_empty
  | Some _ => ret tt
  end.

(** [_save_checkpoints]; [depth] nested calls of it are still allowed. *)
Fixpoint _save_checkpoints_at (depth : nat) (checkpoints : list Checkpoint) : M unit :=
  run _ensure_dir_exists_calling
        match depth with
        | 0 => raise RecursionError
        | S depth' => _save_checkpoints_at depth' []
        end;
  run modify (set_checkpoints_file (Some (Entries checkpoints)));
  modify (set__checkpoints (Some checkpoints)).

Definition _ensure_dir_exists_at (depth : nat) : M unit :=
  _ensure_dir_exists_calling
    match depth with
    | 0 => raise RecursionError
    | S depth' => _save_checkpoints_at depth' []
    end.

Definition _ensure_dir_exists : M unit := _ensure_dir_exists_at recursion_limit.

Definition _save_checkpoints (checkpoints : list Checkpoint) : M unit :=
  _save_checkpoints_at recursion_limit checkpoints.

(** The [try] statement of [get_checkpoints]: a file that [json.load]
    rejects, or that cannot be opened, counts as the empty list
    ([except (json.JSONDecodeError, IOError)]); any other exception of
    the list comprehension leaves the method. *)
Definition load_index (index : option IndexFile) : outcome (list Checkpoint) :=
  match index with
  | Some (Entries cps) => Ret cps
  | Some Corrupt => Ret []
  | Some (Unloadable e) => Raise e
  | None => Ret []
  end.

Arguments load_index : simpl never.

(** [get_checkpoints(session_id, force_refresh)] *)
Definition get_checkpoints (session_id0 : option string) (force_refresh : bool)
  : M (list Checkpoint) :=
  do cached <- gets _checkpoints;
  run (if bool_decide (cached = None) || force_refresh
       then run _ensure_dir_exists;
            do index <- gets checkpoints_file;
            do checkpoints <- lift (load_index index);
            modify (set__checkpoints (Some checkpoints))
       else ret tt);
  do cached <- gets _checkpoints;
  let all := default [] cached in
  match session_id0 with
  | Some sid =>
      if PyStr.falsy sid then ret all
      else ret (filter (fun c => session_id c = sid) all)
  | None => ret all
  end.

(** [data.get('uuid') == message_uuid] on a dictionary. *)
Definition has_uuid (message_uuid0 : string) (d : Json.dict) : bool :=
  match Json.dict_get "uuid" d with
  | Some v => Json.eq_str v message_uuid0
  | None => false
  end.

(** The reading loop of [create_checkpoint]: [acc] is
    [messages_up_to_checkpoint]. *)
Fixpoint read_up_to (message_uuid0 : string) (lines : list string) (acc : list Json.json)
  : outcome (list Json.json) :=
  match lines with
  | [] => Ret acc
  | line :: rest =>
      let line := PyStr.strip line in
      if PyStr.falsy line then read_up_to message_uuid0 rest acc
      else
        match json_loads line with
        | None => read_up_to message_uuid0 rest acc
        | Some data =>
            let acc := acc ++ [data] in
            match data with
            | Json.JDict d =>
                if has_uuid message_uuid0 d then Ret acc
                else read_up_to message_uuid0 rest acc
            | _ => Raise AttributeError
            end
        end
  end.

(** The path of the snapshot of a checkpoint:
    [self.checkpoints_dir / checkpoint_id / "session.jsonl"]. *)
Definition snapshot_path (dir : PyPath.Path) (id : string) : PyPath.Path :=
  PyPath.joinpath (PyPath.joinpath dir id) "session.jsonl".

(** [for msg in msgs: f.write(json.dumps(msg) + '\n')] *)
Fixpoint write_all (p : PyPath.Path) (msgs : list Json.json) : M unit :=
  match msgs with
  | [] => ret tt
  | msg :: rest => run write_line p (json_dumps msg); write_all p rest
  end.

(** [create_checkpoint]; [new_id] is the value of [str(uuid.uuid4())] and
    [now] that of [datetime.now()]. *)
Definition create_checkpoint (session_id0 : string) (session_path : PyPath.Path)
    (message_uuid0 name0 description0 : string)
    (parent_checkpoint_id0 branch_name0 : option string)
    (new_id : string) (now : Z) : M Checkpoint :=
  let checkpoint :=
    mkCheckpoint new_id session_id0 name0 description0 now message_uuid0
                 parent_checkpoint_id0 branch_name0 in
  do dir <- gets checkpoints_dir;
  (* checkpoint_data_dir.mkdir(parents=True, exist_ok=True) *)
  let session_file := session_path in
  do present <- path_exists session_file;
  run (if present
       then do lines <- read_lines session_file;
            do messages_up_to_checkpoint <- lift (read_up_to message_uuid0 lines []);
            run open_w (snapshot_path dir new_id);
            write_all (snapshot_path dir new_id) messages_up_to_checkpoint
       else ret tt);
  do checkpoints <- get_checkpoints None false;
  (* checkpoints.append(checkpoint): the list is self._checkpoints itself *)
  run modify (set__checkpoints (Some (checkpoints ++ [checkpoint])));
  run _save_checkpoints (checkpoints ++ [checkpoint]);
  ret checkpoint.

(** The first position whose checkpoint has the given id, with it. *)
Definition find_checkpoint (id : string) (checkpoints : list Checkpoint)
  : option (nat * Checkpoint) :=
  list_find (fun cp => checkpoint_id cp = id) checkpoints.

(** [get_checkpoint] *)
Definition get_checkpoint (id : string) : M (option Checkpoint) :=
  do checkpoints <- get_checkpoints None false;
  ret (snd <$> find_checkpoint id checkpoints).

(** One turn of the loop [for cp in checkpoints] of [delete_checkpoint]:
    [i] is the position of [cp] and [k] that of the object [checkpoint],
    which is an element of the very list the loop assigns into. *)
Definition reparent_step (id : string) (k : nat) (checkpoints : list Checkpoint) (i : nat)
  : list Checkpoint :=
  match checkpoints !! i, checkpoints !! k with
  | Some cp, Some checkpoint =>
      if decide (parent_checkpoint_id cp = Some id)
      then <[i := set_parent (parent_checkpoint_id checkpoint) cp]> checkpoints
      else checkpoints
  | _, _ => checkpoints
  end.

Definition reparent_children (id : string) (k : nat) (checkpoints : list Checkpoint)
  : list Checkpoint :=
  foldl (reparent_step id k) checkpoints (seq 0 (length checkpoints)).

(** [delete_checkpoint]; [checkpoints_dir / id] is the directory of the
    checkpoint for an id that is one path component. *)
Definition delete_checkpoint (id : string) : M bool :=
  do checkpoints <- get_checkpoints None false;
  match find_checkpoint id checkpoints with
  | None => ret false
  | Some (k, _) =>
      do dir <- gets checkpoints_dir;
      run rmtree (PyPath.joinpath dir id);
      let checkpoints := reparent_children id k checkpoints in
      (* the assignments went into the objects of self._checkpoints *)
      run modify (set__checkpoints (Some checkpoints));
      run _save_checkpoints (filter (fun c => checkpoint_id c <> id) checkpoints);
      ret true
  end.

(** [session_file.with_suffix('.jsonl.backup')] *)
Definition backup_path_of (session_file : PyPath.Path) : option PyPath.Path :=
  PyPath.with_suffix session_file ".jsonl.backup".

(** [restore_checkpoint] *)
Definition restore_checkpoint (id : string) (session_path : PyPath.Path) : M bool :=
  do checkpoint <- get_checkpoint id;
  match checkpoint with
  | None => ret false
  | Some _ =>
      do dir <- gets checkpoints_dir;
      let checkpoint_session := snapshot_path dir id in
      do present <- path_exists checkpoint_session;
      if negb present then ret false
      else
        (* Backup current session *)
        let session_file := session_path in
        do live <- path_exists session_file;
        run (if live
             then match backup_path_of session_file with
                  | None => raise ValueError
                  | Some backup_path => copy2 session_file backup_path
                  end
             else ret tt);
        (* Restore from checkpoint *)
        run copy2 checkpoint_session session_file;
        ret true
  end.

(** [data['sessionId'] = new_session_id] *)
Definition retag (new_session_id : string) (d : Json.dict) : Json.json :=
  Json.JDict (Json.dict_set "sessionId" (Json.JStr new_session_id) d).

(** The copying loop of [fork_session], writing into [dst]. *)
Fixpoint copy_retagged (new_session_id : string) (dst : PyPath.Path) (lines : list string)
  : M unit :=
  match lines with
  | [] => ret tt
  | line :: rest =>
      match json_loads (PyStr.strip line) with
      | None => copy_retagged new_session_id dst rest
      | Some (Json.JDict d) =>
          run write_line dst (json_dumps (retag new_session_id d));
          copy_retagged new_session_id dst rest
      | Some _ => raise TypeError
      end
  end.

(** [project_path / f"{new_session_id}.jsonl"] *)
Definition new_session_path_of (project_path : PyPath.Path) (new_session_id : string)
  : PyPath.Path :=
  PyPath.joinpath project_path (new_session_id +:+ ".jsonl").

(** [fork_session]; [new_id] and [now] are drawn by the call of
    [create_checkpoint] it ends with.  The new path stands for
    [str(new_session_path)]. *)
Definition fork_session (id new_session_id : string) (project_path : PyPath.Path)
    (branch_name0 : string) (new_id : string) (now : Z) : M (option PyPath.Path) :=
  do checkpoint <- get_checkpoint id;
  match checkpoint with
  | None => ret None
  | Some checkpoint =>
      do dir <- gets checkpoints_dir;
      let checkpoint_session := snapshot_path dir id in
      do present <- path_exists checkpoint_session;
      if negb present then ret None
      else
        let new_session_path := new_session_path_of project_path new_session_id in
        (* open(checkpoint_session, 'r'), then open(new_session_path, 'w');
           the first line is read after the second file was truncated *)
        run open_w new_session_path;
        do lines <- read_lines checkpoint_session;
        run copy_retagged new_session_id new_session_path lines;
        run create_checkpoint new_session_id new_session_path
              (message_uuid checkpoint)
              ("Fork from " +:+ name checkpoint)
              ("Forked from checkpoint: " +:+ name checkpoint)
              (Some id) (Some branch_name0) new_id now;
        ret (Some new_session_path)
  end.

(** [data.get('type') in ['user', 'assistant']] *)
Definition is_chat (d : Json.dict) : bool :=
  match Json.dict_get "type" d with
  | Some v => Json.eq_str v "user" || Json.eq_str v "assistant"
  | None => false
  end.

(** The reading loop of [get_checkpoint_messages]. *)
Fixpoint chat_messages (lines : list string) (messages : list Json.json)
  : outcome (list Json.json) :=
  match lines with
  | [] => Ret messages
  | line :: rest =>
      let line := PyStr.strip line in
      if PyStr.falsy line then chat_messages rest messages
      else
        match json_loads line with
        | None => chat_messages rest messages
        | Some (Json.JDict d) =>
            if is_chat d then chat_messages rest (messages ++ [Json.JDict d])
            else chat_messages rest messages
        | Some _ => Raise AttributeError
        end
  end.

(** [get_checkpoint_messages] *)
Definition get_checkpoint_messages (id : string) : M (list Json.json) :=
  do dir <- gets checkpoints_dir;
  let checkpoint_session := snapshot_path dir id in
  do present <- path_exists checkpoint_session;
  if present
  then do lines <- read_lines checkpoint_session; lift (chat_messages lines [])
  else ret [].

(** [f"{role}"]: a string is rendered as it is. *)
Definition format_value (v : Json.json) : string :=
  match v with
  | Json.JStr s => s
  | _ => py_str v
  end.

(** [f"[{role}]: {text[:200]}..."] *)
Definition display_line (role : Json.json) (text : string) : string :=
  "[" +:+ format_value role +:+ "]: " +:+ PyStr.slice_to 200 text +:+ "...".

(** [msg.get('message', {})] of a record; [None]: [msg] has no [get]. *)
Definition message_of (msg : Json.json) : option Json.json :=
  match msg with
  | Json.JDict d => Some (Json.dict_get_default "message" (Json.JDict []) d)
  | _ => None
  end.

(** The loop of [get_diff_between_checkpoints] that fills [content1]; the
    one that fills [content2] is the same text. *)
Fixpoint project_messages (messages : list Json.json) (content : list string)
  : outcome (list string) :=
  match messages with
  | [] => Ret content
  | msg :: rest =>
      match message_of msg with
      | Some (Json.JDict message) =>
          let role := Json.dict_get_default "role" (Json.JStr "") message in
          let text := Json.dict_get_default "content" (Json.JStr "") message in
          match text with
          | Json.JStr text => project_messages rest (content ++ [display_line role text])
          | _ => project_messages rest content
          end
      | _ => Raise AttributeError
      end
  end.


(** [build_tree] of [get_timeline]; [depth] nested calls of it are still
    allowed. *)
Fixpoint build_tree (depth : nat) (checkpoints : list Checkpoint) (cp : Checkpoint)
  : outcome TimelineNode :=
  match depth with
  | 0 => Raise RecursionError
  | S depth' =>
      let children :=
        filter (fun c => parent_checkpoint_id c = Some (checkpoint_id cp)) checkpoints in
      match map_outcome (build_tree depth' checkpoints) children with
      | Raise e => Raise e
      | Ret kids => Ret (Node cp kids)
      end
  end.

(** [[c.branch_name for c in checkpoints if c.branch_name]] *)
Definition branch_names (checkpoints : list Checkpoint) : list string :=
  omap (fun c =>
          match branch_name c with
          | Some b => if PyStr.falsy b then None else Some b
          | None => None
          end) checkpoints.

(** [get_timeline] *)
Definition get_timeline (session_id0 : string) : M Timeline :=
  do checkpoints <- get_checkpoints (Some session_id0) false;
  let root_checkpoints := filter (fun c => parent_checkpoint_id c = None) checkpoints in
  do forest <- lift (map_outcome (build_tree recursion_limit checkpoints) root_checkpoints);
  ret {| tl_session_id := session_id0;
         total_checkpoints := length checkpoints;
         branches := branch_names checkpoints;
         tree := forest |}.


(** ** Notions the statements below use *)

(** The index as the methods see it: the cached list, or else the list
    [index.json] is read as; [None] when there is neither, the file
    being missing or one that the reading raises on. *)
Definition index_view (m : Manager) : option (list Checkpoint) :=
  match _checkpoints m with
  | Some cps => Some cps
  | None =>
      match checkpoints_file m with
      | Some index =>
          match load_index (Some index) with
          | Ret cps => Some cps
          | Raise _ => None
          end
      | None => None
      end
  end.

(** The state after the index was read into the cache. *)
Definition loaded (cps : list Checkpoint) (m : Manager) : Manager :=
  set__checkpoints (Some cps) m.

(** The state after [_save_checkpoints(cps)] went through. *)
Definition saved (cps : list Checkpoint) (m : Manager) : Manager :=
  set__checkpoints (Some cps) (set_checkpoints_file (Some (Entries cps)) m).

(** What a line of a log holds: nothing when it is blank, and else what
    [json.loads] makes of it, if anything. *)
Definition parse_line (line : string) : option Json.json :=
  if PyStr.falsy (PyStr.strip line) then None else json_loads (PyStr.strip line).

(** The records of a log: what its lines parse to, in order; a line that
    does not parse gives none. *)
Definition parseable_records (lines : list string) : list Json.json :=
  omap parse_line lines.

(** A record whose [uuid] field is the given identifier. *)
Definition record_has_uuid (message_uuid0 : string) (v : Json.json) : bool :=
  match v with
  | Json.JDict d => has_uuid message_uuid0 d
  | _ => false
  end.

(** From the first element through the first one that satisfies [P],
    inclusive; everything when none does. *)
Fixpoint through_first {A : Type} (P : A -> bool) (l : list A) : list A :=
  match l with
  | [] => []
  | x :: l' => if P x then [x] else x :: through_first P l'
  end.

(** Every parent reference of the list names a checkpoint of the list. *)
Definition parents_resolve (cps : list Checkpoint) : Prop :=
  forall c p, c ∈ cps -> parent_checkpoint_id c = Some p ->
    exists c', c' ∈ cps /\ checkpoint_id c' = p.

(** What deletion of [id] leaves of a checkpoint that stays: a parent
    reference to [id] becomes [grandparent]. *)
Definition reparented (id : string) (grandparent : option string) (c : Checkpoint)
  : Checkpoint :=
  if decide (parent_checkpoint_id c = Some id) then set_parent grandparent c else c.

(** The display lines a record contributes to a diff: one line when the
    content of its message is a string, none otherwise. *)
Definition projected_lines (msg : Json.json) : list string :=
  match message_of msg with
  | Some (Json.JDict message) =>
      match Json.dict_get_default "content" (Json.JStr "") message with
      | Json.JStr text =>
          ["[" +:+ format_value (Json.dict_get_default "role" (Json.JStr "") message)
               +:+ "]: " +:+ PyStr.slice_to 200 text +:+ "..."]
      | _ => []
      end
  | _ => []
  end.


(** The last part of [create_checkpoint], from [# Add to index] on. *)
Definition add_to_index (checkpoint : Checkpoint) : M Checkpoint :=
  do checkpoints <- get_checkpoints None false;
  run modify (set__checkpoints (Some (checkpoints ++ [checkpoint])));
  run _save_checkpoints (checkpoints ++ [checkpoint]);
  ret checkpoint.

(** The part of [restore_checkpoint] under [# Backup current session]. *)
Definition backup_session (session_file : PyPath.Path) : M unit :=
  do live <- path_exists session_file;
  if live
  then match backup_path_of session_file with
       | None => raise ValueError
       | Some backup_path => copy2 session_file backup_path
       end
  else ret tt.

(** Every parent reference of the list names a checkpoint that stands
    earlier in it. *)
Definition parents_earlier (cps : list Checkpoint) : Prop :=
  forall i c p, cps !! i = Some c -> parent_checkpoint_id c = Some p ->
    exists j c', j < i /\ cps !! j = Some c' /\ checkpoint_id c' = p.

(** The checkpoints of [l] that the parent reference of [z] names. *)
Definition hosts (z : Checkpoint) (l : list Checkpoint) : list Checkpoint :=
  filter (fun c => parent_checkpoint_id z = Some (checkpoint_id c)) l.


(** How the nodes of trees change when [z] is hung under its hosts. *)
Definition grown (z : Checkpoint) (t t' : TimelineNode) : Prop :=
  nodes t' ≡ₚ nodes t ++ replicate (length (hosts z (nodes t))) z.


(** ** [SessionManager._parse_project_name] ([src/core/session_manager.py]) *)

Definition _parse_project_name (dir_name : string) : string :=
  if PyStr.startswith_char "-" dir_name
  then "/" +:+ PyStr.replace_char "-" "/" (PyStr.drop 1 dir_name)
  else if Nat.ltb 2 (String.length dir_name) && String.eqb (PyStr.slice 1 3 dir_name) "--"
  then PyStr.slice_to 1 dir_name +:+ ":/" +:+ PyStr.replace_char "-" "/" (PyStr.drop 3 dir_name)
  else PyStr.replace_char "-" "/" dir_name.

(** ** [TimelinePanel.refresh_timeline] ([src/ui/panels/timeline_panel.py]) *)

(** A [QTreeWidgetItem] of the timeline tree: [key] tells the item
    objects apart (the position of its checkpoint in the sorted list),
    [item_data] is the checkpoint stored under [Qt.UserRole]. *)
Inductive Item : Type :=
| MkItem (key : nat) (item_data : Checkpoint) (children : list Item).

Definition item_key (t : Item) : nat :=
  match t with MkItem k _ _ => k end.

(** [parent.addChild(item)], for the item object [parent] wherever it
    stands in the tree [t]. *)
Fixpoint addChild (parent : nat) (item : Item) (t : Item) : Item :=
  match t with
  | MkItem k cp kids =>
      MkItem k cp (map (addChild parent item) kids ++
                   if Nat.eqb k parent then [item] else [])
  end.

(** [sorted(checkpoints, key=lambda x: x.timestamp)]: a stable sort, here
    by insertion. *)
Fixpoint insert_by_timestamp (cp : Checkpoint) (l : list Checkpoint) : list Checkpoint :=
  match l with
  | [] => [cp]
  | x :: l' =>
      if Z.leb (timestamp cp) (timestamp x) then cp :: l
      else x :: insert_by_timestamp cp l'
  end.

Definition sorted_by_timestamp (l : list Checkpoint) : list Checkpoint :=
  foldr insert_by_timestamp [] l.

(** What the loop of [refresh_timeline] works on: the top-level items of
    [self.timeline_tree], the dictionary [checkpoint_items] (an item by
    its key) and the set [branches]. *)
Record TimelineWidget : Type := mkTimelineWidget {
  top_level : list Item;
  checkpoint_items : gmap string nat;
  branch_set : gset string
}.

(** One turn of the loop [for cp in sorted(...)]; [i] numbers the turn. *)
Definition refresh_step (w : TimelineWidget) (i : nat) (cp : Checkpoint) : TimelineWidget :=
  let item := MkItem i cp [] in
  let branches :=
    match branch_name cp with
    | Some b => if PyStr.falsy b then branch_set w else {[ b ]} ∪ branch_set w
    | None => branch_set w
    end in
  let top :=
    match parent_checkpoint_id cp with
    | Some p =>
        if PyStr.falsy p then top_level w ++ [item]
        else
          match checkpoint_items w !! p with
          | Some parent => map (addChild parent item) (top_level w)
          | None => top_level w ++ [item]
          end
    | None => top_level w ++ [item]
    end in
  {| top_level := top;
     checkpoint_items := <[checkpoint_id cp := i]> (checkpoint_items w);
     branch_set := branches |}.

Fixpoint refresh_loop (w : TimelineWidget) (i : nat) (cps : list Checkpoint)
  : TimelineWidget :=
  match cps with
  | [] => w
  | cp :: rest => refresh_loop (refresh_step w i cp) (S i) rest
  end.

(** [refresh_timeline]: what the tree and the branch list hold afterwards;
    [current_session] is the id of [self.current_session], if there is
    one. *)
Definition refresh_timeline (current_session : option string) : M TimelineWidget :=
  let cleared := {| top_level := []; checkpoint_items := ∅; branch_set := ∅ |} in
  match current_session with
  | None => ret cleared
  | Some sid =>
      do checkpoints <- get_checkpoints (Some sid) false;
      ret (refresh_loop cleared 0 (sorted_by_timestamp checkpoints))
  end.



(** ** Further notions for the statements *)

(** The part of the list [get_checkpoints] returns for its argument
    [session_id]: all of it for [None] and for the empty string. *)
Definition of_session (sid : option string) (all : list Checkpoint) : list Checkpoint :=
  match sid with
  | Some s => if PyStr.falsy s then all else filter (fun c => session_id c = s) all
  | None => all
  end.

(** The state [create_checkpoint] leaves of the files: the snapshot of the
    new checkpoint holds the records of the log through the message, when
    there is a log. *)
Definition with_snapshot (session_path : PyPath.Path) (message_uuid0 new_id : string)
    (m : Manager) : Manager :=
  match files m !! session_path with
  | Some lines =>
      set_files
        (<[snapshot_path (checkpoints_dir m) new_id :=
             json_dumps <$> through_first (record_has_uuid message_uuid0)
                              (parseable_records lines)]> (files m)) m
  | None => m
  end.

(** [self.checkpoints_file]: the path of [index.json]. *)
Definition index_path (m : Manager) : PyPath.Path :=
  PyPath.joinpath (checkpoints_dir m) "index.json".

(** A line of a log holds a record whose [uuid] field is the given
    identifier. *)
Definition line_has_uuid (message_uuid0 : string) (line : string) : bool :=
  match parse_line line with
  | Some v => record_has_uuid message_uuid0 v
  | None => false
  end.

(** The lines of a log that the reading loop of [create_checkpoint] gets
    to: from the first line through the first one that holds a record
    with the [uuid]; all of them when no line does. *)
Definition lines_read (message_uuid0 : string) (lines : list string) : list string :=
  through_first (line_has_uuid message_uuid0) lines.

(** What the loop parses on its way is a record: every line it gets to
    is blank, no JSON, or a JSON object. *)
Definition records_read (message_uuid0 : string) (lines : list string) : Prop :=
  forall line v, line ∈ lines_read message_uuid0 lines -> parse_line line = Some v ->
    Json.is_dict v = true.

(** The lines of a log are records, blank, or no JSON. *)
Definition lines_are_records (lines : list string) : Prop :=
  forall line v, line ∈ lines -> json_loads (PyStr.strip line) = Some v ->
    Json.is_dict v = true.

(** The files that are left when the directory tree at [d] is removed. *)
Definition without_tree (d : PyPath.Path) (fs : gmap PyPath.Path (list string))
  : gmap PyPath.Path (list string) :=
  filter (fun kv => PyPath.below d kv.1 = false) fs.

(** A record of a conversation: a JSON object whose [type] is [user] or
    [assistant]. *)
Definition is_chat_record (v : Json.json) : bool :=
  match v with
  | Json.JDict d => is_chat d
  | _ => false
  end.

(** The chat records among the records of a log. *)
Definition chat_records (lines : list string) : list Json.json :=
  filter (fun v => is_chat_record v = true) (parseable_records lines).



(** [descends cps n c a]: [n] parent references lead from [c] up to [a],
    each naming the next checkpoint on the way, all of them in [cps]. *)
Inductive descends (cps : list Checkpoint) : nat -> Checkpoint -> Checkpoint -> Prop :=
| descends_self (c : Checkpoint) : c ∈ cps -> descends cps 0 c c
| descends_child (n : nat) (c p a : Checkpoint) :
    c ∈ cps -> parent_checkpoint_id c = Some (checkpoint_id p) ->
    descends cps n p a -> descends cps (S n) c a.

(** [c] descends from a checkpoint of [cps] that has no parent. *)
Definition rooted (cps : list Checkpoint) (c : Checkpoint) : Prop :=
  exists n r, parent_checkpoint_id r = None /\ descends cps n c r.

(** The pairs of a node and one of its children, over a tree and over a
    forest. *)
Fixpoint edges (t : TimelineNode) : list (Checkpoint * Checkpoint) :=
  match t with
  | Node cp kids =>
      map (fun kid => (cp, match kid with Node c _ => c end)) kids
      ++ concat (map edges kids)
  end.

Definition forest_edges (ts : list TimelineNode) : list (Checkpoint * Checkpoint) :=
  concat (map edges ts).

(** The checkpoint at the root of a tree. *)
Definition root_of (t : TimelineNode) : Checkpoint :=
  match t with Node c _ => c end.





(** ** The library functions on small inputs *)

Example strip_line : PyStr.strip (String "009" " {} " +:+ String "010" "") = "{}".
Proof. reflexivity. Qed.

Example strip_blank : PyStr.falsy (PyStr.strip "   ") = true.
Proof. reflexivity. Qed.

Example strip_no_break_space :
  PyStr.strip (String (ascii_of_nat 160) "{}" +:+ String (ascii_of_nat 133) "") = "{}".
Proof. reflexivity. Qed.

Example slice_short : PyStr.slice_to 200 "hi" = "hi".
Proof. reflexivity. Qed.

Example slice_cut : PyStr.slice_to 3 "abcdef" = "abc".
Proof. reflexivity. Qed.

Example suffix_last : PyPath.suffix ["logs"; "archive.tar.gz"] = ".gz".
Proof. reflexivity. Qed.

Example suffix_hidden : PyPath.suffix ["home"; ".profile"] = "".
Proof. reflexivity. Qed.

Example suffix_trailing_dot : PyPath.suffix ["home"; "notes."] = "".
Proof. reflexivity. Qed.

Example backup_of_session :
  backup_path_of ["projects"; "demo"; "s1.jsonl"] = Some ["projects"; "demo"; "s1.jsonl.backup"].
Proof. reflexivity. Qed.

Example backup_without_suffix :
  backup_path_of ["projects"; "demo"; "session"] = Some ["projects"; "demo"; "session.jsonl.backup"].
Proof. reflexivity. Qed.

Example backup_of_nothing : backup_path_of [] = None.
Proof. reflexivity. Qed.

Example dict_set_keeps_place :
  Json.dict_set "sessionId" (Json.JStr "s2")
    [("uuid", Json.JStr "m1"); ("sessionId", Json.JStr "s1"); ("type", Json.JStr "user")]
  = [("uuid", Json.JStr "m1"); ("sessionId", Json.JStr "s2"); ("type", Json.JStr "user")].
Proof. reflexivity. Qed.

Example dict_set_appends :
  Json.dict_set "sessionId" (Json.JStr "s2") [("uuid", Json.JStr "m1")]
  = [("uuid", Json.JStr "m1"); ("sessionId", Json.JStr "s2")].
Proof. reflexivity. Qed.

(** ** Strings and paths *)

Lemma length_append (a b : string) :
  String.length (a +:+ b) = String.length a + String.length b.
Proof.
  induction a as [|x a IH]; [done|].
  change (S (String.length (a +:+ b)) = S (String.length a + String.length b)).
  by rewrite IH.
Qed.

Lemma slice_drop (i : nat) (s : string) : PyStr.slice_to i s +:+ PyStr.drop i s = s.
Proof.
  unfold PyStr.slice_to. revert s.
  induction i as [|i IH]; intros [|c s]; simpl; try done.
  change (String c (substring 0 i s +:+ PyStr.drop i s) = String c s). by rewrite IH.
Qed.

Lemma length_drop (i : nat) (s : string) :
  String.length (PyStr.drop i s) = String.length s - i.
Proof. revert s. induction i as [|i IH]; intros [|c s]; simpl; auto with lia. Qed.

Lemma rfind_dot_lt (s : string) (i : nat) :
  PyStr.rfind_dot s = Some i -> i < String.length s.
Proof.
  revert i. induction s as [|c s IH]; simpl; intros i; [done|].
  destruct (PyStr.rfind_dot s) as [j|].
  - intros [= <-]. specialize (IH j eq_refl). lia.
  - destruct (Ascii.eqb c "."); [|done]. intros [= <-]. lia.
Qed.

(** No dot follows the one [rfind] reports. *)
Lemma rfind_dot_drop (s : string) (i : nat) :
  PyStr.rfind_dot s = Some i -> PyStr.rfind_dot (PyStr.drop i s) = Some 0.
Proof.
  revert i. induction s as [|c s IH]; simpl; intros i; [done|].
  destruct (PyStr.rfind_dot s) as [j|] eqn:E.
  - intros [= <-]. simpl. auto.
  - destruct (Ascii.eqb c ".") eqn:Ec; [|done]. intros [= <-]. simpl. by rewrite E, Ec.
Qed.

Lemma falsy_empty (s : string) : PyStr.falsy s = true -> s = "".
Proof. by destruct s. Qed.

Lemma path_with_name (p : PyPath.Path) :
  PyStr.falsy (PyPath.name p) = false -> p = removelast p ++ [PyPath.name p].
Proof. intros H. apply app_removelast_last. by intros ->. Qed.

(** The backup of a session file is never the session file itself. *)
Lemma backup_path_differs (p b : PyPath.Path) : backup_path_of p = Some b -> b <> p.
Proof.
  unfold backup_path_of, PyPath.with_suffix, PyPath.suffix.
  pose proof (path_with_name p) as Hp.
  remember (PyPath.name p) as n eqn:En. remember (removelast p) as r eqn:Er.
  destruct (PyStr.falsy n) eqn:Hn; [done|]. specialize (Hp eq_refl).
  intros [= <-] Heq. rewrite Hp in Heq.
  apply app_inv_head in Heq. injection Heq as Heq.
  assert (Hlen : forall x, x +:+ ".jsonl.backup" <> x).
  { intros x Hx. apply (f_equal String.length) in Hx.
    rewrite length_append in Hx. simpl in Hx. lia. }
  destruct (PyStr.rfind_dot n) as [i|] eqn:Hi; [|by apply Hlen in Heq].
  destruct (Nat.ltb 0 i && Nat.ltb i (String.length n - 1)); [|by apply Hlen in Heq].
  pose proof (rfind_dot_lt _ _ Hi) as Hlt.
  pose proof (rfind_dot_drop _ _ Hi) as Hd.
  destruct (PyStr.falsy (PyStr.drop i n)) eqn:Hf.
  { destruct (PyStr.drop i n); done. }
  rewrite length_drop in Heq.
  replace (String.length n - (String.length n - i)) with i in Heq by lia.
  rewrite <- (slice_drop i n) in Heq at 2.
  apply String.app_inj in Heq. rewrite <- Heq in Hd. done.
Qed.

(** ** The index *)

Lemma set_files_id (m : Manager) : set_files (files m) m = m.
Proof. by destruct m. Qed.

Lemma loaded_id (m : Manager) (cps : list Checkpoint) :
  _checkpoints m = Some cps -> loaded cps m = m.
Proof. destruct m; simpl. by intros ->. Qed.

(** Tactic: unfold one layer of the monad. *)
Ltac unmonad :=
  unfold bind, ret, raise, lift, gets, modify, path_exists, read_lines, open_w,
    write_line in *; simpl in *.

(** Without [index.json], [_save_checkpoints] never reaches its [open]:
    it enters [_ensure_dir_exists], which calls it again, until the
    interpreter gives up. *)
Lemma _save_checkpoints_at_no_index (depth : nat) (cps : list Checkpoint) (m : Manager) :
  checkpoints_file m = None ->
  _save_checkpoints_at depth cps m = (Raise RecursionError, m).
Proof.
  intros H. revert cps. induction depth as [|depth IH]; intros cps; simpl.
  - unfold _ensure_dir_exists_calling. unmonad. by rewrite H.
  - unfold _ensure_dir_exists_calling. unmonad. rewrite H. by rewrite IH.
Qed.

Lemma _ensure_dir_exists_at_no_index (depth : nat) (m : Manager) :
  checkpoints_file m = None ->
  _ensure_dir_exists_at depth m = (Raise RecursionError, m).
Proof.
  intros H. unfold _ensure_dir_exists_at, _ensure_dir_exists_calling. unmonad.
  rewrite H. destruct depth; [done|]. by apply _save_checkpoints_at_no_index.
Qed.

Lemma _ensure_dir_exists_at_index (depth : nat) (m : Manager) (i : IndexFile) :
  checkpoints_file m = Some i -> _ensure_dir_exists_at depth m = (Ret tt, m).
Proof.
  intros H. unfold _ensure_dir_exists_at, _ensure_dir_exists_calling. unmonad.
  by rewrite H.
Qed.

Lemma _save_checkpoints_at_index (depth : nat) (cps : list Checkpoint) (m : Manager)
    (i : IndexFile) :
  checkpoints_file m = Some i ->
  _save_checkpoints_at depth cps m = (Ret tt, saved cps m).
Proof.
  intros H. destruct depth; simpl; unfold _ensure_dir_exists_calling; unmonad;
    by rewrite H.
Qed.


(** [get_checkpoints()] on a store whose index can be seen. *)
Lemma get_checkpoints_view (m : Manager) (cps : list Checkpoint) :
  index_view m = Some cps ->
  get_checkpoints None false m = (Ret cps, loaded cps m).
Proof.
  unfold index_view, get_checkpoints. intros H. unmonad.
  destruct (_checkpoints m) as [c|] eqn:Hc; simpl.
  - injection H as ->. rewrite Hc. simpl. by rewrite (loaded_id _ _ Hc).
  - destruct (checkpoints_file m) as [i|] eqn:Hi; [|done].
    destruct (load_index (Some i)) as [l|e] eqn:Hload; [|done]. injection H as <-.
    unfold _ensure_dir_exists. rewrite (_ensure_dir_exists_at_index _ _ _ Hi).
    by rewrite Hi, Hload.
Qed.

(** [get_checkpoints] on a store that has no [index.json] and nothing
    cached. *)
Lemma get_checkpoints_no_index (sid : option string) (force : bool) (m : Manager) :
  _checkpoints m = None -> checkpoints_file m = None ->
  get_checkpoints sid force m = (Raise RecursionError, m).
Proof.
  unfold get_checkpoints. intros Hc Hi. unmonad. rewrite Hc. simpl.
  unfold _ensure_dir_exists. by rewrite (_ensure_dir_exists_at_no_index _ _ Hi).
Qed.

(** [get_checkpoints] on a store whose index cannot be seen raises and
    leaves the store as it was: [RecursionError] without [index.json],
    and with one the exception of the list comprehension. *)
Lemma get_checkpoints_unseen (sid : option string) (m : Manager) :
  index_view m = None ->
  exists e, get_checkpoints sid false m = (Raise e, m).
Proof.
  unfold index_view. intros H.
  destruct (_checkpoints m) as [c|] eqn:Hc; [done|].
  destruct (checkpoints_file m) as [i|] eqn:Hi.
  - destruct (load_index (Some i)) as [l|e] eqn:Hload; [done|]. exists e.
    unfold get_checkpoints. unmonad. rewrite Hc. simpl.
    unfold _ensure_dir_exists. rewrite (_ensure_dir_exists_at_index _ _ _ Hi).
    by rewrite Hi, Hload.
  - exists RecursionError. by apply get_checkpoints_no_index.
Qed.

Lemma get_checkpoint_view (id : string) (m : Manager) (cps : list Checkpoint) :
  index_view m = Some cps ->
  get_checkpoint id m = (Ret (snd <$> find_checkpoint id cps), loaded cps m).
Proof.
  intros H. unfold get_checkpoint. unmonad. by rewrite (get_checkpoints_view _ _ H).
Qed.

Lemma get_checkpoint_no_index (id : string) (m : Manager) :
  _checkpoints m = None -> checkpoints_file m = None ->
  get_checkpoint id m = (Raise RecursionError, m).
Proof.
  intros Hc Hi. unfold get_checkpoint. unmonad.
  by rewrite (get_checkpoints_no_index _ _ _ Hc Hi).
Qed.

Lemma get_checkpoint_unseen (id : string) (m : Manager) :
  index_view m = None -> exists e, get_checkpoint id m = (Raise e, m).
Proof.
  intros H. destruct (get_checkpoints_unseen None m H) as [e He]. exists e.
  unfold get_checkpoint. unmonad. by rewrite He.
Qed.

(** ** Restore *)

Lemma exists_true (fs : gmap PyPath.Path (list string)) (p : PyPath.Path) (ls : list string) :
  fs !! p = Some ls -> bool_decide (is_Some (fs !! p)) = true.
Proof. intros H. apply bool_decide_eq_true_2. by rewrite H. Qed.

Lemma exists_false (fs : gmap PyPath.Path (list string)) (p : PyPath.Path) :
  fs !! p = None -> bool_decide (is_Some (fs !! p)) = false.
Proof. intros H. apply bool_decide_eq_false_2. rewrite H. by intros [? ?]. Qed.

(** The backup step: it copies an existing session file to its backup path
    and touches nothing else. *)
Lemma backup_session_present (p b : PyPath.Path) (live : list string) (m : Manager) :
  files m !! p = Some live -> backup_path_of p = Some b ->
  backup_session p m = (Ret tt, set_files (<[b := live]> (files m)) m).
Proof.
  intros Hp Hb. unfold backup_session. unmonad. rewrite (exists_true _ _ _ Hp), Hb.
  unfold copy2. destruct (decide (p = b)) as [->|_].
  - by apply backup_path_differs in Hb.
  - unmonad. by rewrite Hp.
Qed.

Lemma backup_session_absent (p : PyPath.Path) (m : Manager) :
  files m !! p = None -> backup_session p m = (Ret tt, m).
Proof. intros Hp. unfold backup_session. unmonad. by rewrite (exists_false _ _ Hp). Qed.

(** Restore when the checkpoint is not in the index, or has no snapshot:
    failure, and no file is written. *)
Lemma restore_checkpoint_missing (id : string) (session_path : PyPath.Path) (m : Manager)
    (cps : list Checkpoint) :
  index_view m = Some cps ->
  find_checkpoint id cps = None \/ files m !! snapshot_path (checkpoints_dir m) id = None ->
  restore_checkpoint id session_path m = (Ret false, loaded cps m).
Proof.
  intros Hv H. unfold restore_checkpoint. unmonad. rewrite (get_checkpoint_view _ _ _ Hv).
  destruct (find_checkpoint id cps) as [[k cp]|] eqn:Hf; simpl; [|done].
  destruct H as [?|Hs]; [done|]. by rewrite (exists_false _ _ Hs).
Qed.

Lemma copy2_ret (src dst : PyPath.Path) (m m' : Manager) :
  copy2 src dst m = (Ret tt, m') ->
  src <> dst /\
  exists ls, files m !! src = Some ls /\ m' = set_files (<[dst := ls]> (files m)) m.
Proof.
  unfold copy2. case_decide; [done|]. unmonad.
  destruct (files m !! src) as [ls|]; [|done]. intros [= <-]. eauto.
Qed.

(** [restore_checkpoint] past its two guards. *)
Lemma restore_checkpoint_found (id : string) (session_path : PyPath.Path) (m : Manager)
    (cps : list Checkpoint) (k : nat) (cp : Checkpoint) (snap : list string) :
  index_view m = Some cps ->
  find_checkpoint id cps = Some (k, cp) ->
  files m !! snapshot_path (checkpoints_dir m) id = Some snap ->
  restore_checkpoint id session_path m =
    match backup_session session_path (loaded cps m) with
    | (Ret _, m1) =>
        match copy2 (snapshot_path (checkpoints_dir m) id) session_path m1 with
        | (Ret _, m2) => (Ret true, m2)
        | (Raise e, m2) => (Raise e, m2)
        end
    | (Raise e, m1) => (Raise e, m1)
    end.
Proof.
  intros Hv Hf Hs.
  unfold restore_checkpoint. unfold bind at 1. rewrite (get_checkpoint_view _ _ _ Hv), Hf.
  simpl. unfold bind at 1. unfold gets at 1. unfold bind at 1. unfold path_exists at 1.
  unfold gets at 1. simpl. rewrite (exists_true _ _ _ Hs). simpl.
  unfold backup_session, bind, path_exists, gets, ret, raise. simpl.
  destruct (bool_decide (is_Some (files m !! session_path))).
  - destruct (backup_path_of session_path) as [b|]; [|done].
    destruct (copy2 session_path b _) as [[[]|e] m1]; [|done].
    by destruct (copy2 _ _ m1) as [[[]|e] m2].
  - by destruct (copy2 _ _ _) as [[[]|e] m2].
Qed.

(** Restore of a checkpoint that has a snapshot, over an existing session
    file: the backup is taken first, into a state where the session file
    still has its content, and only then is the session file written; at
    the end the backup holds the content the session file had. *)
Lemma restore_checkpoint_backs_up (id : string) (session_path : PyPath.Path) (m : Manager)
    (cps : list Checkpoint) (k : nat) (cp : Checkpoint) (snap live : list string)
    (backup_path : PyPath.Path) :
  index_view m = Some cps ->
  find_checkpoint id cps = Some (k, cp) ->
  files m !! snapshot_path (checkpoints_dir m) id = Some snap ->
  files m !! session_path = Some live ->
  backup_path_of session_path = Some backup_path ->
  let m1 := set_files (<[backup_path := live]> (files m)) (loaded cps m) in
  backup_session session_path (loaded cps m) = (Ret tt, m1) /\
  files m1 !! session_path = Some live /\
  files m1 !! backup_path = Some live /\
  restore_checkpoint id session_path m =
    (let (o, m2) := copy2 (snapshot_path (checkpoints_dir m) id) session_path m1 in
     (match o with Ret _ => Ret true | Raise e => Raise e end, m2)) /\
  files (snd (restore_checkpoint id session_path m)) !! backup_path = Some live.
Proof.
  intros Hv Hf Hs Hl Hb m1.
  pose proof (backup_path_differs _ _ Hb) as Hne.
  assert (Hbk : backup_session session_path (loaded cps m) = (Ret tt, m1)).
  { exact (backup_session_present session_path backup_path live (loaded cps m) Hl Hb). }
  assert (H1 : files m1 !! session_path = Some live).
  { subst m1. simpl. by rewrite lookup_insert_ne. }
  assert (H2 : files m1 !! backup_path = Some live).
  { subst m1. simpl. by rewrite lookup_insert_eq. }
  assert (Hr : restore_checkpoint id session_path m =
    (let (o, m2) := copy2 (snapshot_path (checkpoints_dir m) id) session_path m1 in
     (match o with Ret _ => Ret true | Raise e => Raise e end, m2))).
  { rewrite (restore_checkpoint_found _ _ _ _ _ _ _ Hv Hf Hs), Hbk.
    by destruct (copy2 _ _ m1) as [[[]|e] m2]. }
  split; [done|]. split; [done|]. split; [done|]. split; [done|].
  rewrite Hr. unfold copy2. case_decide; [done|].
  unmonad.
  destruct (<[backup_path:=live]> (files m) !! snapshot_path (checkpoints_dir m) id);
    simpl; [|done].
  rewrite lookup_insert_ne by congruence. by rewrite lookup_insert_eq.
Qed.

(** What a successful restore tells: the index was visible, the session
    file now exists, and whatever it held before is in the backup. *)
Lemma restore_checkpoint_true (id : string) (session_path : PyPath.Path) (m m' : Manager) :
  restore_checkpoint id session_path m = (Ret true, m') ->
  exists cps,
    index_view m = Some cps /\
    index_view m' = Some cps /\
    checkpoints_dir m' = checkpoints_dir m /\
    is_Some (files m' !! session_path) /\
    forall live, files m !! session_path = Some live ->
      exists backup_path,
        backup_path_of session_path = Some backup_path /\
        files m' !! backup_path = Some live.
Proof.
  intros Hr. destruct (index_view m) as [cps|] eqn:Hv.
  2: { destruct (get_checkpoint_unseen id m Hv) as [e He].
       unfold restore_checkpoint in Hr. unfold bind in Hr at 1. by rewrite He in Hr. }
  exists cps. split; [done|].
  destruct (find_checkpoint id cps) as [[k cp]|] eqn:Hf.
  2: { rewrite (restore_checkpoint_missing _ _ _ _ Hv) in Hr; [done|auto]. }
  destruct (files m !! snapshot_path (checkpoints_dir m) id) as [snap|] eqn:Hs.
  2: { rewrite (restore_checkpoint_missing _ _ _ _ Hv) in Hr; [done|auto]. }
  rewrite (restore_checkpoint_found _ _ _ _ _ _ _ Hv Hf Hs) in Hr.
  destruct (files m !! session_path) as [live|] eqn:Hl.
  - destruct (backup_path_of session_path) as [b|] eqn:Hb.
    + rewrite (backup_session_present session_path b live (loaded cps m) Hl Hb) in Hr.
      destruct (copy2 _ _ _) as [[[]|e] m2] eqn:Hc; [|done]. injection Hr as ->.
      apply copy2_ret in Hc as (Hne & ls & Hls & ->). simpl in *.
      repeat split; try done.
      * rewrite lookup_insert_eq. eauto.
      * intros ? [= <-]. exists b. split; [done|].
        pose proof (backup_path_differs _ _ Hb).
        rewrite lookup_insert_ne by congruence. by rewrite lookup_insert_eq.
    + unfold backup_session in Hr. unmonad. by rewrite (exists_true _ _ _ Hl), Hb in Hr.
  - rewrite (backup_session_absent session_path (loaded cps m) Hl) in Hr.
    destruct (copy2 _ _ _) as [[[]|e] m2] eqn:Hc; [|done]. injection Hr as ->.
    apply copy2_ret in Hc as (Hne & ls & Hls & ->). simpl in *.
    repeat split; try done. rewrite lookup_insert_eq. eauto.
Qed.

(** C10.  The backup path is a function of the session path alone
    ([with_suffix('.jsonl.backup')]), so of two successful restores over
    the same session file the second one replaces the backup the first one
    took: afterwards the backup holds what the session file held just
    before the second restore, and the content from before the first
    restore, which the backup held in between, is gone from it. *)
Theorem restore_twice_backup_is_latest (id1 id2 : string) (session_path : PyPath.Path)
    (m m1 m2 : Manager) :
  restore_checkpoint id1 session_path m = (Ret true, m1) ->
  restore_checkpoint id2 session_path m1 = (Ret true, m2) ->
  exists (backup_path : PyPath.Path) (live1 : list string),
    backup_path_of session_path = Some backup_path /\
    files m1 !! session_path = Some live1 /\
    files m2 !! backup_path = Some live1 /\
    forall live0, files m !! session_path = Some live0 ->
      files m1 !! backup_path = Some live0.
Proof.
  intros H1 H2.
  apply restore_checkpoint_true in H1 as (cps1 & _ & _ & _ & [live1 Hl1] & Hb1).
  apply restore_checkpoint_true in H2 as (cps2 & _ & _ & _ & _ & Hb2).
  destruct (Hb2 _ Hl1) as (b & Hb & Hlook).
  exists b, live1. repeat split; try done.
  intros live0 Hl0. destruct (Hb1 _ Hl0) as (b' & Hb' & Hlook').
  rewrite Hb in Hb'. by injection Hb' as <-.
Qed.

(** ** Create *)

Lemma set_files_set_files (f g : gmap PyPath.Path (list string)) (m : Manager) :
  set_files f (set_files g m) = set_files f m.
Proof. done. Qed.

(** The writing loop appends the serialised records, in order. *)
Lemma write_all_appends (p : PyPath.Path) (msgs : list Json.json) (m : Manager)
    (acc : list string) :
  files m !! p = Some acc ->
  write_all p msgs m =
    (Ret tt, set_files (<[p := acc ++ (json_dumps <$> msgs)]> (files m)) m).
Proof.
  revert m acc. induction msgs as [|msg msgs IH]; intros m acc Hp; simpl.
  - unmonad. by rewrite app_nil_r, insert_id, set_files_id.
  - unfold bind, write_line, modify. rewrite Hp. simpl.
    rewrite (IH _ (acc ++ [json_dumps msg])); simpl.
    + by rewrite insert_insert_eq, <- app_assoc.
    + by rewrite lookup_insert_eq.
Qed.

Lemma write_snapshot (p : PyPath.Path) (msgs : list Json.json) (m : Manager) :
  (run open_w p; write_all p msgs) m =
    (Ret tt, set_files (<[p := json_dumps <$> msgs]> (files m)) m).
Proof.
  unfold bind, open_w, modify.
  rewrite (write_all_appends p msgs _ []); simpl.
  - by rewrite insert_insert_eq.
  - by rewrite lookup_insert_eq.
Qed.

(** [create_checkpoint] in two parts: the snapshot, then the index. *)
Lemma create_checkpoint_phases (sid : string) (session_path : PyPath.Path)
    (uuid name0 description0 : string) (parent branch : option string)
    (new_id : string) (now : Z) (m : Manager) :
  let checkpoint := mkCheckpoint new_id sid name0 description0 now uuid parent branch in
  create_checkpoint sid session_path uuid name0 description0 parent branch new_id now m =
    match files m !! session_path with
    | None => add_to_index checkpoint m
    | Some lines =>
        match read_up_to uuid lines [] with
        | Raise e => (Raise e, m)
        | Ret msgs =>
            add_to_index checkpoint
              (set_files (<[snapshot_path (checkpoints_dir m) new_id := json_dumps <$> msgs]>
                            (files m)) m)
        end
    end.
Proof.
  intros checkpoint.
  destruct (files m !! session_path) as [lines|] eqn:Hl;
    unfold create_checkpoint;
    unfold bind at 1; unfold gets at 1; unfold bind at 1; unfold path_exists at 1;
    unfold gets at 1; simpl.
  - rewrite (exists_true _ _ _ Hl). unfold bind at 1. unfold bind at 1.
    unfold read_lines at 1. rewrite Hl. unfold bind at 1. unfold lift at 1.
    destruct (read_up_to uuid lines []) as [msgs|e]; [|done].
    by rewrite write_snapshot.
  - rewrite (exists_false _ _ Hl). by unfold bind at 1.
Qed.

(** Adding to a visible index: the list is extended in place, then saved. *)
Lemma add_to_index_view (cp : Checkpoint) (m : Manager) (cps : list Checkpoint) :
  index_view m = Some cps ->
  add_to_index cp m =
    (let (o, m2) := _save_checkpoints_at recursion_limit (cps ++ [cp])
                      (set__checkpoints (Some (cps ++ [cp])) (loaded cps m)) in
     (match o with Ret _ => Ret cp | Raise e => Raise e end, m2)).
Proof.
  intros Hv. unfold add_to_index. unfold bind at 1.
  rewrite (get_checkpoints_view _ _ Hv). unfold bind at 1. unfold modify at 1.
  unfold bind at 1. unfold _save_checkpoints.
  by destruct (_save_checkpoints_at _ _ _) as [[[]|e] m2].
Qed.

(** Adding to a visible index whose file exists: the checkpoint goes last,
    in the cache and in [index.json]. *)
Lemma add_to_index_ok (cp : Checkpoint) (m : Manager) (cps : list Checkpoint)
    (i : IndexFile) :
  index_view m = Some cps -> checkpoints_file m = Some i ->
  add_to_index cp m = (Ret cp, saved (cps ++ [cp]) m).
Proof.
  intros Hv Hi. rewrite (add_to_index_view _ _ _ Hv).
  by erewrite _save_checkpoints_at_index.
Qed.

(** Adding when there is no [index.json] and nothing cached: the call of
    [get_checkpoints] already fails. *)
Lemma add_to_index_no_index (cp : Checkpoint) (m : Manager) :
  _checkpoints m = None -> checkpoints_file m = None ->
  add_to_index cp m = (Raise RecursionError, m).
Proof.
  intros Hc Hi. unfold add_to_index. unfold bind at 1.
  by rewrite (get_checkpoints_no_index _ _ _ Hc Hi).
Qed.

(** Adding when the index cannot be seen: the call of [get_checkpoints]
    raises, and nothing is changed. *)
Lemma add_to_index_unseen (cp : Checkpoint) (m : Manager) :
  index_view m = None -> exists e, add_to_index cp m = (Raise e, m).
Proof.
  intros Hv. destruct (get_checkpoints_unseen None m Hv) as [e He]. exists e.
  unfold add_to_index. unfold bind at 1. by rewrite He.
Qed.


(** The records [read_up_to] collects, on a log whose lines are records or
    do not parse. *)
Lemma read_up_to_records (uuid : string) (lines : list string) (acc : list Json.json) :
  (forall line v, line ∈ lines -> json_loads (PyStr.strip line) = Some v ->
     Json.is_dict v = true) ->
  read_up_to uuid lines acc =
    Ret (acc ++ through_first (record_has_uuid uuid) (parseable_records lines)).
Proof.
  revert acc. induction lines as [|line lines IH]; intros acc Hrec; simpl.
  - by rewrite app_nil_r.
  - assert (Hrec' : forall l v, l ∈ lines -> json_loads (PyStr.strip l) = Some v ->
                      Json.is_dict v = true).
    { intros l v Hin. apply Hrec. by right. }
    unfold parseable_records. cbn [omap list_omap]. fold (parseable_records lines).
    unfold parse_line at 1.
    destruct (PyStr.falsy (PyStr.strip line)) eqn:Hf; [by apply IH|].
    destruct (json_loads (PyStr.strip line)) as [data|] eqn:Hp; [|by apply IH].
    specialize (Hrec line data (list_elem_of_here _ _) Hp).
    destruct data as [| | | | |d]; try done. simpl.
    destruct (has_uuid uuid d); [done|].
    rewrite IH by done. by rewrite <- app_assoc.
Qed.


Lemma parseable_records_cons (line : string) (lines : list string) :
  parseable_records (line :: lines) =
    match parse_line line with
    | Some v => v :: parseable_records lines
    | None => parseable_records lines
    end.
Proof. unfold parseable_records. cbn [omap list_omap]. by destruct (parse_line line). Qed.

(** The reading loop by what a line holds. *)
Lemma read_up_to_cons (uuid : string) (line : string) (lines : list string)
    (acc : list Json.json) :
  read_up_to uuid (line :: lines) acc =
    match parse_line line with
    | None => read_up_to uuid lines acc
    | Some (Json.JDict d) =>
        if has_uuid uuid d then Ret (acc ++ [Json.JDict d])
        else read_up_to uuid lines (acc ++ [Json.JDict d])
    | Some _ => Raise AttributeError
    end.
Proof.
  unfold parse_line. simpl. destruct (PyStr.falsy (PyStr.strip line)); [done|].
  by destruct (json_loads (PyStr.strip line)) as [[| | | | |d]|].
Qed.

(** The records [read_up_to] collects when what it parses on its way is
    a record. *)
Lemma read_up_to_read (uuid : string) (lines : list string) (acc : list Json.json) :
  records_read uuid lines ->
  read_up_to uuid lines acc =
    Ret (acc ++ through_first (record_has_uuid uuid) (parseable_records lines)).
Proof.
  revert acc. induction lines as [|line lines IH]; intros acc Hrec.
  - simpl. by rewrite app_nil_r.
  - rewrite read_up_to_cons, parseable_records_cons.
    assert (Hhere : forall v, parse_line line = Some v -> Json.is_dict v = true).
    { intros v Hv. apply (Hrec line v); [|done]. unfold lines_read. simpl.
      destruct (line_has_uuid uuid line); left. }
    assert (Hrest : line_has_uuid uuid line = false -> records_read uuid lines).
    { intros Hu l v Hl. apply Hrec. unfold lines_read in *. simpl. rewrite Hu. by right. }
    unfold line_has_uuid in Hrest.
    destruct (parse_line line) as [v|]; [|by apply IH, Hrest].
    specialize (Hhere v eq_refl). destruct v as [| | | | |d]; try done.
    simpl in *. destruct (has_uuid uuid d); [done|].
    rewrite IH by (by apply Hrest). by rewrite <- app_assoc.
Qed.

(** When [read_up_to] returns, what it parsed on its way was a record,
    and it returns the records from the first through the first with the
    [uuid]. *)
Lemma read_up_to_ret (uuid : string) (lines : list string) (acc msgs : list Json.json) :
  read_up_to uuid lines acc = Ret msgs ->
  records_read uuid lines /\
  msgs = acc ++ through_first (record_has_uuid uuid) (parseable_records lines).
Proof.
  revert acc. induction lines as [|line lines IH]; intros acc.
  - simpl. intros [= <-]. split; [by intros l v ?%elem_of_nil|by rewrite app_nil_r].
  - rewrite read_up_to_cons, parseable_records_cons.
    unfold records_read, lines_read. simpl. unfold line_has_uuid.
    destruct (parse_line line) as [v|] eqn:Hp.
    + destruct v as [| | | | |d]; try done. simpl. destruct (has_uuid uuid d).
      * intros [= <-]. split; [|done].
        intros l v ->%list_elem_of_singleton Hv. rewrite Hp in Hv. by injection Hv as <-.
      * intros H. apply IH in H as [Hrec ->]. split; [|by rewrite <- app_assoc].
        intros l v [->|Hl]%elem_of_cons Hv; [|by eapply Hrec].
        rewrite Hp in Hv. by injection Hv as <-.
    + intros H. apply IH in H as [Hrec ->]. split; [|done].
      intros l v [->|Hl]%elem_of_cons Hv; [congruence|by eapply Hrec].
Qed.



(** ** Fork *)





(** ** Delete *)

Lemma set_parent_same (c : Checkpoint) : set_parent (parent_checkpoint_id c) c = c.
Proof. by destruct c. Qed.

Lemma reparented_id (id : string) (g : option string) (c : Checkpoint) :
  checkpoint_id (reparented id g c) = checkpoint_id c.
Proof. unfold reparented. by case_decide. Qed.

(** One turn of the loop, while the deleted checkpoint still carries the
    parent [g] it had when the loop began. *)
Lemma reparent_step_alter (id : string) (g : option string) (k : nat)
    (l : list Checkpoint) (i : nat) (ck : Checkpoint) :
  l !! k = Some ck -> parent_checkpoint_id ck = g ->
  reparent_step id k l i = alter (reparented id g) i l.
Proof.
  intros Hk Hg. unfold reparent_step. rewrite Hk.
  destruct (l !! i) as [c|] eqn:Hi.
  - unfold reparented. apply list_eq. intros j.
    destruct (decide (i = j)) as [<-|Hne].
    + rewrite list_lookup_alter_eq, Hi. simpl. case_decide.
      * rewrite list_lookup_insert_eq by (by eapply lookup_lt_Some). by rewrite Hg.
      * done.
    + rewrite list_lookup_alter_ne by done. case_decide; [|done].
      by rewrite list_lookup_insert_ne.
  - apply list_eq. intros j. destruct (decide (i = j)) as [<-|Hne].
    + by rewrite list_lookup_alter_eq, Hi.
    + by rewrite list_lookup_alter_ne.
Qed.

(** The deleted checkpoint is an element of the list the loop writes
    into, yet its parent field never changes under the loop: the only
    turn that could assign to it assigns its own value. *)
Lemma reparent_loop_alter (id : string) (g : option string) (k : nat) (idxs : list nat)
    (l : list Checkpoint) (ck : Checkpoint) :
  l !! k = Some ck -> parent_checkpoint_id ck = g ->
  foldl (reparent_step id k) l idxs =
    foldl (fun l i => alter (reparented id g) i l) l idxs.
Proof.
  revert l ck. induction idxs as [|i idxs IH]; intros l ck Hk Hg; simpl; [done|].
  rewrite (reparent_step_alter id g k l i ck Hk Hg).
  destruct (decide (i = k)) as [->|Hne].
  - apply (IH _ (reparented id g ck)).
    + by rewrite list_lookup_alter_eq, Hk.
    + unfold reparented. by case_decide.
  - apply (IH _ ck); [|done]. by rewrite list_lookup_alter_ne.
Qed.

Lemma alter_all_lookup {A : Type} (f : A -> A) (n a : nat) (l : list A) (j : nat) :
  foldl (fun l i => alter f i l) l (seq a n) !! j =
    if decide (a <= j < a + n) then f <$> l !! j else l !! j.
Proof.
  revert a l. induction n as [|n IH]; intros a l; simpl.
  - case_decide; [lia|done].
  - rewrite IH. destruct (decide (a = j)) as [->|Hne].
    + rewrite list_lookup_alter_eq. repeat case_decide; try lia; done.
    + rewrite list_lookup_alter_ne by done. repeat case_decide; try lia; done.
Qed.

Lemma alter_all {A : Type} (f : A -> A) (l : list A) :
  foldl (fun l i => alter f i l) l (seq 0 (length l)) = f <$> l.
Proof.
  apply list_eq. intros j. rewrite alter_all_lookup, list_lookup_fmap.
  case_decide; [done|].
  rewrite (lookup_ge_None_2 l j) by lia. done.
Qed.

(** The loop of [delete_checkpoint] as a whole. *)
Lemma reparent_children_fmap (id : string) (k : nat) (cps : list Checkpoint)
    (deleted : Checkpoint) :
  cps !! k = Some deleted ->
  reparent_children id k cps = reparented id (parent_checkpoint_id deleted) <$> cps.
Proof.
  intros Hk. unfold reparent_children.
  rewrite (reparent_loop_alter id _ k _ cps deleted Hk eq_refl). apply alter_all.
Qed.

Lemma find_checkpoint_Some (id : string) (cps : list Checkpoint) (k : nat) (cp : Checkpoint) :
  find_checkpoint id cps = Some (k, cp) ->
  cps !! k = Some cp /\ checkpoint_id cp = id /\ cp ∈ cps.
Proof.
  unfold find_checkpoint. intros (H1 & H2 & _)%list_find_Some.
  repeat split; try done. by eapply list_elem_of_lookup_2.
Qed.

Lemma filter_reparented (id : string) (g : option string) (cps : list Checkpoint) :
  filter (fun c => checkpoint_id c <> id) (reparented id g <$> cps) =
  reparented id g <$> filter (fun c => checkpoint_id c <> id) cps.
Proof.
  induction cps as [|c cps IH]; [done|]. rewrite fmap_cons, !filter_cons.
  rewrite reparented_id. case_decide; [|done]. by rewrite fmap_cons, IH.
Qed.

(** What a successful deletion does to the index. *)
Lemma delete_checkpoint_true (id : string) (m m' : Manager) (cps : list Checkpoint) :
  index_view m = Some cps ->
  delete_checkpoint id m = (Ret true, m') ->
  exists k deleted,
    find_checkpoint id cps = Some (k, deleted) /\
    index_view m' =
      Some (reparented id (parent_checkpoint_id deleted) <$>
              filter (fun c => checkpoint_id c <> id) cps) /\
    checkpoints_file m' =
      Some (Entries (reparented id (parent_checkpoint_id deleted) <$>
                       filter (fun c => checkpoint_id c <> id) cps)).
Proof.
  intros Hv. unfold delete_checkpoint. unfold bind at 1.
  rewrite (get_checkpoints_view _ _ Hv).
  destruct (find_checkpoint id cps) as [[k deleted]|] eqn:Hf; [|done].
  destruct (find_checkpoint_Some _ _ _ _ Hf) as (Hk & _ & _).
  rewrite (reparent_children_fmap _ _ _ _ Hk), filter_reparented.
  unfold bind at 1. unfold gets at 1. unfold bind at 1. unfold rmtree at 1.
  unfold modify at 1. unfold bind at 1. unfold modify at 1. unfold bind at 1.
  unfold _save_checkpoints.
  match goal with |- context [_save_checkpoints_at ?d ?c ?s] =>
    destruct (checkpoints_file s) as [i|] eqn:Hi;
    [rewrite (_save_checkpoints_at_index d c s i Hi)
    |by rewrite (_save_checkpoints_at_no_index d c s Hi)] end.
  unfold ret. intros [= <-]. by exists k, deleted.
Qed.

(** C3, as amended.  On an index where every parent reference names an
    existing checkpoint, after [delete_checkpoint(id)] returned [True] for
    a checkpoint that is not its own parent: the index holds the other
    checkpoints, in their order, each one unchanged except that a parent
    reference to [id] now is the former parent of the deleted checkpoint
    (possibly [None]); no checkpoint with the id [id] is left; and every
    parent reference still names an existing checkpoint. *)
Theorem delete_checkpoint_reparents (id : string) (m m' : Manager) (cps : list Checkpoint)
    (k : nat) (deleted : Checkpoint) :
  index_view m = Some cps ->
  parents_resolve cps ->
  find_checkpoint id cps = Some (k, deleted) ->
  parent_checkpoint_id deleted <> Some id ->
  delete_checkpoint id m = (Ret true, m') ->
  exists cps',
    index_view m' = Some cps' /\
    cps' = reparented id (parent_checkpoint_id deleted) <$>
             filter (fun c => checkpoint_id c <> id) cps /\
    (forall c, c ∈ cps -> checkpoint_id c <> id -> parent_checkpoint_id c = Some id ->
       set_parent (parent_checkpoint_id deleted) c ∈ cps') /\
    (forall c, c ∈ cps' -> checkpoint_id c <> id) /\
    parents_resolve cps'.
Proof.
  intros Hv Hres Hf Hself Hdel.
  destruct (delete_checkpoint_true _ _ _ _ Hv Hdel) as (k' & deleted' & Hf' & Hv' & _).
  rewrite Hf in Hf'. injection Hf' as <- <-.
  destruct (find_checkpoint_Some _ _ _ _ Hf) as (_ & Hid & Hin).
  eexists. split; [exact Hv'|]. split; [done|]. split; [|split].
  - intros c Hc Hne Hp. apply list_elem_of_fmap.
    exists c. split.
    + unfold reparented. by rewrite decide_True.
    + by apply list_elem_of_filter.
  - intros c (c0 & -> & Hc0)%list_elem_of_fmap.
    apply list_elem_of_filter in Hc0 as [Hne _]. by rewrite reparented_id.
  - intros c p (c0 & -> & Hc0)%list_elem_of_fmap Hp.
    apply list_elem_of_filter in Hc0 as [Hne Hc0].
    assert (Hstay : forall q c1, c1 ∈ cps -> checkpoint_id c1 = q -> q <> id ->
              exists c', c' ∈ (reparented id (parent_checkpoint_id deleted) <$>
                                filter (fun c => checkpoint_id c <> id) cps)
                         /\ checkpoint_id c' = q).
    { intros q c1 Hc1 Hq Hqne. exists (reparented id (parent_checkpoint_id deleted) c1).
      split; [|by rewrite reparented_id].
      apply list_elem_of_fmap. exists c1. split; [done|].
      apply list_elem_of_filter. split; [congruence|done]. }
    unfold reparented in Hp. case_decide as Hc0p.
    + simpl in Hp. destruct (Hres deleted p Hin Hp) as (c1 & Hc1 & Hc1id).
      apply (Hstay p c1 Hc1 Hc1id). congruence.
    + destruct (Hres c0 p Hc0 Hp) as (c1 & Hc1 & Hc1id).
      apply (Hstay p c1 Hc1 Hc1id). congruence.
Qed.

(** ** Diff projection *)

Lemma project_messages_acc (messages : list Json.json) (content lines : list string) :
  project_messages messages content = Ret lines ->
  lines = content ++ concat (map projected_lines messages).
Proof.
  revert content. induction messages as [|msg messages IH]; intros content; simpl.
  - intros [= <-]. by rewrite app_nil_r.
  - unfold projected_lines.
    destruct (message_of msg) as [[| | | | |message]|]; try done.
    destruct (Json.dict_get_default "content" (Json.JStr "") message);
      intros H; apply IH in H; rewrite H; try done.
    unfold display_line. by rewrite <- app_assoc.
Qed.

(** C8, as amended.  The display lines [get_diff_between_checkpoints]
    compares are, in order, those its records contribute: a record whose
    message has a string content gives the one line made of ["["], the
    role, ["]: "], the first 200 characters of the content and the three
    characters ["..."], which are appended whether or not the content was
    cut; a record whose content is not a string gives no line. *)
Theorem project_messages_lines (messages : list Json.json) (lines : list string) :
  project_messages messages [] = Ret lines ->
  lines = concat (map projected_lines messages) /\
  (forall msg d message role text,
     msg ∈ messages -> msg = Json.JDict d ->
     Json.dict_get_default "message" (Json.JDict []) d = Json.JDict message ->
     Json.dict_get "role" message = Some (Json.JStr role) ->
     Json.dict_get "content" message = Some (Json.JStr text) ->
     projected_lines msg = ["[" +:+ role +:+ "]: " +:+ PyStr.slice_to 200 text +:+ "..."]) /\
  (forall msg d message v,
     msg ∈ messages -> msg = Json.JDict d ->
     Json.dict_get_default "message" (Json.JDict []) d = Json.JDict message ->
     Json.dict_get "content" message = Some v -> Json.is_str v = false ->
     projected_lines msg = []).
Proof.
  intros H. split; [exact (project_messages_acc _ _ _ H)|]. split.
  - intros msg d message role text _ -> Hm Hr Ht. unfold projected_lines. simpl.
    rewrite Hm. unfold Json.dict_get_default. by rewrite Hr, Ht.
  - intros msg d message v _ -> Hm Hv Hs. unfold projected_lines. simpl.
    rewrite Hm. unfold Json.dict_get_default. rewrite Hv. by destruct v.
Qed.

(** ** Timeline *)

Lemma elem_of_concat_map {A B : Type} (f : A -> list B) (l : list A) (x : B) :
  x ∈ concat (map f l) <-> exists y, y ∈ l /\ x ∈ f y.
Proof.
  induction l as [|a l IH]; simpl.
  - split; [by intros ?%elem_of_nil|by intros (? & ?%elem_of_nil & _)].
  - rewrite elem_of_app, IH. split.
    + intros [H|(y & Hy & H)]; [exists a|exists y]; split; try done; [left|by right].
    + intros (y & [->|Hy]%elem_of_cons & H); [by left|right; eauto].
Qed.

Lemma map_outcome_ret {A B : Type} (f : A -> outcome B) (l : list A) (ys : list B) :
  map_outcome f l = Ret ys -> Forall2 (fun x y => f x = Ret y) l ys.
Proof.
  revert ys. induction l as [|x l IH]; simpl; intros ys.
  - intros [= <-]. constructor.
  - destruct (f x) as [y|] eqn:Hx; [|done].
    destruct (map_outcome f l) as [ys'|]; [|done]. intros [= <-].
    constructor; auto.
Qed.

(** [get_checkpoints(session_id)] on a visible index: for a non-empty
    session id, the checkpoints of that session in index order. *)
Lemma get_checkpoints_session (sid : string) (m : Manager) (cps : list Checkpoint) :
  index_view m = Some cps ->
  get_checkpoints (Some sid) false m =
    (Ret (if PyStr.falsy sid then cps else filter (fun c => session_id c = sid) cps),
     loaded cps m).
Proof.
  unfold index_view, get_checkpoints. intros H. unmonad.
  destruct (_checkpoints m) as [c|] eqn:Hc; simpl.
  - injection H as ->. rewrite Hc. simpl. rewrite (loaded_id _ _ Hc).
    by destruct (PyStr.falsy sid).
  - destruct (checkpoints_file m) as [i|] eqn:Hi; [|done].
    destruct (load_index (Some i)) as [l|e] eqn:Hload; [|done]. injection H as <-.
    unfold _ensure_dir_exists. rewrite (_ensure_dir_exists_at_index _ _ _ Hi).
    rewrite Hi, Hload. simpl. by destruct (PyStr.falsy sid).
Qed.

(** What [get_timeline] returns, in terms of the list [get_checkpoints]
    gave it. *)
Lemma get_timeline_ret (sid : string) (m m' : Manager) (tl : Timeline) :
  get_timeline sid m = (Ret tl, m') ->
  exists cps,
    get_checkpoints (Some sid) false m = (Ret cps, m') /\
    total_checkpoints tl = length cps /\
    branches tl = branch_names cps /\
    map_outcome (build_tree recursion_limit cps)
      (filter (fun c => parent_checkpoint_id c = None) cps) = Ret (tree tl).
Proof.
  unfold get_timeline. unfold bind at 1.
  destruct (get_checkpoints (Some sid) false m) as [[cps|e] m1]; [|done].
  unfold bind, lift. destruct (map_outcome _ _) as [forest|e] eqn:Hforest; [|done].
  unfold ret. intros [= <- <-]. by exists cps.
Qed.

(** A name is in [branches] once for each checkpoint that carries it. *)
Lemma branch_names_elem (cps : list Checkpoint) (b : string) :
  b ∈ branch_names cps <->
  PyStr.falsy b = false /\ exists c, c ∈ cps /\ branch_name c = Some b.
Proof.
  unfold branch_names. rewrite list_elem_of_omap. split.
  - intros (c & Hc & H). destruct (branch_name c) as [b'|] eqn:Hb; [|done].
    destruct (PyStr.falsy b') eqn:Hf; [done|]. injection H as <-. eauto.
  - intros (Hf & c & Hc & Hb). exists c. split; [done|]. by rewrite Hb, Hf.
Qed.

Lemma branch_names_count (cps : list Checkpoint) (b : string) :
  PyStr.falsy b = false ->
  length (filter (fun x => x = b) (branch_names cps)) =
  length (filter (fun c => branch_name c = Some b) cps).
Proof.
  intros Hf. unfold branch_names.
  induction cps as [|c cps IH]; [done|]. rewrite (filter_cons _ c cps). cbn [omap list_omap].
  fold (@omap list _ _ _ (fun c : Checkpoint => match branch_name c with Some b => if PyStr.falsy b then None else Some b | None => None end) cps).
  destruct (branch_name c) as [b'|] eqn:Hb.
  - destruct (PyStr.falsy b') eqn:Hf'.
    + rewrite decide_False; [done|]. intros [= ->]. congruence.
    + rewrite filter_cons. destruct (decide (b' = b)) as [->|Hne].
      * rewrite decide_True by done. simpl. by rewrite IH.
      * rewrite decide_False by congruence. done.
  - by rewrite decide_False.
Qed.

(** Every node of a tree [build_tree] returns is the checkpoint it was
    called on or a checkpoint of the list whose parent reference names a
    checkpoint of the tree. *)
Lemma build_tree_nodes (depth : nat) (cps : list Checkpoint) (c : Checkpoint)
    (t : TimelineNode) :
  build_tree depth cps c = Ret t ->
  forall x, x ∈ nodes t ->
    x = c \/ (x ∈ cps /\ exists y, y ∈ nodes t /\
                parent_checkpoint_id x = Some (checkpoint_id y)).
Proof.
  revert c t. induction depth as [|depth IH]; intros c t; simpl; [done|].
  destruct (map_outcome _ _) as [kids|] eqn:Hk; [|done]. intros [= <-] x.
  apply map_outcome_ret in Hk. simpl. intros [->|Hx]%elem_of_cons; [by left|].
  right. apply elem_of_concat_map in Hx as (kid & Hkid & Hx).
  apply list_elem_of_lookup in Hkid as [i Hi].
  destruct (Forall2_lookup_r _ _ _ _ _ Hk Hi) as (child & Hchild & Hb).
  apply list_elem_of_lookup_2 in Hchild.
  apply list_elem_of_filter in Hchild as [Hp Hchild].
  assert (Hsub : forall z, z ∈ nodes kid -> z ∈ concat (map nodes kids)).
  { intros z Hz. apply elem_of_concat_map. exists kid. split; [|done].
    by eapply list_elem_of_lookup_2. }
  destruct (IH _ _ Hb x Hx) as [->|(Hin & y & Hy & Hpy)].
  - split; [done|]. exists c. split; [by left|done].
  - split; [done|]. exists y. split; [right; by apply Hsub|done].
Qed.

(** Hence the forest of [get_timeline] holds no checkpoint whose parent
    reference names no checkpoint of the session: not as a child, for no
    node has its parent's id, and not as a root, for its reference is not
    [None]. *)
Lemma get_timeline_skips_foreign_parent (sid : string) (m m' : Manager) (tl : Timeline)
    (cps : list Checkpoint) (x : Checkpoint) (p : string) :
  get_timeline sid m = (Ret tl, m') ->
  get_checkpoints (Some sid) false m = (Ret cps, m') ->
  parent_checkpoint_id x = Some p ->
  (forall y, y ∈ cps -> checkpoint_id y <> p) ->
  x ∉ forest_nodes (tree tl).
Proof.
  intros Htl Hcps Hp Hforeign Hx.
  apply get_timeline_ret in Htl as (cps' & Hcps' & _ & _ & Hforest).
  rewrite Hcps in Hcps'. injection Hcps' as <-.
  apply map_outcome_ret in Hforest.
  unfold forest_nodes in Hx. apply elem_of_concat_map in Hx as (t & Ht & Hx).
  apply list_elem_of_lookup in Ht as [i Hi].
  destruct (Forall2_lookup_r _ _ _ _ _ Hforest Hi) as (root & Hroot & Hb).
  apply list_elem_of_lookup_2 in Hroot.
  apply list_elem_of_filter in Hroot as [Hnone Hroot].
  assert (Hall : forall z, z ∈ nodes t -> z ∈ cps).
  { intros z Hz. destruct (build_tree_nodes _ _ _ _ Hb z Hz) as [->|[? _]]; done. }
  destruct (build_tree_nodes _ _ _ _ Hb x Hx) as [->|(_ & y & Hy & Hpy)].
  - congruence.
  - rewrite Hp in Hpy. injection Hpy as ->. by apply (Hforeign y (Hall y Hy)).
Qed.

Lemma map_outcome_app {A B : Type} (f : A -> outcome B) (l1 l2 : list A) (y1 y2 : list B) :
  map_outcome f l1 = Ret y1 -> map_outcome f l2 = Ret y2 ->
  map_outcome f (l1 ++ l2) = Ret (y1 ++ y2).
Proof.
  revert y1. induction l1 as [|x l1 IH]; simpl; intros y1.
  - by intros [= <-].
  - destruct (f x) as [y|]; [|done].
    destruct (map_outcome f l1) as [ys|]; [|done]. intros [= <-] H2.
    by rewrite (IH ys eq_refl H2).
Qed.

Lemma map_outcome_map {A B : Type} (f g : A -> outcome B) (h : B -> B) (l : list A)
    (ys : list B) :
  (forall x y, x ∈ l -> f x = Ret y -> g x = Ret (h y)) ->
  map_outcome f l = Ret ys -> map_outcome g l = Ret (map h ys).
Proof.
  revert ys. induction l as [|x l IH]; simpl; intros ys Hfg.
  - by intros [= <-].
  - destruct (f x) as [y|] eqn:Hx; [|done].
    destruct (map_outcome f l) as [ys'|]; [|done]. intros [= <-].
    rewrite (Hfg x y (list_elem_of_here _ _) Hx).
    rewrite (IH ys'); [done| |done]. intros x' y' Hin. apply Hfg. by right.
Qed.

Lemma build_tree_more_depth (depth : nat) (cps : list Checkpoint) (c : Checkpoint)
    (t : TimelineNode) :
  build_tree depth cps c = Ret t -> build_tree (S depth) cps c = Ret t.
Proof.
  revert c t. induction depth as [|depth IH]; intros c t; [done|].
  intros H. simpl in H.
  destruct (map_outcome _ _) as [kids|] eqn:Hk; [|done]. injection H as <-.
  cbn [build_tree].
  erewrite (map_outcome_map _ (build_tree (S depth) cps) (fun t => t)); [|..|exact Hk].
  - by rewrite map_id.
  - intros x y _ Hx. by apply IH.
Qed.

Lemma build_tree_enough_depth (d1 d2 : nat) (cps : list Checkpoint) (c : Checkpoint)
    (t : TimelineNode) :
  d1 <= d2 -> build_tree d1 cps c = Ret t -> build_tree d2 cps c = Ret t.
Proof.
  induction 1 as [|d2 _ IH]; [done|]. intros H. by apply build_tree_more_depth, IH.
Qed.

Lemma filter_none {A : Type} (P : A -> Prop) `{forall x, Decision (P x)} (l : list A) :
  (forall x, x ∈ l -> ~ P x) -> filter P l = [].
Proof.
  induction l as [|x l IH]; intros Hn; [done|]. rewrite filter_cons.
  rewrite decide_False by (apply Hn; left). apply IH. intros y Hy. apply Hn. by right.
Qed.

Lemma parents_earlier_prefix (cps : list Checkpoint) (z : Checkpoint) :
  parents_earlier (cps ++ [z]) -> parents_earlier cps.
Proof.
  intros H i c p Hi Hp.
  destruct (H i c p) as (j & c' & Hj & Hc' & Hid); [by apply lookup_app_l_Some|done|].
  exists j, c'. repeat split; try done.
  pose proof (lookup_lt_Some _ _ _ Hi).
  by rewrite lookup_app_l in Hc' by lia.
Qed.

(** With distinct ids and parents standing earlier, the last checkpoint of
    the list is nobody's parent. *)
Lemma last_is_leaf (cps : list Checkpoint) (z : Checkpoint) :
  NoDup (checkpoint_id <$> (cps ++ [z])) -> parents_earlier (cps ++ [z]) ->
  filter (fun c => parent_checkpoint_id c = Some (checkpoint_id z)) (cps ++ [z]) = [].
Proof.
  intros Hnd Hpe. apply filter_none. intros x Hx Hp.
  apply list_elem_of_lookup in Hx as [i Hi].
  destruct (Hpe i x _ Hi Hp) as (j & c' & Hj & Hc' & Hid).
  pose proof (lookup_lt_Some _ _ _ Hi) as Hlt. rewrite length_app in Hlt. simpl in Hlt.
  assert (Hz : (cps ++ [z]) !! length cps = Some z).
  { rewrite lookup_app_r by lia. by rewrite Nat.sub_diag. }
  assert (j = length cps); [|lia].
  eapply (NoDup_lookup _ _ _ (checkpoint_id z) Hnd).
  - by rewrite list_lookup_fmap, Hc', <- Hid.
  - by rewrite list_lookup_fmap, Hz.
Qed.

Lemma map_outcome_rel {A B : Type} (f g : A -> outcome B) (R : B -> B -> Prop) (l : list A)
    (ys : list B) :
  (forall x y, x ∈ l -> f x = Ret y -> exists y', g x = Ret y' /\ R y y') ->
  map_outcome f l = Ret ys ->
  exists ys', map_outcome g l = Ret ys' /\ Forall2 R ys ys'.
Proof.
  revert ys. induction l as [|x l IH]; simpl; intros ys Hfg.
  - intros [= <-]. exists []. by split; [|constructor].
  - destruct (f x) as [y|] eqn:Hx; [|done].
    destruct (map_outcome f l) as [ys0|]; [|done]. intros [= <-].
    destruct (Hfg x y (list_elem_of_here _ _) Hx) as (y' & -> & HR).
    destruct (IH ys0) as (ys' & -> & HF); [|done|].
    { intros x' y0 Hin. apply Hfg. by right. }
    exists (y' :: ys'). by split; [|constructor].
Qed.

Lemma length_hosts_app (z : Checkpoint) (l1 l2 : list Checkpoint) :
  length (hosts z (l1 ++ l2)) = length (hosts z l1) + length (hosts z l2).
Proof. unfold hosts. by rewrite filter_app, length_app. Qed.

Lemma grown_forest (z : Checkpoint) (ts ts' : list TimelineNode) :
  Forall2 (grown z) ts ts' ->
  forest_nodes ts' ≡ₚ forest_nodes ts ++ replicate (length (hosts z (forest_nodes ts))) z.
Proof.
  unfold forest_nodes. induction 1 as [|t t' ts ts' Ht _ IH]; simpl; [done|].
  unfold grown in Ht. rewrite Ht, IH, length_hosts_app, replicate_add.
  rewrite <- !app_assoc. f_equiv. rewrite !app_assoc. f_equiv. apply Permutation_app_comm.
Qed.

(** Appending a leaf [z] to the list: each tree grows by [z] under its
    hosts, at the cost of one more level of calls. *)
Lemma build_tree_grown (depth : nat) (cps : list Checkpoint) (z c : Checkpoint)
    (t : TimelineNode) :
  filter (fun x => parent_checkpoint_id x = Some (checkpoint_id z)) (cps ++ [z]) = [] ->
  build_tree depth cps c = Ret t ->
  exists t', build_tree (S depth) (cps ++ [z]) c = Ret t' /\ grown z t t'.
Proof.
  intros Hleaf. revert c t. induction depth as [|depth IH]; intros c t; [done|].
  intros H. simpl in H.
  destruct (map_outcome _ _) as [kids|] eqn:Hk; [|done]. injection H as <-.
  destruct (map_outcome_rel _ (build_tree (S depth) (cps ++ [z])) (grown z) _ _
              (fun x y _ Hx => IH x y Hx) Hk) as (kids' & Hk' & Hrel).
  assert (Hz : build_tree (S depth) (cps ++ [z]) z = Ret (Node z [])).
  { simpl. by rewrite Hleaf. }
  assert (Hzs : map_outcome (build_tree (S depth) (cps ++ [z])) [z] = Ret [Node z []]).
  { cbn [map_outcome]. by rewrite Hz. }
  cbn [build_tree]. rewrite filter_app.
  rewrite (filter_cons _ z []), filter_nil.
  destruct (decide (parent_checkpoint_id z = Some (checkpoint_id c))) as [Hp|Hp].
  - erewrite map_outcome_app; [| exact Hk' | exact Hzs].
    eexists. split; [done|]. unfold grown. simpl.
    apply grown_forest in Hrel. unfold forest_nodes in Hrel.
    rewrite map_app, concat_app. simpl.
    unfold hosts at 1. rewrite filter_cons, decide_True by done. simpl.
    fold (hosts z (concat (map nodes kids))).
    rewrite Hrel. constructor. rewrite <- app_assoc. f_equiv.
    change (z :: replicate (length (hosts z (concat (map nodes kids)))) z)
      with ([z] ++ replicate (length (hosts z (concat (map nodes kids)))) z).
    apply Permutation_app_comm.
  - erewrite map_outcome_app; [| exact Hk' | done].
    eexists. split; [done|]. unfold grown. simpl.
    apply grown_forest in Hrel. unfold forest_nodes in Hrel.
    rewrite app_nil_r.
    unfold hosts at 1. rewrite filter_cons, decide_False by done.
    fold (hosts z (concat (map nodes kids))).
    by rewrite Hrel.
Qed.

Lemma length_hosts_perm (z : Checkpoint) (l1 l2 : list Checkpoint) :
  l1 ≡ₚ l2 -> length (hosts z l1) = length (hosts z l2).
Proof. intros H. unfold hosts. by rewrite H. Qed.

Lemma hosts_of_root (z : Checkpoint) (l : list Checkpoint) :
  parent_checkpoint_id z = None -> hosts z l = [].
Proof. intros H. apply filter_none. intros x _. by rewrite H. Qed.

(** Among distinct ids, a parent reference that resolves has one host. *)
Lemma one_host (z : Checkpoint) (p : string) (cps : list Checkpoint) :
  NoDup (checkpoint_id <$> cps) ->
  parent_checkpoint_id z = Some p ->
  (exists c, c ∈ cps /\ checkpoint_id c = p) ->
  length (hosts z cps) = 1.
Proof.
  intros Hnd Hp. unfold hosts. rewrite Hp.
  induction cps as [|c cps IH]; intros (c' & Hc' & Hid).
  - by apply elem_of_nil in Hc'.
  - rewrite fmap_cons in Hnd. apply NoDup_cons in Hnd as [Hnotin Hnd].
    rewrite filter_cons. destruct (decide (Some p = Some (checkpoint_id c))) as [[= ->]|Hne].
    + rewrite filter_none; [done|]. intros x Hx [= Hxid]. apply Hnotin.
      rewrite Hxid. apply list_elem_of_fmap. by exists x.
    + apply IH; [done|]. apply elem_of_cons in Hc' as [->|Hc']; [congruence|].
      by exists c'.
Qed.

(** With distinct ids and every parent standing earlier in the list, a
    depth of one call per checkpoint is enough for the forest, and its
    nodes are the checkpoints of the list, each of them once. *)
Lemma forest_of_closed_list (cps : list Checkpoint) :
  NoDup (checkpoint_id <$> cps) -> parents_earlier cps ->
  exists forest,
    map_outcome (build_tree (length cps) cps)
      (filter (fun c => parent_checkpoint_id c = None) cps) = Ret forest /\
    forest_nodes forest ≡ₚ cps.
Proof.
  induction cps as [|z cps IH] using rev_ind; intros Hnd Hpe.
  - by exists [].
  - pose proof (last_is_leaf _ _ Hnd Hpe) as Hleaf.
    destruct IH as (forest' & Hf' & Hperm').
    { rewrite fmap_app in Hnd. by apply NoDup_app in Hnd as [? _]. }
    { by eapply parents_earlier_prefix. }
    destruct (map_outcome_rel _ (build_tree (S (length cps)) (cps ++ [z])) (grown z) _ _
                (fun x y _ Hx => build_tree_grown _ _ _ x y Hleaf Hx) Hf')
      as (forest & Hf & Hrel).
    apply grown_forest in Hrel.
    rewrite (length_hosts_perm _ _ _ Hperm'), Hperm' in Hrel.
    rewrite length_app, Nat.add_1_r, filter_app. rewrite (filter_cons _ z []), filter_nil.
    destruct (parent_checkpoint_id z) as [p|] eqn:Hp.
    + rewrite decide_False by done. rewrite app_nil_r.
      exists forest. split; [done|]. rewrite Hrel.
      rewrite (one_host z p cps); [done| |done|].
      * rewrite fmap_app in Hnd. by apply NoDup_app in Hnd as [? _].
      * destruct (Hpe (length cps) z p) as (j & c' & Hj & Hc' & Hid); [|done|].
        { rewrite lookup_app_r by lia. by rewrite Nat.sub_diag. }
        rewrite lookup_app_l in Hc' by lia.
        exists c'. split; [by eapply list_elem_of_lookup_2|done].
    + rewrite decide_True by done.
      assert (Hz : map_outcome (build_tree (S (length cps)) (cps ++ [z])) [z]
                   = Ret [Node z []]).
      { simpl. by rewrite Hleaf. }
      rewrite (map_outcome_app _ _ _ _ _ Hf Hz).
      eexists. split; [done|]. unfold forest_nodes in *.
      rewrite map_app, concat_app, Hrel. simpl.
      rewrite hosts_of_root by done. simpl. by rewrite app_nil_r.
Qed.

(** On a visible index: when the checkpoints [get_checkpoints] gives for
    the session have distinct ids and each of their parent references
    names one of them that stands earlier in the index, and the
    interpreter allows one nested call per checkpoint, [get_timeline]
    returns, and its forest holds those checkpoints, each of them once. *)
Lemma get_timeline_complete (sid : string) (m : Manager) (all : list Checkpoint) :
  index_view m = Some all ->
  let cps := if PyStr.falsy sid then all else filter (fun c => session_id c = sid) all in
  NoDup (checkpoint_id <$> cps) -> parents_earlier cps -> length cps <= recursion_limit ->
  exists tl,
    get_timeline sid m = (Ret tl, loaded all m) /\
    forest_nodes (tree tl) ≡ₚ cps /\
    forest_count (tree tl) = total_checkpoints tl.
Proof.
  intros Hv cps Hnd Hpe Hdepth.
  destruct (forest_of_closed_list cps Hnd Hpe) as (forest & Hf & Hperm).
  apply (map_outcome_map _ (build_tree recursion_limit cps) (fun t => t)) in Hf.
  2: { intros x y _. by apply build_tree_enough_depth. }
  rewrite map_id in Hf.
  unfold get_timeline. unfold bind at 1. rewrite (get_checkpoints_session _ _ _ Hv).
  fold cps. unfold bind, lift. rewrite Hf. unfold ret.
  eexists. split; [done|]. simpl. split; [done|].
  unfold forest_count. by rewrite Hperm.
Qed.

(** ** A store without [index.json] *)

Lemma index_view_None (m : Manager) :
  _checkpoints m = None -> checkpoints_file m = None -> index_view m = None.
Proof. unfold index_view. by intros -> ->. Qed.




(** C2.  A manager that has not read its index, on a directory without
    [index.json]: [restore_checkpoint] does not return [False] for a
    checkpoint that does not exist, it raises [RecursionError] (and writes
    nothing). *)
Theorem restore_checkpoint_no_index (id : string) (session_path : PyPath.Path)
    (m : Manager) :
  _checkpoints m = None -> checkpoints_file m = None ->
  restore_checkpoint id session_path m = (Raise RecursionError, m).
Proof.
  intros Hc Hi. unfold restore_checkpoint. unfold bind at 1.
  by rewrite (get_checkpoint_no_index _ _ Hc Hi).
Qed.

(** C6.  A manager that has not read its index, on a directory without
    [index.json], and no session log: [create_checkpoint] returns no
    checkpoint and records none, it raises [RecursionError]. *)
Theorem create_checkpoint_no_log_no_index (sid : string) (session_path : PyPath.Path)
    (uuid name0 description0 : string) (parent branch : option string)
    (new_id : string) (now : Z) (m : Manager) :
  _checkpoints m = None -> checkpoints_file m = None ->
  files m !! session_path = None ->
  create_checkpoint sid session_path uuid name0 description0 parent branch new_id now m
    = (Raise RecursionError, m).
Proof.
  intros Hc Hi Hl. rewrite create_checkpoint_phases, Hl.
  by rewrite (add_to_index_no_index _ _ Hc Hi).
Qed.

(** Without [index.json] and with nothing read, [create_checkpoint]
    raises whatever its arguments, and no index comes to exist. *)
Lemma create_checkpoint_no_index_raises (sid : string) (session_path : PyPath.Path)
    (uuid name0 description0 : string) (parent branch : option string)
    (new_id : string) (now : Z) (m : Manager) :
  _checkpoints m = None -> checkpoints_file m = None ->
  exists e m',
    create_checkpoint sid session_path uuid name0 description0 parent branch new_id now m
      = (Raise e, m') /\
    _checkpoints m' = None /\ checkpoints_file m' = None.
Proof.
  intros Hc Hi. rewrite create_checkpoint_phases.
  destruct (files m !! session_path) as [lines|].
  - destruct (read_up_to uuid lines []) as [msgs|e]; [|by eauto].
    rewrite add_to_index_no_index by done. by eauto.
  - rewrite add_to_index_no_index by done. by eauto.
Qed.

(** ** The index: saving, caching, looking up *)


(** [create_checkpoint] on a store whose [index.json] exists and whose
    index can be seen, beside a log that is missing or in which the loop
    parses records only: the state it leaves. *)
Lemma create_checkpoint_saved (sid : string) (session_path : PyPath.Path)
    (uuid name0 description0 : string) (parent branch : option string)
    (new_id : string) (now : Z) (m : Manager) (cps : list Checkpoint) (i : IndexFile) :
  checkpoints_file m = Some i ->
  index_view m = Some cps ->
  (forall lines, files m !! session_path = Some lines -> records_read uuid lines) ->
  let cp := mkCheckpoint new_id sid name0 description0 now uuid parent branch in
  create_checkpoint sid session_path uuid name0 description0 parent branch new_id now m =
    (Ret cp, saved (cps ++ [cp]) (with_snapshot session_path uuid new_id m)).
Proof.
  intros Hi Hv Hrec cp. rewrite create_checkpoint_phases. unfold with_snapshot.
  destruct (files m !! session_path) as [lines|] eqn:Hl.
  - rewrite (read_up_to_read _ _ _ (Hrec lines eq_refl)). simpl.
    by erewrite add_to_index_ok.
  - by erewrite add_to_index_ok.
Qed.

(** What a creation that returned started from, and the state it left:
    the index could be seen and [index.json] existed, the loop parsed
    records only, and the new checkpoint stands last in the index, its
    snapshot written when there was a log. *)
Lemma create_checkpoint_returned (sid : string) (session_path : PyPath.Path)
    (uuid name0 description0 : string) (parent branch : option string)
    (new_id : string) (now : Z) (m m' : Manager) (c : Checkpoint) :
  create_checkpoint sid session_path uuid name0 description0 parent branch new_id now m
    = (Ret c, m') ->
  let cp := mkCheckpoint new_id sid name0 description0 now uuid parent branch in
  exists cps i,
    index_view m = Some cps /\ checkpoints_file m = Some i /\
    (forall lines, files m !! session_path = Some lines -> records_read uuid lines) /\
    c = cp /\
    m' = saved (cps ++ [cp]) (with_snapshot session_path uuid new_id m).
Proof.
  intros H cp.
  assert (Hadd : forall s, add_to_index cp s = (Ret c, m') ->
            exists cps i, index_view s = Some cps /\ checkpoints_file s = Some i /\
              c = cp /\ m' = saved (cps ++ [cp]) s).
  { intros s Ha. destruct (index_view s) as [cps|] eqn:Hs.
    2: { destruct (add_to_index_unseen cp s Hs) as [e He]. by rewrite He in Ha. }
    destruct (checkpoints_file s) as [i|] eqn:Hi.
    - rewrite (add_to_index_ok _ _ _ _ Hs Hi) in Ha. injection Ha as <- <-.
      by exists cps, i.
    - rewrite (add_to_index_view _ _ _ Hs) in Ha.
      by rewrite _save_checkpoints_at_no_index in Ha. }
  rewrite create_checkpoint_phases in H. unfold with_snapshot.
  destruct (files m !! session_path) as [lines|] eqn:Hl.
  - destruct (read_up_to uuid lines []) as [msgs|e] eqn:Hread; [|done].
    apply read_up_to_ret in Hread as [Hrec ->]. simpl in H.
    destruct (Hadd _ H) as (cps & i & Hv & Hi & -> & ->).
    exists cps, i. repeat split; try done. by intros ls [= <-].
  - destruct (Hadd _ H) as (cps & i & Hv & Hi & -> & ->).
    exists cps, i. by repeat split.
Qed.

(** X1.  Without [index.json], [_ensure_dir_exists] and
    [_save_checkpoints] call each other until the interpreter stops them:
    both raise [RecursionError], whatever the recursion limit, and leave
    the store as it was.  The file is never created. *)
Theorem save_checkpoints_never_creates_index (checkpoints : list Checkpoint) (m : Manager) :
  checkpoints_file m = None ->
  _save_checkpoints checkpoints m = (Raise RecursionError, m) /\
  _ensure_dir_exists m = (Raise RecursionError, m).
Proof.
  intros H. split.
  - by apply _save_checkpoints_at_no_index.
  - by apply _ensure_dir_exists_at_no_index.
Qed.

Lemma get_checkpoints_cached (sid : option string) (m : Manager) (all : list Checkpoint) :
  _checkpoints m = Some all ->
  get_checkpoints sid false m = (Ret (of_session sid all), m).
Proof.
  intros H. unfold get_checkpoints, of_session. unmonad. rewrite H. simpl. rewrite H. simpl.
  destruct sid as [s|]; [|done]. by destruct (PyStr.falsy s).
Qed.

(** [get_checkpoints] with [force_refresh] on an existing [index.json]:
    the file is read again, and an exception of the reading leaves the
    call before anything is assigned. *)
Lemma get_checkpoints_refresh (sid : option string) (m : Manager) (i : IndexFile) :
  checkpoints_file m = Some i ->
  get_checkpoints sid true m =
    match load_index (Some i) with
    | Ret fresh => (Ret (of_session sid fresh), loaded fresh m)
    | Raise e => (Raise e, m)
    end.
Proof.
  intros H. unfold get_checkpoints, of_session. unmonad.
  rewrite orb_true_r. unfold _ensure_dir_exists.
  rewrite (_ensure_dir_exists_at_index _ _ _ H). rewrite H.
  destruct (load_index (Some i)) as [fresh|e]; [|done]. simpl.
  destruct sid as [s|]; [|done]. by destruct (PyStr.falsy s).
Qed.

Lemma get_checkpoints_ret (sid : option string) (force : bool) (m m' : Manager)
    (r : list Checkpoint) :
  get_checkpoints sid force m = (Ret r, m') ->
  exists all, _checkpoints m' = Some all /\ r = of_session sid all.
Proof.
  unfold get_checkpoints, of_session. unmonad.
  destruct (bool_decide (_checkpoints m = None) || force) eqn:Hb.
  - unfold _ensure_dir_exists.
    destruct (checkpoints_file m) as [i|] eqn:Hi.
    + rewrite (_ensure_dir_exists_at_index _ _ _ Hi). rewrite Hi.
      destruct (load_index (Some i)) as [fresh|e]; [|done]. simpl.
      intros H. exists fresh. split.
      * destruct sid as [s|]; [destruct (PyStr.falsy s)|]; by injection H as <- <-.
      * destruct sid as [s|]; [destruct (PyStr.falsy s)|]; by injection H as <- <-.
    + by rewrite (_ensure_dir_exists_at_no_index _ _ Hi).
  - apply orb_false_iff in Hb as [Hc _]. apply bool_decide_eq_false in Hc.
    destruct (_checkpoints m) as [all|] eqn:Hall; [|done]. simpl.
    intros H. exists all.
    destruct sid as [s|]; [destruct (PyStr.falsy s)|]; injection H as <- <-; by rewrite Hall.
Qed.

(** X2.  Once [get_checkpoints] has returned, the list is served from
    memory: a later call without [force_refresh] answers from the list
    held in [_checkpoints], does not touch the store, and sees nothing of
    what became of [index.json] in between, be it changed, damaged or
    removed.  A call with [force_refresh] reads the file again: when the
    file is read as a list (the empty one for a file [json.load]
    rejects) the call answers from it and that list replaces the one in
    memory; when the reading raises, the exception leaves the call and
    the list in memory stays; and when the file is gone the call raises
    [RecursionError], the list in memory staying as well. *)
Theorem get_checkpoints_serves_cache (sid : option string) (force : bool) (m m' : Manager)
    (r : list Checkpoint) :
  get_checkpoints sid force m = (Ret r, m') ->
  exists all,
    r = of_session sid all /\
    (forall (disk : option IndexFile) (sid' : option string),
       get_checkpoints sid' false (set_checkpoints_file disk m') =
         (Ret (of_session sid' all), set_checkpoints_file disk m')) /\
    (forall (i : IndexFile) (sid' : option string),
       get_checkpoints sid' true (set_checkpoints_file (Some i) m') =
         match load_index (Some i) with
         | Ret fresh =>
             (Ret (of_session sid' fresh), loaded fresh (set_checkpoints_file (Some i) m'))
         | Raise e => (Raise e, set_checkpoints_file (Some i) m')
         end) /\
    (forall sid' : option string,
       get_checkpoints sid' true (set_checkpoints_file None m') =
         (Raise RecursionError, set_checkpoints_file None m')) /\
    (forall disk, _checkpoints (set_checkpoints_file disk m') = Some all).
Proof.
  intros H. apply get_checkpoints_ret in H as (all & Hall & ->).
  exists all. split; [done|]. split; [|split; [|split]].
  - intros disk sid'. by apply get_checkpoints_cached.
  - intros i sid'. by apply get_checkpoints_refresh.
  - intros sid'. unfold get_checkpoints. unmonad. rewrite orb_true_r.
    unfold _ensure_dir_exists. by rewrite _ensure_dir_exists_at_no_index.
  - done.
Qed.

(** X3.  An [index.json] that [json.load] rejects is read as the empty
    list without any error, and a [create_checkpoint] that returns on
    such a store, nothing of the index being in memory, has overwritten
    the file: afterwards it holds the new checkpoint and nothing else,
    and so does the list in memory. *)
Theorem create_checkpoint_overwrites_corrupt_index (sid : string)
    (session_path : PyPath.Path) (uuid name0 description0 : string)
    (parent branch : option string) (new_id : string) (now : Z) (m m' : Manager)
    (c : Checkpoint) :
  checkpoints_file m = Some Corrupt ->
  _checkpoints m = None ->
  create_checkpoint sid session_path uuid name0 description0 parent branch new_id now m
    = (Ret c, m') ->
  let cp := mkCheckpoint new_id sid name0 description0 now uuid parent branch in
  get_checkpoints None false m = (Ret [], loaded [] m) /\
  c = cp /\
  checkpoints_file m' = Some (Entries [cp]) /\
  _checkpoints m' = Some [cp].
Proof.
  intros Hi Hc H cp.
  assert (Hv : index_view m = Some []).
  { unfold index_view. by rewrite Hc, Hi. }
  split; [by apply get_checkpoints_view|].
  apply create_checkpoint_returned in H as (cps & i & Hv' & _ & _ & -> & ->).
  rewrite Hv in Hv'. by injection Hv' as <-.
Qed.

(** X4.  [get_checkpoint] on a visible index answers with the first
    checkpoint of the list that carries the id, so that of two
    checkpoints with one id the later one is never returned; it answers
    [None] exactly when no checkpoint carries the id. *)
Theorem get_checkpoint_first_match (id : string) (m : Manager) (cps : list Checkpoint) :
  index_view m = Some cps ->
  exists r,
    get_checkpoint id m = (Ret r, loaded cps m) /\
    match r with
    | Some cp =>
        exists k, cps !! k = Some cp /\ checkpoint_id cp = id /\
          forall j cp', j < k -> cps !! j = Some cp' -> checkpoint_id cp' <> id
    | None => forall cp, cp ∈ cps -> checkpoint_id cp <> id
    end.
Proof.
  intros Hv. rewrite (get_checkpoint_view _ _ _ Hv). eexists. split; [done|].
  unfold find_checkpoint.
  destruct (list_find _ cps) as [[k cp]|] eqn:Hf; simpl.
  - apply list_find_Some in Hf as (Hk & Hid & Hfirst). exists k. repeat split; try done.
    intros j cp' Hj Hcp'. by eapply Hfirst.
  - apply list_find_None in Hf. intros cp Hcp. by eapply Forall_forall in Hf.
Qed.

Lemma find_checkpoint_app (id : string) (cps : list Checkpoint) (cp : Checkpoint) :
  find_checkpoint id (cps ++ [cp]) =
    match find_checkpoint id cps with
    | Some r => Some r
    | None => if decide (checkpoint_id cp = id) then Some (length cps, cp) else None
    end.
Proof.
  unfold find_checkpoint. destruct (list_find _ cps) as [[k c]|] eqn:Hf.
  - by apply list_find_app_l.
  - rewrite list_find_app_r by done. simpl. by case_decide.
Qed.

(** X5.  Create, then look up: when [create_checkpoint] returns on a store
    whose index could be seen and held no checkpoint with the new id,
    the checkpoint it returns is the new one, with the fields it was
    called with; [get_checkpoint] of the new id then returns that very
    checkpoint; and the answer for every other id is what it was before
    the creation. *)
Theorem create_then_get_checkpoint (sid : string) (session_path : PyPath.Path)
    (uuid name0 description0 : string) (parent branch : option string)
    (new_id : string) (now : Z) (m m' : Manager) (c : Checkpoint)
    (cps : list Checkpoint) :
  index_view m = Some cps ->
  (forall c, c ∈ cps -> checkpoint_id c <> new_id) ->
  create_checkpoint sid session_path uuid name0 description0 parent branch new_id now m
    = (Ret c, m') ->
  let cp := mkCheckpoint new_id sid name0 description0 now uuid parent branch in
  c = cp /\
  get_checkpoint new_id m' = (Ret (Some cp), m') /\
  forall id, id <> new_id ->
    fst (get_checkpoint id m') = fst (get_checkpoint id m).
Proof.
  intros Hv Hfresh H cp.
  apply create_checkpoint_returned in H as (cps' & i & Hv0 & _ & _ & -> & ->).
  rewrite Hv in Hv0. injection Hv0 as <-. split; [done|].
  set (m' := saved (cps ++ [cp]) (with_snapshot session_path uuid new_id m)).
  assert (Hv' : index_view m' = Some (cps ++ [cp])) by done.
  assert (Hl : loaded (cps ++ [cp]) m' = m') by done.
  split.
  - rewrite (get_checkpoint_view _ _ _ Hv'), Hl.
    rewrite find_checkpoint_app.
    assert (Hn : find_checkpoint new_id cps = None).
    { apply list_find_None, Forall_forall. intros c Hc. by apply Hfresh. }
    rewrite Hn. simpl. by rewrite decide_True.
  - intros id Hid. rewrite (get_checkpoint_view _ _ _ Hv'), (get_checkpoint_view _ _ _ Hv).
    simpl. rewrite find_checkpoint_app.
    destruct (find_checkpoint id cps) as [[k c]|]; [done|]. simpl.
    by rewrite decide_False by (simpl; congruence).
Qed.


(** ** Delete and restore on a store whose index can be seen *)

Lemma below_snapshot_path (dir : PyPath.Path) (id id' : string) :
  PyPath.below (PyPath.joinpath dir id) (snapshot_path dir id') = bool_decide (id' = id).
Proof.
  unfold PyPath.below, snapshot_path, PyPath.joinpath.
  rewrite <- app_assoc.
  rewrite take_app_ge by (rewrite length_app; simpl; lia).
  replace (length (dir ++ [id]) - length dir) with 1 by (rewrite length_app; simpl; lia).
  simpl. apply bool_decide_ext. split.
  - intros H. apply app_inv_head in H. by injection H.
  - by intros ->.
Qed.

(** [delete_checkpoint] of a checkpoint of a visible index whose file
    exists: the state it leaves. *)
Lemma delete_checkpoint_found (id : string) (m : Manager) (cps : list Checkpoint)
    (i : IndexFile) (k : nat) (deleted : Checkpoint) :
  index_view m = Some cps -> checkpoints_file m = Some i ->
  find_checkpoint id cps = Some (k, deleted) ->
  delete_checkpoint id m =
    (Ret true,
     saved (reparented id (parent_checkpoint_id deleted) <$>
              filter (fun c => checkpoint_id c <> id) cps)
       (set_files (without_tree (PyPath.joinpath (checkpoints_dir m) id) (files m)) m)).
Proof.
  intros Hv Hi Hf. unfold delete_checkpoint. unfold bind at 1.
  rewrite (get_checkpoints_view _ _ Hv), Hf.
  destruct (find_checkpoint_Some _ _ _ _ Hf) as (Hk & _ & _).
  rewrite (reparent_children_fmap _ _ _ _ Hk), filter_reparented.
  unfold bind at 1. unfold gets at 1. unfold bind at 1. unfold rmtree at 1.
  unfold modify at 1. unfold bind at 1. unfold modify at 1. unfold bind at 1.
  unfold _save_checkpoints. erewrite _save_checkpoints_at_index by exact Hi. done.
Qed.

(** What a deletion that returned [True] started from. *)
Lemma delete_checkpoint_true_inv (id : string) (m m' : Manager) :
  delete_checkpoint id m = (Ret true, m') ->
  exists cps i k deleted,
    index_view m = Some cps /\ checkpoints_file m = Some i /\
    find_checkpoint id cps = Some (k, deleted).
Proof.
  intros H. destruct (index_view m) as [cps|] eqn:Hv.
  2: { destruct (get_checkpoints_unseen None m Hv) as [e He].
       unfold delete_checkpoint in H. unfold bind in H at 1. by rewrite He in H. }
  unfold delete_checkpoint in H. unfold bind in H at 1.
  rewrite (get_checkpoints_view _ _ Hv) in H.
  destruct (find_checkpoint id cps) as [[k deleted]|] eqn:Hf; [|done].
  destruct (checkpoints_file m) as [i|] eqn:Hi; [by exists cps, i, k, deleted|].
  unfold bind in H at 1. unfold gets in H at 1. unfold bind in H at 1.
  unfold rmtree in H at 1. unfold modify in H at 1. unfold bind in H at 1.
  unfold modify in H at 1. unfold bind in H at 1. unfold _save_checkpoints in H.
  by rewrite _save_checkpoints_at_no_index in H.
Qed.

(** X6.  A deletion that returns [True], of an id that is one path
    component and whose directory path is not taken by a regular file,
    removes the files of the directory of that checkpoint, its snapshot
    among them, and no other file: every file outside that directory, so
    the snapshot of every other checkpoint, is as it was. *)
Theorem delete_checkpoint_removes_only_its_directory (id : string) (m m' : Manager) :
  PyPath.component id = true ->
  files m !! PyPath.joinpath (checkpoints_dir m) id = None ->
  delete_checkpoint id m = (Ret true, m') ->
  let data_dir := PyPath.joinpath (checkpoints_dir m) id in
  checkpoints_dir m' = checkpoints_dir m /\
  (forall q, PyPath.below data_dir q = true -> files m' !! q = None) /\
  (forall q, PyPath.below data_dir q = false -> files m' !! q = files m !! q) /\
  files m' !! snapshot_path (checkpoints_dir m) id = None /\
  (forall id', id' <> id ->
     files m' !! snapshot_path (checkpoints_dir m) id' =
     files m !! snapshot_path (checkpoints_dir m) id').
Proof.
  intros _ _ H data_dir.
  destruct (delete_checkpoint_true_inv _ _ _ H) as (cps & i & k & deleted & Hv & Hi & Hf).
  rewrite (delete_checkpoint_found _ _ _ _ _ _ Hv Hi Hf) in H. injection H as <-.
  simpl. fold data_dir.
  assert (Hin : forall q, PyPath.below data_dir q = true ->
                  without_tree data_dir (files m) !! q = None).
  { intros q Hq. apply map_lookup_filter_None_2. right. intros x _. simpl. by rewrite Hq. }
  assert (Hout : forall q, PyPath.below data_dir q = false ->
                   without_tree data_dir (files m) !! q = files m !! q).
  { intros q Hq. unfold without_tree. rewrite map_lookup_filter.
    destruct (files m !! q); simpl; [|done]. by rewrite option_guard_True. }
  repeat split; try done.
  - apply Hin. unfold data_dir. rewrite below_snapshot_path. by apply bool_decide_eq_true_2.
  - intros id' Hne. apply Hout. unfold data_dir. rewrite below_snapshot_path.
    by apply bool_decide_eq_false_2.
Qed.

(** X7.  [delete_checkpoint] of an id that no checkpoint of the visible
    index carries returns [False] and changes nothing but the cache,
    which now holds the index: no file is removed and [index.json] is
    not written. *)
Theorem delete_checkpoint_unknown_id (id : string) (m : Manager) (cps : list Checkpoint) :
  index_view m = Some cps ->
  (forall c, c ∈ cps -> checkpoint_id c <> id) ->
  delete_checkpoint id m = (Ret false, loaded cps m) /\
  files (loaded cps m) = files m /\
  checkpoints_file (loaded cps m) = checkpoints_file m /\
  index_view (loaded cps m) = Some cps.
Proof.
  intros Hv Hnone. split; [|done].
  unfold delete_checkpoint. unfold bind at 1. rewrite (get_checkpoints_view _ _ Hv).
  assert (Hf : find_checkpoint id cps = None).
  { apply list_find_None, Forall_forall. intros c Hc. by apply Hnone. }
  by rewrite Hf.
Qed.

Lemma reparented_none (id : string) (g : option string) (cps : list Checkpoint) :
  (forall c, c ∈ cps -> parent_checkpoint_id c <> Some id) ->
  reparented id g <$> cps = cps.
Proof.
  intros H. induction cps as [|c cps IH]; [done|]. rewrite fmap_cons. f_equal.
  - unfold reparented. rewrite decide_False; [done|]. apply H. left.
  - apply IH. intros c' Hc'. apply H. by right.
Qed.

Lemma filter_fresh_last (id : string) (cps : list Checkpoint) (cp : Checkpoint) :
  (forall c, c ∈ cps -> checkpoint_id c <> id) -> checkpoint_id cp = id ->
  filter (fun c => checkpoint_id c <> id) (cps ++ [cp]) = cps.
Proof.
  intros Hfresh Hid. rewrite filter_app.
  rewrite (filter_none (fun c => checkpoint_id c <> id) [cp]).
  2: { intros x ->%list_elem_of_singleton Hx. done. }
  rewrite app_nil_r. induction cps as [|c cps IH]; [done|].
  rewrite filter_cons, decide_True by (apply Hfresh; left).
  f_equal. apply IH. intros c' Hc'. apply Hfresh. by right.
Qed.

(** X8.  Create, then delete: when [create_checkpoint] returns on a store
    whose index could be seen, for a new id that is one path component,
    that no checkpoint of the index carries or names as its parent, and
    under whose directory no file lay, deleting the checkpoint just
    created returns [True] and undoes the creation: the index, in memory
    and in [index.json], is the list from before, and the files are
    those from before, the snapshot of the new checkpoint being removed
    with its directory. *)
Theorem create_then_delete_checkpoint (sid : string) (session_path : PyPath.Path)
    (uuid name0 description0 : string) (parent branch : option string)
    (new_id : string) (now : Z) (m m' : Manager) (c : Checkpoint)
    (cps : list Checkpoint) :
  index_view m = Some cps ->
  PyPath.component new_id = true ->
  (forall c, c ∈ cps -> checkpoint_id c <> new_id) ->
  (forall c, c ∈ cps -> parent_checkpoint_id c <> Some new_id) ->
  (forall q, is_Some (files m !! q) ->
     PyPath.below (PyPath.joinpath (checkpoints_dir m) new_id) q = false) ->
  create_checkpoint sid session_path uuid name0 description0 parent branch new_id now m
    = (Ret c, m') ->
  delete_checkpoint new_id m' = (Ret true, saved cps m) /\
  files (saved cps m) = files m /\
  index_view (saved cps m) = Some cps /\
  checkpoints_file (saved cps m) = Some (Entries cps).
Proof.
  intros Hv _ Hfresh Hchild Hclean H. split; [|done].
  apply create_checkpoint_returned in H as (cps' & i & Hv0 & Hi & _ & -> & ->).
  rewrite Hv in Hv0. injection Hv0 as <-.
  set (cp := mkCheckpoint new_id sid name0 description0 now uuid parent branch).
  set (m' := saved (cps ++ [cp]) (with_snapshot session_path uuid new_id m)).
  assert (Hv' : index_view m' = Some (cps ++ [cp])) by done.
  assert (Hi' : checkpoints_file m' = Some (Entries (cps ++ [cp]))) by done.
  assert (Hf : find_checkpoint new_id (cps ++ [cp]) = Some (length cps, cp)).
  { rewrite find_checkpoint_app.
    assert (Hn : find_checkpoint new_id cps = None).
    { apply list_find_None, Forall_forall. intros c Hc. by apply Hfresh. }
    rewrite Hn. by rewrite decide_True. }
  rewrite (delete_checkpoint_found _ _ _ _ _ _ Hv' Hi' Hf). f_equal.
  rewrite filter_fresh_last by done. rewrite reparented_none by done.
  assert (Hd : checkpoints_dir m' = checkpoints_dir m).
  { unfold m', with_snapshot. by destruct (files m !! session_path). }
  assert (Hfiles : without_tree (PyPath.joinpath (checkpoints_dir m') new_id) (files m')
                   = files m).
  { rewrite Hd. unfold m', with_snapshot, without_tree.
    assert (Hid : filter (fun kv : PyPath.Path * list string =>
                PyPath.below (PyPath.joinpath (checkpoints_dir m) new_id) kv.1 = false)
              (files m) = files m).
    { apply map_filter_id. intros q x Hq. simpl. apply Hclean. by rewrite Hq. }
    destruct (files m !! session_path) as [lines|]; simpl; [|done].
    rewrite map_filter_insert_not'; [done| |].
    - simpl. rewrite below_snapshot_path. by rewrite bool_decide_eq_true_2.
    - intros y Hy. simpl. rewrite below_snapshot_path. by rewrite bool_decide_eq_true_2. }
  unfold saved. rewrite Hfiles. unfold m', with_snapshot.
  by destruct (files m !! session_path); destruct m.
Qed.

Lemma backup_path_not_snapshot (p b dir : PyPath.Path) (id : string) :
  backup_path_of p = Some b -> b <> snapshot_path dir id.
Proof.
  unfold backup_path_of, PyPath.with_suffix.
  destruct (PyStr.falsy (PyPath.name p)); [done|].
  intros [= <-] Heq. unfold snapshot_path, PyPath.joinpath in Heq.
  apply app_inj_tail in Heq as [_ Heq].
  assert (Hlen : forall x, x +:+ ".jsonl.backup" <> "session.jsonl").
  { intros x Hx. pose proof (f_equal String.length Hx) as Hl.
    rewrite length_append in Hl. simpl in Hl.
    destruct x; [done|simpl in Hl; lia]. }
  destruct (PyStr.falsy (PyPath.suffix p)); by apply Hlen in Heq.
Qed.

(** X9.  Whenever [restore_checkpoint] returns [False] it has written
    nothing: the session file, every other file and [index.json] are as
    they were; and it returns [False] only when the index has no
    checkpoint of that id or the checkpoint has no snapshot. *)
Theorem restore_checkpoint_false_writes_nothing (id : string) (session_path : PyPath.Path)
    (m m' : Manager) :
  restore_checkpoint id session_path m = (Ret false, m') ->
  files m' = files m /\
  checkpoints_file m' = checkpoints_file m /\
  checkpoints_dir m' = checkpoints_dir m /\
  exists cps,
    index_view m = Some cps /\
    (find_checkpoint id cps = None \/
     files m !! snapshot_path (checkpoints_dir m) id = None).
Proof.
  intros H. destruct (index_view m) as [cps|] eqn:Hv.
  2: { destruct (get_checkpoint_unseen id m Hv) as [e He].
       unfold restore_checkpoint in H. unfold bind in H at 1. by rewrite He in H. }
  destruct (find_checkpoint id cps) as [[k cp]|] eqn:Hf.
  2: { rewrite (restore_checkpoint_missing _ _ _ _ Hv) in H by auto.
       injection H as <-. repeat split; eauto. }
  destruct (files m !! snapshot_path (checkpoints_dir m) id) as [snap|] eqn:Hs.
  2: { rewrite (restore_checkpoint_missing _ _ _ _ Hv) in H by auto.
       injection H as <-. repeat split; eauto. }
  rewrite (restore_checkpoint_found _ _ _ _ _ _ _ Hv Hf Hs) in H.
  destruct (backup_session _ _) as [[[]|e] m1]; [|done].
  by destruct (copy2 _ _ m1) as [[[]|e] m2].
Qed.

(** [restore_checkpoint] past its guards, onto a session file that is not
    the snapshot itself. *)
Lemma restore_checkpoint_state (id : string) (session_path : PyPath.Path) (m : Manager)
    (cps : list Checkpoint) (k : nat) (cp : Checkpoint) (snap : list string) :
  index_view m = Some cps ->
  find_checkpoint id cps = Some (k, cp) ->
  files m !! snapshot_path (checkpoints_dir m) id = Some snap ->
  session_path <> snapshot_path (checkpoints_dir m) id ->
  (is_Some (files m !! session_path) -> is_Some (backup_path_of session_path)) ->
  restore_checkpoint id session_path m =
    (Ret true,
     set_files
       (<[session_path := snap]>
          match files m !! session_path, backup_path_of session_path with
          | Some live, Some backup_path => <[backup_path := live]> (files m)
          | _, _ => files m
          end) (loaded cps m)).
Proof.
  intros Hv Hf Hs Hne Hb.
  rewrite (restore_checkpoint_found _ _ _ _ _ _ _ Hv Hf Hs).
  destruct (files m !! session_path) as [live|] eqn:Hl.
  - destruct (Hb (ltac:(eauto))) as [b Hbp]. rewrite Hbp.
    rewrite (backup_session_present session_path b live (loaded cps m) Hl Hbp).
    unfold copy2. rewrite decide_False by congruence. unmonad.
    rewrite lookup_insert_ne by (by eapply backup_path_not_snapshot).
    by rewrite Hs.
  - rewrite (backup_session_absent session_path (loaded cps m) Hl).
    unfold copy2. rewrite decide_False by congruence. unmonad. by rewrite Hs.
Qed.



(** X11.  Create, then restore: when [create_checkpoint] returns beside an
    existing session log that is another file than [index.json] and
    than the snapshot of the new checkpoint, whose id is one path
    component, restoring the checkpoint just taken returns [True] and
    rewrites the session file as the records of the log from its first
    line through the first record with the [uuid] of the message, each
    serialised anew by [json.dumps]: blank lines, lines that are no JSON
    and every line after that record are gone from it, and the lines
    the log had are in the backup. *)
Theorem create_then_restore_checkpoint (sid : string) (session_path : PyPath.Path)
    (uuid name0 description0 : string) (parent branch : option string)
    (new_id : string) (now : Z) (m m' : Manager) (c : Checkpoint)
    (lines : list string) (backup_path : PyPath.Path) :
  files m !! session_path = Some lines ->
  session_path <> index_path m ->
  PyPath.component new_id = true ->
  session_path <> snapshot_path (checkpoints_dir m) new_id ->
  backup_path_of session_path = Some backup_path ->
  create_checkpoint sid session_path uuid name0 description0 parent branch new_id now m
    = (Ret c, m') ->
  exists m'',
    restore_checkpoint new_id session_path m' = (Ret true, m'') /\
    files m'' !! session_path =
      Some (json_dumps <$> through_first (record_has_uuid uuid) (parseable_records lines)) /\
    files m'' !! backup_path = Some lines.
Proof.
  intros Hl _ _ Hne Hb H.
  apply create_checkpoint_returned in H as (cps & i & Hv & Hi & _ & -> & ->).
  set (cp := mkCheckpoint new_id sid name0 description0 now uuid parent branch).
  set (m' := saved (cps ++ [cp]) (with_snapshot session_path uuid new_id m)).
  assert (Hv' : index_view m' = Some (cps ++ [cp])) by done.
  assert (Hd : checkpoints_dir m' = checkpoints_dir m).
  { unfold m', with_snapshot. by rewrite Hl. }
  assert (Hfiles : files m' =
            <[snapshot_path (checkpoints_dir m) new_id :=
                json_dumps <$> through_first (record_has_uuid uuid) (parseable_records lines)]>
              (files m)).
  { unfold m', with_snapshot. by rewrite Hl. }
  assert (Hf : exists k c, find_checkpoint new_id (cps ++ [cp]) = Some (k, c)).
  { rewrite find_checkpoint_app. destruct (find_checkpoint new_id cps) as [[k c]|]; [eauto|].
    rewrite decide_True by done. eauto. }
  destruct Hf as (k & c & Hf).
  assert (Hs : files m' !! snapshot_path (checkpoints_dir m') new_id =
            Some (json_dumps <$> through_first (record_has_uuid uuid)
                                   (parseable_records lines))).
  { rewrite Hd, Hfiles. by rewrite lookup_insert_eq. }
  assert (Hl' : files m' !! session_path = Some lines).
  { rewrite Hfiles. by rewrite lookup_insert_ne by congruence. }
  pose proof (backup_path_differs _ _ Hb) as Hbne.
  clearbody m'.
  eexists. split.
  { apply (restore_checkpoint_state _ _ _ _ _ _ _ Hv' Hf Hs); [by rewrite Hd|].
    intros _. by rewrite Hb. }
  simpl files. rewrite Hl', Hb. split.
  - by rewrite lookup_insert_eq.
  - rewrite lookup_insert_ne by congruence. by rewrite lookup_insert_eq.
Qed.

(** ** Messages of a checkpoint and the diff of two *)

Lemma lines_are_records_cons (line : string) (lines : list string) :
  lines_are_records (line :: lines) -> lines_are_records lines.
Proof. intros H l v Hl. apply H. by right. Qed.

(** On a log made of records, every record is a JSON object. *)
Lemma parseable_records_dict (lines : list string) (v : Json.json) :
  lines_are_records lines -> v ∈ parseable_records lines -> Json.is_dict v = true.
Proof.
  intros Hrec Hv. unfold parseable_records in Hv.
  apply list_elem_of_omap in Hv as (line & Hl & Hp). unfold parse_line in Hp.
  destruct (PyStr.falsy (PyStr.strip line)); [done|]. by eapply Hrec.
Qed.

(** The reading loop of [get_checkpoint_messages] on a log made of
    records. *)
Lemma chat_messages_records (lines : list string) (messages : list Json.json) :
  lines_are_records lines ->
  chat_messages lines messages = Ret (messages ++ chat_records lines).
Proof.
  revert messages. induction lines as [|line lines IH]; intros messages Hrec; simpl.
  - unfold chat_records. by rewrite app_nil_r.
  - pose proof (lines_are_records_cons _ _ Hrec) as Hrec'.
    unfold chat_records. rewrite parseable_records_cons. fold (chat_records lines).
    unfold parse_line.
    destruct (PyStr.falsy (PyStr.strip line)) eqn:Hf; [by apply IH|].
    destruct (json_loads (PyStr.strip line)) as [data|] eqn:Hp; [|by apply IH].
    specialize (Hrec line data (list_elem_of_here _ _) Hp).
    destruct data as [| | | | |d]; try done.
    rewrite filter_cons. simpl. fold (chat_records lines).
    destruct (is_chat d) eqn:Hc.
    + rewrite decide_True by done. rewrite IH by done. by rewrite <- app_assoc.
    + rewrite decide_False by (by intros ?). by apply IH.
Qed.


Lemma get_checkpoint_messages_chat (id : string) (m : Manager) :
  (forall lines, files m !! snapshot_path (checkpoints_dir m) id = Some lines ->
     lines_are_records lines) ->
  get_checkpoint_messages id m =
    (Ret (chat_records (default [] (files m !! snapshot_path (checkpoints_dir m) id))), m).
Proof.
  intros Hrec. unfold get_checkpoint_messages. unmonad.
  destruct (files m !! snapshot_path (checkpoints_dir m) id) as [lines|] eqn:Hs.
  - rewrite bool_decide_eq_true_2 by eauto. rewrite Hs. simpl.
    by rewrite (chat_messages_records lines [] (Hrec lines eq_refl)).
  - rewrite bool_decide_eq_false_2 by (by intros [? ?]). done.
Qed.





Lemma through_first_elem {A : Type} (P : A -> bool) (l : list A) (x : A) :
  x ∈ through_first P l -> x ∈ l.
Proof.
  induction l as [|y l IH]; simpl; [done|].
  destruct (P y).
  - intros ->%list_elem_of_singleton. left.
  - intros [->|H]%elem_of_cons; [left|right; auto].
Qed.

(** Records that [json.loads] reads back from what [json.dumps] wrote of
    them, read back from the file they were written to. *)
Lemma parseable_records_written (records : list Json.json) :
  (forall v, v ∈ records -> parse_line (json_dumps v) = Some v) ->
  parseable_records (json_dumps <$> records) = records.
Proof.
  induction records as [|r records IH]; intros H; [done|].
  rewrite fmap_cons, parseable_records_cons, (H r) by left.
  f_equal. apply IH. intros v Hv. apply H. by right.
Qed.

(** On a log in which the loop of [create_checkpoint] parses records
    only, what it collects are JSON objects. *)
Lemma records_read_dict (uuid : string) (lines : list string) (r : Json.json) :
  records_read uuid lines ->
  r ∈ through_first (record_has_uuid uuid) (parseable_records lines) ->
  Json.is_dict r = true.
Proof.
  induction lines as [|line lines IH]; intros Hrec Hr; [by apply elem_of_nil in Hr|].
  rewrite parseable_records_cons in Hr.
  assert (Hhere : forall v, parse_line line = Some v -> Json.is_dict v = true).
  { intros v Hv. apply (Hrec line v); [|done]. unfold lines_read. simpl.
    destruct (line_has_uuid uuid line); left. }
  assert (Hrest : line_has_uuid uuid line = false -> records_read uuid lines).
  { intros Hu l v Hl. apply Hrec. unfold lines_read in *. simpl. rewrite Hu. by right. }
  unfold line_has_uuid in Hrest.
  destruct (parse_line line) as [v|]; [|by apply IH; auto].
  simpl in Hr. destruct (record_has_uuid uuid v).
  - apply list_elem_of_singleton in Hr as ->. by apply Hhere.
  - apply elem_of_cons in Hr as [->|Hr]; [by apply Hhere|]. by apply IH; auto.
Qed.

(** X13.  Create, then read the messages: when [create_checkpoint] returns
    beside an existing session log, and [json.loads] reads each record
    it put into the snapshot back from the text [json.dumps] gave it,
    the messages of the checkpoint just created are the chat records of
    the log from its first line through the first record whose [uuid]
    is the message. *)
Theorem create_then_get_checkpoint_messages (sid : string) (session_path : PyPath.Path)
    (uuid name0 description0 : string) (parent branch : option string)
    (new_id : string) (now : Z) (m m' : Manager) (c : Checkpoint)
    (lines : list string) :
  files m !! session_path = Some lines ->
  (forall v, v ∈ through_first (record_has_uuid uuid) (parseable_records lines) ->
     parse_line (json_dumps v) = Some v) ->
  create_checkpoint sid session_path uuid name0 description0 parent branch new_id now m
    = (Ret c, m') ->
  get_checkpoint_messages new_id m' =
    (Ret (filter (fun v => is_chat_record v = true)
            (through_first (record_has_uuid uuid) (parseable_records lines))), m').
Proof.
  intros Hl Hround H.
  apply create_checkpoint_returned in H as (cps & i & Hv & Hi & Hrec & -> & ->).
  specialize (Hrec lines Hl).
  set (cp := mkCheckpoint new_id sid name0 description0 now uuid parent branch).
  set (records := through_first (record_has_uuid uuid) (parseable_records lines)).
  set (m' := saved (cps ++ [cp]) (with_snapshot session_path uuid new_id m)).
  assert (Hs : files m' !! snapshot_path (checkpoints_dir m') new_id
               = Some (json_dumps <$> records)).
  { unfold m', with_snapshot. rewrite Hl. simpl. by rewrite lookup_insert_eq. }
  assert (Hback : parseable_records (json_dumps <$> records) = records).
  { by apply parseable_records_written. }
  rewrite get_checkpoint_messages_chat.
  - rewrite Hs. simpl. unfold chat_records. by rewrite Hback.
  - intros ls Hls. rewrite Hs in Hls. injection Hls as <-.
    intros line v (r & -> & Hr)%list_elem_of_fmap Hp.
    pose proof (Hround r Hr) as Hpr.
    unfold parse_line in Hpr. destruct (PyStr.falsy _); [done|].
    rewrite Hp in Hpr. injection Hpr as ->.
    by eapply records_read_dict.
Qed.






(** ** Fork, and checkpoints without a snapshot *)

(** The copying loop writes to its destination only. *)
Lemma copy_retagged_frame (sid : string) (dst : PyPath.Path) (lines : list string)
    (m : Manager) :
  let m' := snd (copy_retagged sid dst lines m) in
  _checkpoints m' = _checkpoints m /\
  checkpoints_file m' = checkpoints_file m /\
  checkpoints_dir m' = checkpoints_dir m /\
  forall q, q <> dst -> files m' !! q = files m !! q.
Proof.
  revert m. induction lines as [|line lines IH]; intros m; simpl; [done|].
  destruct (json_loads (PyStr.strip line)) as [v|]; [|apply IH].
  destruct v as [| | | | |d]; try (unfold raise; simpl; done).
  unfold bind, write_line, modify.
  match goal with |- context [copy_retagged sid dst lines ?s] =>
    destruct (IH s) as (H1 & H2 & H3 & H4);
    destruct (copy_retagged sid dst lines s) as [[[]|e] m2] end;
    simpl in *; rewrite H1, H2, H3; repeat split; try done;
    intros q Hq; rewrite (H4 q Hq); by rewrite lookup_insert_ne.
Qed.

(** What a creation that returned tells about the index. *)
Lemma create_checkpoint_ret (sid : string) (session_path : PyPath.Path)
    (uuid name0 description0 : string) (parent branch : option string)
    (new_id : string) (now : Z) (m m' : Manager) (c : Checkpoint) (cps : list Checkpoint) :
  index_view m = Some cps ->
  create_checkpoint sid session_path uuid name0 description0 parent branch new_id now m
    = (Ret c, m') ->
  let cp := mkCheckpoint new_id sid name0 description0 now uuid parent branch in
  c = cp /\
  index_view m' = Some (cps ++ [cp]) /\
  checkpoints_file m' = Some (Entries (cps ++ [cp])).
Proof.
  intros Hv H cp. rewrite create_checkpoint_phases in H.
  assert (Hadd : forall s, index_view s = Some cps ->
            add_to_index cp s = (Ret c, m') ->
            c = cp /\ index_view m' = Some (cps ++ [cp]) /\
            checkpoints_file m' = Some (Entries (cps ++ [cp]))).
  { intros s Hs Ha. destruct (checkpoints_file s) as [i|] eqn:Hi.
    - rewrite (add_to_index_ok _ _ _ _ Hs Hi) in Ha. by injection Ha as <- <-.
    - rewrite (add_to_index_view _ _ _ Hs) in Ha.
      by rewrite _save_checkpoints_at_no_index in Ha. }
  destruct (files m !! session_path) as [lines|].
  - destruct (read_up_to uuid lines []) as [msgs|e]; [|done].
    eapply Hadd; [|exact H]. done.
  - eapply Hadd; [|exact H]. done.
Qed.

(** X16.  A fork that returns a path has found the source checkpoint in
    the index and has appended one checkpoint to it, in memory and in
    [index.json]: a checkpoint of the new session, named after the
    source, at the message of the source, on the given branch, with the
    source as its parent.  The checkpoints from before are unchanged. *)
Theorem fork_session_records_child (id new_session_id : string)
    (project_path : PyPath.Path) (branch : string) (new_id : string) (now : Z)
    (m m' : Manager) (path : PyPath.Path) (cps : list Checkpoint) :
  index_view m = Some cps ->
  fork_session id new_session_id project_path branch new_id now m = (Ret (Some path), m') ->
  exists k source,
    find_checkpoint id cps = Some (k, source) /\
    let forked :=
      mkCheckpoint new_id new_session_id
        ("Fork from " +:+ name source) ("Forked from checkpoint: " +:+ name source)
        now (message_uuid source) (Some id) (Some branch) in
    index_view m' = Some (cps ++ [forked]) /\
    checkpoints_file m' = Some (Entries (cps ++ [forked])).
Proof.
  intros Hv Hfork. unfold fork_session in Hfork. unfold bind in Hfork at 1.
  rewrite (get_checkpoint_view _ _ _ Hv) in Hfork.
  destruct (find_checkpoint id cps) as [[k source]|]; simpl in Hfork; [|done].
  exists k, source. split; [done|].
  unfold bind in Hfork at 1. unfold gets in Hfork at 1.
  unfold bind in Hfork at 1. unfold path_exists in Hfork at 1. unfold gets in Hfork at 1.
  simpl in Hfork.
  destruct (bool_decide (is_Some (files m !! snapshot_path (checkpoints_dir m) id)));
    simpl in Hfork; [|done].
  unfold bind in Hfork at 1. unfold open_w in Hfork at 1. unfold modify in Hfork at 1.
  unfold bind in Hfork at 1. unfold read_lines in Hfork at 1. simpl in Hfork.
  destruct (_ !! snapshot_path (checkpoints_dir m) id) as [lines|]; [|done].
  unfold bind in Hfork at 1.
  match type of Hfork with context [copy_retagged ?a ?b ?c ?s] =>
    destruct (copy_retagged_frame a b c s) as (Hc1 & Hc2 & _);
    destruct (copy_retagged a b c s) as [[[]|e] m2]; [|done] end.
  simpl in Hc1, Hc2.
  assert (Hv2 : index_view m2 = Some cps).
  { unfold index_view. by rewrite Hc1. }
  unfold bind in Hfork at 1.
  destruct (create_checkpoint _ _ _ _ _ _ _ _ _ m2) as [[c|e] m3] eqn:Hcreate; [|done].
  unfold ret in Hfork. injection Hfork as <- <-.
  by destruct (create_checkpoint_ret _ _ _ _ _ _ _ _ _ _ _ _ _ Hv2 Hcreate) as (_ & ? & ?).
Qed.



(** ** The timeline of an index with distinct ids *)

Lemma same_id (cps : list Checkpoint) (x y : Checkpoint) :
  NoDup (checkpoint_id <$> cps) -> x ∈ cps -> y ∈ cps ->
  checkpoint_id x = checkpoint_id y -> x = y.
Proof.
  intros Hnd [i Hi]%list_elem_of_lookup [j Hj]%list_elem_of_lookup Hid.
  assert (i = j) as ->.
  { eapply NoDup_lookup; [exact Hnd| |].
    - rewrite list_lookup_fmap, Hi. done.
    - rewrite list_lookup_fmap, Hj. simpl. by rewrite Hid. }
  congruence.
Qed.

Lemma descends_in (cps : list Checkpoint) (n : nat) (c a : Checkpoint) :
  descends cps n c a -> c ∈ cps /\ a ∈ cps.
Proof. induction 1 as [c Hc|n c p a Hc Hp Hd [_ IH]]; auto. Qed.

(** Among distinct ids the way up is one way. *)
Lemma descends_fun (cps : list Checkpoint) (n : nat) (c a a' : Checkpoint) :
  NoDup (checkpoint_id <$> cps) ->
  descends cps n c a -> descends cps n c a' -> a = a'.
Proof.
  intros Hnd H. revert a'. induction H as [c Hc|n c p a Hc Hp Hd IH]; intros a' H'.
  - by inversion H'.
  - inversion H' as [|n' c' p' a'' Hc' Hp' Hd']; subst.
    assert (p = p') as <-.
    { apply (same_id cps); try done.
      - by apply descends_in in Hd as [? _].
      - by apply descends_in in Hd' as [? _].
      - congruence. }
    by apply IH.
Qed.

Lemma descends_trans (cps : list Checkpoint) (j n : nat) (x k r : Checkpoint) :
  descends cps j x k -> descends cps n k r -> descends cps (j + n) x r.
Proof.
  induction 1 as [c Hc|j c p a Hc Hp Hd IH]; intros H; [done|].
  simpl. eapply descends_child; eauto.
Qed.

(** Among distinct ids a checkpoint stands at one depth below the
    checkpoints without parent. *)
Lemma descends_depth_unique (cps : list Checkpoint) (n n' : nat) (c r r' : Checkpoint) :
  NoDup (checkpoint_id <$> cps) ->
  parent_checkpoint_id r = None -> parent_checkpoint_id r' = None ->
  descends cps n c r -> descends cps n' c r' -> n = n'.
Proof.
  intros Hnd Hr Hr' H. revert n' r' Hr'.
  induction H as [c Hc|n c p a Hc Hp Hd IH]; intros n' r' Hr' H'.
  - inversion H' as [|m c' p' a' Hc' Hp' Hd']; subst; [done|congruence].
  - inversion H' as [|m c' p' a' Hc' Hp' Hd']; subst; [congruence|].
    f_equal. assert (p = p') as <-.
    { apply (same_id cps); try done.
      - by apply descends_in in Hd as [? _].
      - by apply descends_in in Hd' as [? _].
      - congruence. }
    by eapply IH.
Qed.

(** The checkpoints on the way from [a] down to [c], by depth. *)
Lemma descends_chain (cps : list Checkpoint) (n : nat) (c a : Checkpoint) :
  descends cps n c a ->
  exists l, length l = S n /\ forall i y, l !! i = Some y -> descends cps i y a.
Proof.
  induction 1 as [c Hc|n c p a Hc Hp Hd (l & Hlen & Hl)].
  - exists [c]. split; [done|]. intros [|i] y; simpl; [|done].
    intros [= <-]. by constructor.
  - exists (l ++ [c]). split; [rewrite length_app; simpl; lia|].
    intros i y Hi. apply lookup_app_Some in Hi as [Hi|[Hge Hi]]; [by apply Hl|].
    rewrite Hlen in Hi, Hge. destruct (i - S n) as [|?] eqn:E; simpl in Hi; [|done].
    injection Hi as <-. assert (i = S n) as -> by lia. by eapply descends_child.
Qed.

(** So the depth stays below the number of checkpoints. *)
Lemma descends_depth_bound (cps : list Checkpoint) (n : nat) (c r : Checkpoint) :
  NoDup (checkpoint_id <$> cps) -> parent_checkpoint_id r = None ->
  descends cps n c r -> n < length cps.
Proof.
  intros Hnd Hr H. destruct (descends_chain _ _ _ _ H) as (l & Hlen & Hl).
  assert (Hndl : NoDup l).
  { apply NoDup_alt. intros i j y Hi Hj.
    eapply descends_depth_unique; eauto. }
  assert (Hsub : l ⊆+ cps).
  { apply NoDup_submseteq; [done|]. intros y [i Hi]%list_elem_of_lookup.
    by apply Hl, descends_in in Hi as [? _]. }
  apply submseteq_length in Hsub. lia.
Qed.

Lemma map_outcome_total {A B : Type} (f : A -> outcome B) (l : list A) :
  (forall x, x ∈ l -> exists y, f x = Ret y) -> exists ys, map_outcome f l = Ret ys.
Proof.
  induction l as [|x l IH]; intros H; simpl; [eauto|].
  destruct (H x) as [y ->]; [left|].
  destruct IH as [ys ->]; [|eauto]. intros z Hz. apply H. by right.
Qed.

(** Below a checkpoint that descends from one without parent,
    [build_tree] needs no more nested calls than there are checkpoints
    left to go down. *)
Lemma build_tree_rooted (depth : nat) (cps : list Checkpoint) (n : nat) (c r : Checkpoint) :
  NoDup (checkpoint_id <$> cps) -> parent_checkpoint_id r = None ->
  descends cps n c r -> length cps <= n + depth ->
  exists t, build_tree depth cps c = Ret t.
Proof.
  intros Hnd Hr. revert n c. induction depth as [|depth IH]; intros n c Hd Hlen.
  - pose proof (descends_depth_bound _ _ _ _ Hnd Hr Hd). lia.
  - simpl.
    destruct (map_outcome_total (build_tree depth cps)
                (filter (fun x => parent_checkpoint_id x = Some (checkpoint_id c)) cps))
      as [kids ->]; [|eauto].
    intros x [Hp Hx]%list_elem_of_filter. apply (IH (S n)); [|lia].
    by eapply descends_child.
Qed.

(** The nodes of a tree descend from its root. *)
Lemma build_tree_descends (depth : nat) (cps : list Checkpoint) (c : Checkpoint)
    (t : TimelineNode) :
  c ∈ cps -> build_tree depth cps c = Ret t ->
  forall x, x ∈ nodes t -> exists j, descends cps j x c.
Proof.
  revert c t. induction depth as [|depth IH]; intros c t Hc; simpl; [done|].
  destruct (map_outcome _ _) as [kids|] eqn:Hk; [|done]. intros [= <-] x.
  apply map_outcome_ret in Hk. simpl.
  intros [->|Hx]%elem_of_cons; [exists 0; by constructor|].
  apply elem_of_concat_map in Hx as (kid & Hkid & Hx).
  apply list_elem_of_lookup in Hkid as [i Hi].
  destruct (Forall2_lookup_r _ _ _ _ _ Hk Hi) as (child & Hchild & Hb).
  apply list_elem_of_lookup_2 in Hchild.
  apply list_elem_of_filter in Hchild as [Hp Hchild].
  destruct (IH _ _ Hchild Hb x Hx) as [j Hj].
  exists (j + 1). eapply descends_trans; [exact Hj|].
  eapply descends_child; [done|exact Hp|by constructor].
Qed.

Lemma build_tree_root (depth : nat) (cps : list Checkpoint) (c : Checkpoint)
    (t : TimelineNode) :
  build_tree depth cps c = Ret t -> root_of t = c /\ c ∈ nodes t.
Proof.
  destruct depth; simpl; [done|].
  destruct (map_outcome _ _); [|done]. intros [= <-]. split; [done|]. simpl. left.
Qed.

(** The nodes of a tree are closed under children. *)
Lemma build_tree_closed (depth : nat) (cps : list Checkpoint) (c : Checkpoint)
    (t : TimelineNode) :
  build_tree depth cps c = Ret t ->
  forall p x, p ∈ nodes t -> x ∈ cps ->
    parent_checkpoint_id x = Some (checkpoint_id p) -> x ∈ nodes t.
Proof.
  revert c t. induction depth as [|depth IH]; intros c t; simpl; [done|].
  destruct (map_outcome _ _) as [kids|] eqn:Hk; [|done]. intros [= <-] p x.
  apply map_outcome_ret in Hk. simpl. intros Hp Hx Hpx. right.
  apply elem_of_concat_map.
  apply elem_of_cons in Hp as [->|Hp].
  - assert (Hchild : x ∈ filter (fun y => parent_checkpoint_id y = Some (checkpoint_id c)) cps).
    { by apply list_elem_of_filter. }
    apply list_elem_of_lookup in Hchild as [i Hi].
    destruct (Forall2_lookup_l _ _ _ _ _ Hk Hi) as (kid & Hkid & Hb).
    exists kid. split; [by eapply list_elem_of_lookup_2|].
    by apply build_tree_root in Hb as [_ ?].
  - apply elem_of_concat_map in Hp as (kid & Hkid & Hp).
    exists kid. split; [done|].
    apply list_elem_of_lookup in Hkid as [i Hi].
    destruct (Forall2_lookup_r _ _ _ _ _ Hk Hi) as (child & Hchild & Hb).
    by eapply (IH _ _ Hb p x).
Qed.

Lemma build_tree_holds_descendants (depth : nat) (cps : list Checkpoint) (c : Checkpoint)
    (t : TimelineNode) (j : nat) (x : Checkpoint) :
  build_tree depth cps c = Ret t -> descends cps j x c -> x ∈ nodes t.
Proof.
  intros Hb Hd. induction Hd as [c Hc|n x p c Hx Hp Hd IH].
  - by apply build_tree_root in Hb as [_ ?].
  - eapply build_tree_closed; [exact Hb|by apply IH|done|done].
Qed.

(** Trees built at distinct checkpoints of one depth share no node, among
    distinct ids. *)
Lemma trees_apart (cps : list Checkpoint) (n : nat) (l : list Checkpoint)
    (ts : list TimelineNode) :
  NoDup (checkpoint_id <$> cps) ->
  NoDup l ->
  (forall k, k ∈ l -> exists r, parent_checkpoint_id r = None /\ descends cps n k r) ->
  Forall2 (fun k t => NoDup (nodes t) /\ forall x, x ∈ nodes t -> exists j, descends cps j x k)
          l ts ->
  NoDup (concat (map nodes ts)).
Proof.
  intros Hnd Hl Hdepth H. induction H as [|k t l ts [Ht Hk] H IH]; simpl; [constructor|].
  apply NoDup_cons in Hl as [Hkl Hl].
  apply NoDup_app. split; [done|]. split.
  - intros x Hx Hx'. apply elem_of_concat_map in Hx' as (t' & Ht' & Hx').
    apply list_elem_of_lookup in Ht' as [i Hi].
    destruct (Forall2_lookup_r _ _ _ _ _ H Hi) as (k' & Hk' & _ & Hdesc').
    apply list_elem_of_lookup_2 in Hk'.
    destruct (Hk x Hx) as [j Hj]. destruct (Hdesc' x Hx') as [j' Hj'].
    destruct (Hdepth k) as (r1 & Hr1 & Hd1); [left|].
    destruct (Hdepth k') as (r2 & Hr2 & Hd2); [by right|].
    pose proof (descends_trans _ _ _ _ _ _ Hj Hd1) as H1.
    pose proof (descends_trans _ _ _ _ _ _ Hj' Hd2) as H2.
    pose proof (descends_depth_unique _ _ _ _ _ _ Hnd Hr1 Hr2 H1 H2) as Heq.
    assert (j = j') as <- by lia.
    assert (k = k') as <- by (by eapply descends_fun). done.
  - apply IH; [done|]. intros k' Hk'. apply Hdepth. by right.
Qed.

(** Among distinct ids no checkpoint stands twice in a tree. *)
Lemma build_tree_NoDup (depth : nat) (cps : list Checkpoint) (n : nat) (c r : Checkpoint)
    (t : TimelineNode) :
  NoDup (checkpoint_id <$> cps) -> parent_checkpoint_id r = None ->
  descends cps n c r -> build_tree depth cps c = Ret t -> NoDup (nodes t).
Proof.
  intros Hnd Hr. revert n c t. induction depth as [|depth IH]; intros n c t Hd; simpl; [done|].
  destruct (map_outcome _ _) as [kids|] eqn:Hk; [|done]. intros [= <-].
  apply map_outcome_ret in Hk. simpl.
  pose proof (descends_in _ _ _ _ Hd) as [Hc _].
  assert (Hchildren : forall k,
            k ∈ filter (fun x => parent_checkpoint_id x = Some (checkpoint_id c)) cps ->
            descends cps (S n) k r).
  { intros k [Hp Hkin]%list_elem_of_filter. by eapply descends_child. }
  assert (Hkids : Forall2 (fun k t => NoDup (nodes t) /\
                     forall x, x ∈ nodes t -> exists j, descends cps j x k)
            (filter (fun x => parent_checkpoint_id x = Some (checkpoint_id c)) cps) kids).
  { apply Forall2_same_length_lookup_2; [by eapply Forall2_length|].
    intros i k t Hik Hit. pose proof (Forall2_lookup_lr _ _ _ _ _ _ Hk Hik Hit) as Hb.
    apply list_elem_of_lookup_2 in Hik as Hkin. split.
    - eapply IH; [by apply Hchildren|exact Hb].
    - apply (build_tree_descends _ _ _ _ (proj1 (descends_in _ _ _ _ (Hchildren k Hkin))) Hb). }
  apply NoDup_cons. split.
  - intros Hx. apply elem_of_concat_map in Hx as (kid & Hkid & Hx).
    apply list_elem_of_lookup in Hkid as [i Hi].
    destruct (Forall2_lookup_r _ _ _ _ _ Hkids Hi) as (child & Hchild & _ & Hdesc).
    apply list_elem_of_lookup_2 in Hchild.
    destruct (Hdesc c Hx) as [j Hj].
    pose proof (descends_trans _ _ _ _ _ _ Hj (Hchildren _ Hchild)) as H1.
    pose proof (descends_depth_unique _ _ _ _ _ _ Hnd Hr Hr Hd H1). lia.
  - eapply (trees_apart cps (S n)); try done.
    + apply NoDup_filter. by eapply NoDup_fmap_1.
    + intros k Hkin. exists r. split; [done|]. by apply Hchildren.
Qed.

(** The forest of [get_timeline] does not depend on the depth at which it
    is built, once the depth is enough for it. *)
Lemma forest_enough_depth (d1 d2 : nat) (cps roots : list Checkpoint)
    (forest : list TimelineNode) :
  d1 <= d2 ->
  map_outcome (build_tree d1 cps) roots = Ret forest ->
  map_outcome (build_tree d2 cps) roots = Ret forest.
Proof.
  intros Hle H.
  apply (map_outcome_map _ (build_tree d2 cps) (fun t => t)) in H.
  - by rewrite map_id in H.
  - intros x y _. by apply build_tree_enough_depth.
Qed.

(** With distinct ids and every parent standing earlier in the list, a
    forest that [get_timeline] gets built holds the checkpoints of the
    list, each of them once. *)
Lemma forest_complete (depth : nat) (cps : list Checkpoint) (forest : list TimelineNode) :
  NoDup (checkpoint_id <$> cps) -> parents_earlier cps ->
  map_outcome (build_tree depth cps)
    (filter (fun c => parent_checkpoint_id c = None) cps) = Ret forest ->
  forest_nodes forest ≡ₚ cps.
Proof.
  intros Hnd Hpe H.
  destruct (forest_of_closed_list cps Hnd Hpe) as (forest' & Hf' & Hperm).
  apply (forest_enough_depth _ (Nat.max depth (length cps))) in H; [|lia].
  apply (forest_enough_depth _ (Nat.max depth (length cps))) in Hf'; [|lia].
  rewrite H in Hf'. by injection Hf' as ->.
Qed.

(** Among distinct ids, a depth of one call per checkpoint is enough for
    the forest: no chain of parent references is longer. *)
Lemma forest_returns (depth : nat) (cps : list Checkpoint) :
  NoDup (checkpoint_id <$> cps) -> length cps <= depth ->
  exists forest,
    map_outcome (build_tree depth cps)
      (filter (fun c => parent_checkpoint_id c = None) cps) = Ret forest.
Proof.
  intros Hnd Hlen. apply map_outcome_total.
  intros r [Hp Hr]%list_elem_of_filter.
  apply (build_tree_rooted _ _ 0 r r); try done. by constructor.
Qed.

(** Among distinct ids, a forest that [get_timeline] gets built holds no
    checkpoint twice, and holds exactly the checkpoints that descend from
    a checkpoint without parent. *)
Lemma forest_rooted (depth : nat) (cps : list Checkpoint) (forest : list TimelineNode) :
  NoDup (checkpoint_id <$> cps) ->
  map_outcome (build_tree depth cps)
    (filter (fun c => parent_checkpoint_id c = None) cps) = Ret forest ->
  NoDup (forest_nodes forest) /\
  forall x, x ∈ forest_nodes forest <-> rooted cps x.
Proof.
  intros Hnd Hforest.
  set (roots := filter (fun c => parent_checkpoint_id c = None) cps) in *.
  assert (Hroot : forall r, r ∈ roots -> parent_checkpoint_id r = None /\ descends cps 0 r r).
  { intros r [Hp Hr]%list_elem_of_filter. split; [done|]. by constructor. }
  apply map_outcome_ret in Hforest as Hf2.
  assert (Htrees : Forall2 (fun k t => NoDup (nodes t) /\
                      forall x, x ∈ nodes t -> exists j, descends cps j x k) roots forest).
  { apply Forall2_same_length_lookup_2; [by eapply Forall2_length|].
    intros i k t Hik Hit. pose proof (Forall2_lookup_lr _ _ _ _ _ _ Hf2 Hik Hit) as Hb.
    simpl in Hb.
    apply list_elem_of_lookup_2 in Hik as Hkin. destruct (Hroot k Hkin) as [Hp Hd]. split.
    - exact (build_tree_NoDup _ _ 0 k k t Hnd Hp Hd Hb).
    - apply (build_tree_descends _ _ _ _ (proj1 (descends_in _ _ _ _ Hd)) Hb). }
  split.
  - eapply (trees_apart cps 0 roots); try done.
    + apply NoDup_filter. by eapply NoDup_fmap_1.
    + intros k Hk. exists k. by apply Hroot.
  - intros x. unfold forest_nodes. rewrite elem_of_concat_map. split.
    + intros (t & Ht & Hx). apply list_elem_of_lookup in Ht as [i Hi].
      destruct (Forall2_lookup_r _ _ _ _ _ Htrees Hi) as (r & Hr & _ & Hdesc).
      apply list_elem_of_lookup_2 in Hr. destruct (Hdesc x Hx) as [j Hj].
      exists j, r. split; [|done]. by apply Hroot.
    + intros (n & r & Hr & Hd).
      assert (Hrin : r ∈ roots).
      { apply list_elem_of_filter. split; [done|]. by apply descends_in in Hd as [_ ?]. }
      apply list_elem_of_lookup in Hrin as [i Hi].
      destruct (Forall2_lookup_l _ _ _ _ _ Hf2 Hi) as (t & Ht & Hb).
      exists t. split; [by eapply list_elem_of_lookup_2|].
      by eapply build_tree_holds_descendants.
Qed.

(** [get_timeline] on a visible index, by the forest it builds. *)
Lemma get_timeline_view (sid : string) (m : Manager) (all : list Checkpoint) :
  index_view m = Some all ->
  let cps := of_session (Some sid) all in
  get_timeline sid m =
    match map_outcome (build_tree recursion_limit cps)
            (filter (fun c => parent_checkpoint_id c = None) cps) with
    | Ret forest =>
        (Ret {| tl_session_id := sid; total_checkpoints := length cps;
                branches := branch_names cps; tree := forest |}, loaded all m)
    | Raise e => (Raise e, loaded all m)
    end.
Proof.
  intros Hv cps. unfold get_timeline. unfold bind at 1.
  rewrite (get_checkpoints_session _ _ _ Hv).
  fold (of_session (Some sid) all). fold cps. unfold bind, lift.
  by destruct (map_outcome _ _).
Qed.

Lemma build_tree_edges (depth : nat) (cps : list Checkpoint) (c : Checkpoint)
    (t : TimelineNode) :
  build_tree depth cps c = Ret t ->
  forall p x, (p, x) ∈ edges t -> parent_checkpoint_id x = Some (checkpoint_id p).
Proof.
  revert c t. induction depth as [|depth IH]; intros c t; simpl; [done|].
  destruct (map_outcome _ _) as [kids|] eqn:Hk; [|done]. intros [= <-] p x.
  apply map_outcome_ret in Hk. simpl. intros [Hx|Hx]%elem_of_app.
  - apply list_elem_of_fmap in Hx as (kid & [= -> ->] & Hkid).
    apply list_elem_of_lookup in Hkid as [i Hi].
    destruct (Forall2_lookup_r _ _ _ _ _ Hk Hi) as (child & Hchild & Hb).
    apply list_elem_of_lookup_2 in Hchild.
    apply list_elem_of_filter in Hchild as [Hp _].
    apply build_tree_root in Hb as [Hroot _]. unfold root_of in Hroot. by rewrite Hroot.
  - apply elem_of_concat_map in Hx as (kid & Hkid & Hx).
    apply list_elem_of_lookup in Hkid as [i Hi].
    destruct (Forall2_lookup_r _ _ _ _ _ Hk Hi) as (child & Hchild & Hb).
    by eapply IH.
Qed.

(** X21.  Whenever [get_timeline] returns, its forest follows the parent
    references: the checkpoint at the root of each tree has no parent,
    under every node stand only checkpoints whose
    [parent_checkpoint_id] is the id of that node, and every node is one
    of the checkpoints [get_checkpoints] gives for the session, so for a
    session id that is not empty no checkpoint of another session is
    shown. *)
Theorem get_timeline_follows_parent_references (sid : string) (m m' : Manager)
    (tl : Timeline) :
  get_timeline sid m = (Ret tl, m') ->
  (forall t, t ∈ tree tl -> parent_checkpoint_id (root_of t) = None) /\
  (forall p x, (p, x) ∈ forest_edges (tree tl) ->
     parent_checkpoint_id x = Some (checkpoint_id p)) /\
  exists cps,
    get_checkpoints (Some sid) false m = (Ret cps, m') /\
    total_checkpoints tl = length cps /\
    (forall x, x ∈ forest_nodes (tree tl) -> x ∈ cps) /\
    (PyStr.falsy sid = false ->
     forall x, x ∈ forest_nodes (tree tl) -> session_id x = sid).
Proof.
  intros Htl. pose proof Htl as Htl0.
  apply get_timeline_ret in Htl as (cps & Hcps & Htotal & _ & Hforest).
  apply map_outcome_ret in Hforest.
  assert (Hnodes : forall x, x ∈ forest_nodes (tree tl) -> x ∈ cps).
  { intros x Hx. unfold forest_nodes in Hx.
    apply elem_of_concat_map in Hx as (t & Ht & Hx).
    apply list_elem_of_lookup in Ht as [i Hi].
    destruct (Forall2_lookup_r _ _ _ _ _ Hforest Hi) as (r & Hr & Hb).
    apply list_elem_of_lookup_2 in Hr. apply list_elem_of_filter in Hr as [_ Hr].
    destruct (build_tree_nodes _ _ _ _ Hb x Hx) as [->|[? _]]; done. }
  split; [|split].
  - intros t [i Hi]%list_elem_of_lookup.
    destruct (Forall2_lookup_r _ _ _ _ _ Hforest Hi) as (r & Hr & Hb).
    apply list_elem_of_lookup_2 in Hr. apply list_elem_of_filter in Hr as [Hp _].
    apply build_tree_root in Hb as [-> _]. done.
  - intros p x Hx. unfold forest_edges in Hx.
    apply elem_of_concat_map in Hx as (t & Ht & Hx).
    apply list_elem_of_lookup in Ht as [i Hi].
    destruct (Forall2_lookup_r _ _ _ _ _ Hforest Hi) as (r & Hr & Hb).
    by eapply build_tree_edges.
  - exists cps. repeat split; try done.
    intros Hsid x Hx. apply Hnodes in Hx.
    apply get_checkpoints_ret in Hcps as (all & _ & ->).
    simpl in Hx. rewrite Hsid in Hx. by apply list_elem_of_filter in Hx as [? _].
Qed.

(** X22.  Whenever [get_timeline] returns, its [branches] is the list of
    the branch names of the checkpoints of the session, in the order of
    the index: the empty name is left out, and every other name stands in
    it once for each checkpoint that carries it. *)
Theorem get_timeline_branches_per_checkpoint (sid : string) (m m' : Manager)
    (tl : Timeline) :
  get_timeline sid m = (Ret tl, m') ->
  exists cps,
    get_checkpoints (Some sid) false m = (Ret cps, m') /\
    branches tl = branch_names cps /\
    ("" ∉ branches tl) /\
    forall b, b <> "" ->
      length (filter (fun x => x = b) (branches tl)) =
      length (filter (fun c => branch_name c = Some b) cps).
Proof.
  intros Htl. apply get_timeline_ret in Htl as (cps & Hcps & _ & Hbr & _).
  exists cps. split; [done|]. split; [done|]. rewrite Hbr. split.
  - intros H. by apply branch_names_elem in H as [? _].
  - intros b Hb. apply branch_names_count. by destruct b.
Qed.

(** ** What is written to [index.json] and read back *)

(** X23.  [Checkpoint.from_dict] undoes [Checkpoint.to_dict]: for a
    checkpoint whose timestamp [fromisoformat] reads back from its
    [isoformat], the dictionary [to_dict] gives is turned by [from_dict]
    into an object with the very same field values, [None] for an absent
    parent or branch included; the clock is not consulted. *)
Theorem from_dict_to_dict (isoformat : Z -> string) (fromisoformat : string -> option Z)
    (now : Z) (cp : Checkpoint) :
  fromisoformat (isoformat (timestamp cp)) = Some (timestamp cp) ->
  from_dict isoformat fromisoformat now (to_dict isoformat cp) = Ret (object_of cp).
Proof.
  intros H. unfold from_dict, to_dict, object_of, Json.dict_get_default. simpl.
  by rewrite H.
Qed.

Lemma from_dicts_to_dicts (isoformat : Z -> string) (fromisoformat : string -> option Z)
    (clock : nat -> Z) (i : nat) (cps : list Checkpoint) :
  (forall cp, cp ∈ cps -> fromisoformat (isoformat (timestamp cp)) = Some (timestamp cp)) ->
  from_dicts isoformat fromisoformat clock i (to_dict isoformat <$> cps)
    = Ret (object_of <$> cps).
Proof.
  revert i. induction cps as [|cp cps IH]; intros i H; [done|].
  rewrite fmap_cons. cbn [from_dicts].
  assert (Hcp : from_dict isoformat fromisoformat (clock i) (to_dict isoformat cp)
                = Ret (object_of cp)).
  { unfold from_dict, to_dict, object_of, Json.dict_get_default. simpl.
    by rewrite (H cp) by left. }
  rewrite Hcp, IH; [done|]. intros c Hc. apply H. by right.
Qed.

(** X24.  The index survives a save and a load: when [json.load] reads
    back the list that [_save_checkpoints] handed to [json.dump], and
    [fromisoformat] the timestamps, the [try] statement of
    [get_checkpoints] turns the text written for a list of checkpoints
    into the objects of these checkpoints, in the same order and with the
    same field values. *)
Theorem load_checkpoints_index_text (isoformat : Z -> string)
    (fromisoformat : string -> option Z) (json_dumps_indent : Json.json -> string)
    (clock : nat -> Z) (cps : list Checkpoint) :
  let text := index_text isoformat json_dumps_indent cps in
  json_loads text = Some (Json.JList (to_dict isoformat <$> cps)) ->
  (forall cp, cp ∈ cps -> fromisoformat (isoformat (timestamp cp)) = Some (timestamp cp)) ->
  load_checkpoints isoformat fromisoformat json_loads clock text = Ret (object_of <$> cps).
Proof.
  intros text Hload Hiso. unfold load_checkpoints. rewrite Hload. simpl.
  by apply from_dicts_to_dicts.
Qed.

Lemma from_dicts_raises (isoformat : Z -> string) (fromisoformat : string -> option Z)
    (clock : nat -> Z) (i : nat) (l : list Json.json) (e : Json.json) :
  e ∈ l -> (forall now, exists ex, from_dict isoformat fromisoformat now e = Raise ex) ->
  exists ex, from_dicts isoformat fromisoformat clock i l = Raise ex.
Proof.
  intros He Hraise. revert i. induction l as [|c l IH]; intros i.
  - by apply elem_of_nil in He.
  - cbn [from_dicts].
    destruct (from_dict isoformat fromisoformat (clock i) c) as [o|ex] eqn:Hc; [|eauto].
    apply elem_of_cons in He as [->|He].
    + destruct (Hraise (clock i)) as [ex Hex]. congruence.
    + destruct (IH He (S i)) as [ex ->]. eauto.
Qed.

(** X25.  One bad entry spoils the index: when [index.json] parses to a
    list one element of which is no JSON object, or is an object whose
    [timestamp] is no string or a string [fromisoformat] rejects, the
    list comprehension of [get_checkpoints] raises, and the [try]
    statement, which catches [JSONDecodeError] and [IOError] only, lets
    the exception out: the file does not count as empty, as a file that
    is no JSON does. *)
Theorem load_checkpoints_bad_entry (isoformat : Z -> string)
    (fromisoformat : string -> option Z) (clock : nat -> Z) (text : string)
    (l : list Json.json) (e : Json.json) :
  json_loads text = Some (Json.JList l) ->
  e ∈ l ->
  (Json.is_dict e = false \/
   exists d v, e = Json.JDict d /\ Json.dict_get "timestamp" d = Some v /\
     (Json.is_str v = false \/ exists s, v = Json.JStr s /\ fromisoformat s = None)) ->
  (exists ex, load_checkpoints isoformat fromisoformat json_loads clock text = Raise ex) /\
  forall text', json_loads text' = None ->
    load_checkpoints isoformat fromisoformat json_loads clock text' = Ret [].
Proof.
  intros Hload He Hbad. split.
  - unfold load_checkpoints. rewrite Hload. simpl.
    apply (from_dicts_raises isoformat fromisoformat clock 0 l e He). intros now.
    destruct Hbad as [Hd|(d & v & -> & Hv & Hbad)].
    + destruct e; try done; by eexists.
    + unfold from_dict, Json.dict_get_default. rewrite Hv.
      destruct Hbad as [Hs|(s & -> & Hs)].
      * destruct v; try done; by eexists.
      * simpl. rewrite Hs. by eexists.
  - intros text' H. unfold load_checkpoints. by rewrite H.
Qed.

(** ** Project names *)

Lemma length_replace_char (a b : ascii) (s : string) :
  String.length (PyStr.replace_char a b s) = String.length s.
Proof. induction s as [|c s IH]; simpl; [done|]. by rewrite IH. Qed.

Lemma chars_append (s1 s2 : string) :
  PyStr.chars (s1 +:+ s2) = PyStr.chars s1 ++ PyStr.chars s2.
Proof.
  induction s1 as [|c s1 IH]; [done|].
  change (c :: PyStr.chars (s1 +:+ s2) = c :: PyStr.chars s1 ++ PyStr.chars s2).
  by rewrite IH.
Qed.

Lemma replace_char_gone (a b : ascii) (s : string) :
  a <> b -> a ∉ PyStr.chars (PyStr.replace_char a b s).
Proof.
  intros Hab. induction s as [|c s IH]; simpl; [by intros ?%elem_of_nil|].
  intros [H|H]%elem_of_cons; [|done].
  destruct (Ascii.eqb c a) eqn:E; [done|]. apply Ascii.eqb_neq in E. congruence.
Qed.

Lemma replace_char_absent (a b : ascii) (s : string) :
  a ∉ PyStr.chars s -> PyStr.replace_char a b s = s.
Proof.
  induction s as [|c s IH]; simpl; [done|]. intros H.
  apply not_elem_of_cons in H as [Hc Hs]. rewrite IH by done.
  destruct (Ascii.eqb c a) eqn:E; [|done]. apply Ascii.eqb_eq in E. congruence.
Qed.

Lemma slice_to_1 (c : ascii) (s : string) : PyStr.slice_to 1 (String c s) = String c "".
Proof. unfold PyStr.slice_to. simpl. by destruct s. Qed.

Lemma parse_project_name_plain (dir_name : string) :
  "-"%char ∉ PyStr.chars dir_name -> _parse_project_name dir_name = dir_name.
Proof.
  intros H. unfold _parse_project_name.
  destruct dir_name as [|c1 s1]; [done|]. simpl in H.
  apply not_elem_of_cons in H as [H1 Hs1]. unfold PyStr.startswith_char.
  destruct (Ascii.eqb c1 "-") eqn:E1; [apply Ascii.eqb_eq in E1; congruence|].
  assert (Hslice : String.eqb (PyStr.slice 1 3 (String c1 s1)) "--" = false).
  { destruct s1 as [|c2 s2]; [done|]. simpl in Hs1.
    apply not_elem_of_cons in Hs1 as [H2 _]. unfold PyStr.slice. simpl.
    destruct s2 as [|c3 s3]; simpl.
    - destruct (Ascii.eqb c2 "-") eqn:E2; [apply Ascii.eqb_eq in E2; congruence|done].
    - destruct (Ascii.eqb c2 "-") eqn:E2; [apply Ascii.eqb_eq in E2; congruence|done]. }
  rewrite Hslice, andb_false_r. apply replace_char_absent. simpl.
  apply not_elem_of_cons. done.
Qed.

(** X26.  [_parse_project_name] gives a name as long as the directory
    name and without any hyphen: every hyphen of the directory name
    becomes a slash, or the colon after a drive letter.  So a project
    whose path holds a hyphen is never shown under its own path, and a
    name without hyphen is returned as it is; parsing a second time
    changes nothing. *)
Theorem parse_project_name_leaves_no_hyphen (dir_name : string) :
  String.length (_parse_project_name dir_name) = String.length dir_name /\
  ("-"%char ∉ PyStr.chars (_parse_project_name dir_name)) /\
  ("-"%char ∉ PyStr.chars dir_name -> _parse_project_name dir_name = dir_name) /\
  _parse_project_name (_parse_project_name dir_name) = _parse_project_name dir_name.
Proof.
  assert (Hgone : "-"%char ∉ PyStr.chars (_parse_project_name dir_name)).
  { unfold _parse_project_name.
    destruct (PyStr.startswith_char "-" dir_name) eqn:E1.
    - rewrite chars_append. simpl. apply not_elem_of_cons. split; [done|].
      by apply replace_char_gone.
    - destruct (Nat.ltb 2 (String.length dir_name) &&
                String.eqb (PyStr.slice 1 3 dir_name) "--") eqn:E2.
      + destruct dir_name as [|c1 s1]; [done|].
        rewrite slice_to_1.
        change (String c1 "" +:+ ":/" +:+ ?r) with (String c1 (":/" +:+ r)).
        simpl PyStr.chars. apply not_elem_of_cons. split.
        * simpl in E1. apply Ascii.eqb_neq in E1. congruence.
        * change (":/" +:+ ?r) with (String ":" (String "/" r)). simpl PyStr.chars.
          apply not_elem_of_cons. split; [done|].
          apply not_elem_of_cons. split; [done|]. by apply replace_char_gone.
      + by apply replace_char_gone. }
  split; [|split; [done|split; [apply parse_project_name_plain|]]].
  - unfold _parse_project_name.
    destruct (PyStr.startswith_char "-" dir_name) eqn:E1.
    + destruct dir_name as [|c1 s1]; [done|].
      rewrite length_append, length_replace_char. done.
    + destruct (Nat.ltb 2 (String.length dir_name) &&
                String.eqb (PyStr.slice 1 3 dir_name) "--") eqn:E2.
      * apply andb_true_iff in E2 as [E2 _]. apply Nat.ltb_lt in E2.
        destruct dir_name as [|c1 [|c2 [|c3 s3]]]; simpl in E2; try lia.
        rewrite slice_to_1, !length_append, length_replace_char. done.
      * apply length_replace_char.
  - by apply parse_project_name_plain.
Qed.

Example parse_unix_name : _parse_project_name "-home-user-app" = "/home/user/app".
Proof. reflexivity. Qed.

Example parse_windows_name :
  _parse_project_name "D--github-repos-personal-my-portfolio"
  = "D:/github/repos/personal/my/portfolio".
Proof. reflexivity. Qed.

Example parse_short_name : _parse_project_name "a--" = "a:/".
Proof. reflexivity. Qed.

(** ** The tree of the timeline panel *)















(** A checkpoint forked from another session is a top-level item. *)
Example refresh_timeline_forked :
  fst (refresh_timeline (Some "s2") Demo.branched) =
    Ret {| top_level := [MkItem 0 (Demo.cp "F" "s2" "m2" (Some "B") (Some "fork")) []];
           checkpoint_items := {[ "F" := 0 ]};
           branch_set := {[ "fork" ]} |}.
Proof. vm_compute. reflexivity. Qed.

Example refresh_timeline_nested :
  top_level <$> (match fst (refresh_timeline (Some "s1") Demo.branched) with
                 | Ret w => Some w
                 | Raise _ => None
                 end) =
    Some [MkItem 0 (Demo.cp "A" "s1" "m1" None (Some "main"))
            [MkItem 1 (Demo.cp "B" "s1" "m2" (Some "A") (Some "dev")) [];
             MkItem 2 (Demo.cp "C" "s1" "m3" (Some "A") (Some "dev")) []]].
Proof. vm_compute. reflexivity. Qed.

(** ** The order of the index *)

(** [parents_earlier] by the places of the list: what stands before a
    checkpoint holds its parent. *)
Lemma parents_earlier_split (cps : list Checkpoint) :
  parents_earlier cps <->
  forall l1 c l2 p, cps = l1 ++ c :: l2 -> parent_checkpoint_id c = Some p ->
    exists c', c' ∈ l1 /\ checkpoint_id c' = p.
Proof.
  split.
  - intros H l1 c l2 p -> Hp.
    destruct (H (length l1) c p) as (j & c' & Hj & Hc' & Hid); [|done|].
    + by rewrite list_lookup_middle.
    + exists c'. split; [|done]. rewrite lookup_app_l in Hc' by done.
      by eapply list_elem_of_lookup_2.
  - intros H i c p Hi Hp.
    destruct (H (take i cps) c (drop (S i) cps) p) as (c' & Hc' & Hid); [|done|].
    + by rewrite take_drop_middle.
    + apply elem_of_take in Hc' as (j & Hj & Hlt). by exists j, c'.
Qed.

Lemma fmap_filter_split {A B : Type} (f : A -> B) (P : A -> Prop)
    `{forall x, Decision (P x)} (l : list A) (l1' l2' : list B) (y : B) :
  f <$> filter P l = l1' ++ y :: l2' ->
  exists l1 x l2, l = l1 ++ x :: l2 /\ P x /\ y = f x /\
    l1' = f <$> filter P l1 /\ l2' = f <$> filter P l2.
Proof.
  revert l1'. induction l as [|a l IH]; intros l1' Heq.
  - by destruct l1'.
  - rewrite filter_cons in Heq. destruct (decide (P a)) as [Ha|Ha].
    + rewrite fmap_cons in Heq. destruct l1' as [|b l1'].
      * injection Heq as <- <-. exists [], a, l. by rewrite filter_nil.
      * injection Heq as <- Heq.
        destruct (IH _ Heq) as (l1 & x & l2 & -> & Hx & -> & -> & ->).
        exists (a :: l1), x, l2. rewrite filter_cons, decide_True by done. done.
    + destruct (IH _ Heq) as (l1 & x & l2 & -> & Hx & -> & -> & ->).
      exists (a :: l1), x, l2. rewrite filter_cons, decide_False by done. done.
Qed.

Lemma NoDup_ids_filter (P : Checkpoint -> Prop) `{forall x, Decision (P x)}
    (cps : list Checkpoint) :
  NoDup (checkpoint_id <$> cps) -> NoDup (checkpoint_id <$> filter P cps).
Proof.
  induction cps as [|c cps IH]; [done|]. rewrite fmap_cons, NoDup_cons.
  intros [Hc Hnd]. rewrite filter_cons. destruct (decide (P c)); [|by apply IH].
  rewrite fmap_cons. apply NoDup_cons. split; [|by apply IH].
  intros (x & Hid & Hx)%list_elem_of_fmap. apply Hc. apply list_elem_of_fmap.
  exists x. split; [done|]. by apply list_elem_of_filter in Hx as [_ ?].
Qed.

(** X29.  Creation keeps the index in order: when [create_checkpoint]
    returns on a store whose index could be seen and whose checkpoints
    had distinct ids, each parent reference naming a checkpoint that
    stands earlier in the index, for a new id and a parent that is
    [None] or the id of a checkpoint of the index (as the panels and
    [fork_session] pass it), it leaves an index of the same kind; the
    checkpoints from before keep their places and the new one stands
    last. *)
Theorem create_checkpoint_keeps_index_in_order (sid : string) (session_path : PyPath.Path)
    (uuid name0 description0 : string) (parent branch : option string)
    (new_id : string) (now : Z) (m m' : Manager) (c : Checkpoint)
    (cps : list Checkpoint) :
  index_view m = Some cps ->
  NoDup (checkpoint_id <$> cps) -> parents_earlier cps ->
  (forall c, c ∈ cps -> checkpoint_id c <> new_id) ->
  (forall p, parent = Some p -> exists c, c ∈ cps /\ checkpoint_id c = p) ->
  create_checkpoint sid session_path uuid name0 description0 parent branch new_id now m
    = (Ret c, m') ->
  let cp := mkCheckpoint new_id sid name0 description0 now uuid parent branch in
  index_view m' = Some (cps ++ [cp]) /\
  NoDup (checkpoint_id <$> (cps ++ [cp])) /\
  parents_earlier (cps ++ [cp]).
Proof.
  intros Hv Hnd Hpe Hfresh Hparent H cp.
  apply create_checkpoint_returned in H as (cps' & i & Hv0 & _ & _ & -> & ->).
  rewrite Hv in Hv0. injection Hv0 as <-.
  split; [done|]. split.
  - rewrite fmap_app. apply NoDup_app. split; [done|]. split; [|apply NoDup_singleton].
    intros x (c & Hx & Hc)%list_elem_of_fmap Hx'%list_elem_of_singleton.
    apply (Hfresh c Hc). by rewrite <- Hx, Hx'.
  - intros j c p Hj Hp. apply lookup_app_Some in Hj as [Hj|[Hge Hj]].
    + destruct (Hpe j c p Hj Hp) as (j' & c' & Hlt & Hc' & Hid).
      exists j', c'. split; [done|]. split; [|done]. by apply lookup_app_l_Some.
    + destruct (j - length cps) as [|?] eqn:E; simpl in Hj; [|done]. injection Hj as <-.
      destruct (Hparent p Hp) as (c' & [j' Hc']%list_elem_of_lookup & Hid).
      exists j', c'. split; [apply lookup_lt_Some in Hc'; lia|].
      split; [|done]. by apply lookup_app_l_Some.
Qed.

(** X30.  Deletion keeps the index in order: when [delete_checkpoint],
    for an id that is one path component, returns [True] on a store
    whose index could be seen and whose checkpoints had distinct ids,
    each parent reference naming a checkpoint that stands earlier in the
    index, it leaves an index of the same kind, one checkpoint shorter:
    the ids are distinct still, and every parent reference, those set
    anew to the parent of the deleted checkpoint among them, names a
    checkpoint that stands earlier. *)
Theorem delete_checkpoint_keeps_index_in_order (id : string) (m m' : Manager)
    (cps : list Checkpoint) :
  PyPath.component id = true ->
  index_view m = Some cps ->
  NoDup (checkpoint_id <$> cps) -> parents_earlier cps ->
  delete_checkpoint id m = (Ret true, m') ->
  exists cps',
    index_view m' = Some cps' /\
    S (length cps') = length cps /\
    NoDup (checkpoint_id <$> cps') /\
    parents_earlier cps'.
Proof.
  intros _ Hv Hnd Hpe H.
  destruct (delete_checkpoint_true _ _ _ _ Hv H) as (k & deleted & Hf & Hv' & _).
  destruct (find_checkpoint_Some _ _ _ _ Hf) as (Hk & Hid & Hin).
  set (g := parent_checkpoint_id deleted) in *.
  set (cps' := reparented id g <$> filter (fun c => checkpoint_id c <> id) cps) in *.
  exists cps'. split; [done|].
  assert (Hids : checkpoint_id <$> cps'
                 = checkpoint_id <$> filter (fun c => checkpoint_id c <> id) cps).
  { unfold cps'. rewrite <- list_fmap_compose. apply list_fmap_ext.
    intros j c _. simpl. apply reparented_id. }
  split; [|split].
  - unfold cps'. rewrite length_fmap.
    rewrite <- (take_drop_middle _ _ _ Hk) in Hnd |- *.
    rewrite fmap_app, fmap_cons in Hnd.
    apply NoDup_app in Hnd as (_ & Hbefore & Hafter).
    apply NoDup_cons in Hafter as [Hafter _].
    rewrite filter_app, filter_cons, decide_False by (by intros ?).
    rewrite !length_app. simpl.
    assert (Hkeep : forall l : list Checkpoint,
              (forall c, c ∈ l -> checkpoint_id c <> id) ->
              filter (fun c => checkpoint_id c <> id) l = l).
    { intros l Hl. induction l as [|c l IH]; [done|].
      rewrite filter_cons, decide_True by (apply Hl; left).
      f_equal. apply IH. intros c' Hc'. apply Hl. by right. }
    rewrite !Hkeep; [lia| |].
    + intros c Hc Hcid. apply Hafter. apply list_elem_of_fmap. exists c.
      split; [congruence|done].
    + intros c Hc Hcid. apply (Hbefore (checkpoint_id c)).
      * apply list_elem_of_fmap. by exists c.
      * rewrite Hcid, <- Hid. left.
  - rewrite Hids. by apply NoDup_ids_filter.
  - apply parents_earlier_split. intros l1' c' l2' p Hsplit Hp.
    apply fmap_filter_split in Hsplit as (l1 & c & l2 & Hcps & Hc & -> & -> & ->).
    pose proof (proj1 (parents_earlier_split cps) Hpe) as Hpe'.
    assert (Hstay : forall c'', c'' ∈ l1 -> checkpoint_id c'' = p -> p <> id ->
              exists x, x ∈ reparented id g <$> filter (fun c => checkpoint_id c <> id) l1
                        /\ checkpoint_id x = p).
    { intros c'' Hc'' Hcid Hne. exists (reparented id g c''). split.
      - apply list_elem_of_fmap. exists c''. split; [done|].
        apply list_elem_of_filter. split; [congruence|done].
      - by rewrite reparented_id. }
    unfold reparented in Hp. case_decide as Hpar.
    + simpl in Hp.
      destruct (Hpe' l1 c l2 id Hcps Hpar) as (d & Hd & Hdid).
      assert (d = deleted) as ->.
      { apply (same_id cps); try done; [|congruence].
        rewrite Hcps. apply elem_of_app. by left. }
      apply list_elem_of_split in Hd as (l1a & l1b & ->).
      rewrite <- app_assoc in Hcps. simpl in Hcps.
      destruct (Hpe' l1a deleted (l1b ++ c :: l2) p Hcps Hp) as (c'' & Hc'' & Hcid).
      apply (Hstay c''); [apply elem_of_app; by left|done|].
      intros ->. rewrite Hcps, fmap_app, fmap_cons in Hnd.
      apply NoDup_app in Hnd as (_ & Hbefore & _).
      apply (Hbefore (checkpoint_id c'')).
      * apply list_elem_of_fmap. by exists c''.
      * rewrite Hcid, <- Hdid. left.
    + destruct (Hpe' l1 c l2 p Hcps Hp) as (c'' & Hc'' & Hcid).
      apply (Hstay c''); [done|done|]. intros ->. done.
Qed.

End CheckpointManager.

(** ** The timeline at every depth of recursion *)

(** X19.  On a visible index where the checkpoints of the session have
    distinct ids and each parent reference among them names a checkpoint
    of the session that stands earlier in the index: whenever
    [get_timeline] returns, at whatever depth of recursion the
    interpreter allows, its forest holds every checkpoint of the session
    exactly once (the nodes of the forest are a rearrangement of the
    checkpoints, and their number is [total_checkpoints]); and it does
    return at every depth from some depth on. *)
Theorem get_timeline_shows_every_checkpoint (sid : string) (m : Manager)
    (all : list Checkpoint) :
  index_view m = Some all ->
  let cps := of_session (Some sid) all in
  NoDup (checkpoint_id <$> cps) -> parents_earlier cps ->
  (forall depth tl m',
     get_timeline depth sid m = (Ret tl, m') ->
     forest_nodes (tree tl) ≡ₚ cps /\
     forest_count (tree tl) = total_checkpoints tl /\
     total_checkpoints tl = length cps) /\
  exists enough, forall depth, enough <= depth ->
    exists tl, get_timeline depth sid m = (Ret tl, loaded all m).
Proof.
  intros Hv cps Hnd Hpe. split.
  - intros depth tl m' H. rewrite (get_timeline_view depth sid m all Hv) in H.
    fold cps in H.
    destruct (map_outcome _ _) as [forest|e] eqn:Hforest; [|done].
    injection H as <- <-. simpl.
    pose proof (forest_complete depth cps forest Hnd Hpe Hforest) as Hperm.
    split; [done|]. unfold forest_count. by rewrite Hperm.
  - exists (length cps). intros depth Hlen.
    rewrite (get_timeline_view depth sid m all Hv). fold cps.
    destruct (forest_returns depth cps Hnd Hlen) as [forest ->]. eauto.
Qed.

(** X20.  On a visible index where the checkpoints of the session have
    distinct ids, parent references cannot make [get_timeline] recurse
    without end, whatever chains or circles they form: it returns at
    every depth of recursion from some depth on.  And whenever it
    returns, no checkpoint stands twice in its forest, and the forest
    holds exactly the checkpoints that descend, through parent
    references to checkpoints of the session, from a checkpoint without
    parent; a checkpoint whose chain of parents leaves the session, or
    runs in a circle, is not shown. *)
Theorem get_timeline_shows_rooted_checkpoints (sid : string) (m : Manager)
    (all : list Checkpoint) :
  index_view m = Some all ->
  let cps := of_session (Some sid) all in
  NoDup (checkpoint_id <$> cps) ->
  (forall depth tl m',
     get_timeline depth sid m = (Ret tl, m') ->
     total_checkpoints tl = length cps /\
     NoDup (forest_nodes (tree tl)) /\
     forall x, x ∈ forest_nodes (tree tl) <-> rooted cps x) /\
  exists enough, forall depth, enough <= depth ->
    exists tl, get_timeline depth sid m = (Ret tl, loaded all m).
Proof.
  intros Hv cps Hnd. split.
  - intros depth tl m' H. rewrite (get_timeline_view depth sid m all Hv) in H.
    fold cps in H.
    destruct (map_outcome _ _) as [forest|e] eqn:Hforest; [|done].
    injection H as <- <-. simpl. split; [done|].
    exact (forest_rooted depth cps forest Hnd Hforest).
  - exists (length cps). intros depth Hlen.
    rewrite (get_timeline_view depth sid m all Hv). fold cps.
    destruct (forest_returns depth cps Hnd Hlen) as [forest ->]. eauto.
Qed.

(** ** The operations on the example store *)

(** C1.  Forking checkpoint [B] of session [s1] into session [s2] records
    one checkpoint for [s2], whose parent is [B]; the timeline of [s2]
    then counts one checkpoint and shows none: its forest is empty, for
    [get_timeline] takes as roots only the checkpoints without a parent
    reference. *)
Theorem get_timeline_omits_forked_checkpoint :
  let forked :=
    snd (fork_session Demo.loads Demo.dumps Demo.recursion_limit
           "B" "s2" Demo.project "fork" "F" 1 Demo.two_checkpoints) in
  fst (fork_session Demo.loads Demo.dumps Demo.recursion_limit
         "B" "s2" Demo.project "fork" "F" 1 Demo.two_checkpoints)
    = Ret (Some (Demo.project ++ ["s2.jsonl"])) /\
  fst (get_checkpoints Demo.recursion_limit (Some "s2") false forked)
    = Ret [mkCheckpoint "F" "s2" "Fork from checkpoint B"
             "Forked from checkpoint: checkpoint B" 1 "m2" (Some "B") (Some "fork")] /\
  fst (get_timeline Demo.recursion_limit "s2" forked)
    = Ret {| tl_session_id := "s2"; total_checkpoints := 1;
             branches := ["fork"]; tree := [] |} /\
  forest_count [] <> 1.
Proof. vm_compute. repeat split; try reflexivity. discriminate. Qed.

(** C7.  Two checkpoints of one session created on the same branch: the
    [branches] of the timeline names that branch twice. *)
Theorem get_timeline_branches_repeat :
  let m1 :=
    snd (create_checkpoint Demo.loads Demo.dumps Demo.recursion_limit
           "s1" Demo.live "m1" "one" "" None (Some "dev") "P" 1 Demo.empty_index) in
  let m2 :=
    snd (create_checkpoint Demo.loads Demo.dumps Demo.recursion_limit
           "s1" Demo.live "m2" "two" "" (Some "P") (Some "dev") "Q" 2 m1) in
  exists tl,
    fst (get_timeline Demo.recursion_limit "s1" m2) = Ret tl /\
    total_checkpoints tl = 2 /\
    branches tl = ["dev"; "dev"] /\
    ~ NoDup (branches tl).
Proof.
  eexists. split; [vm_compute; reflexivity|]. split; [reflexivity|].
  split; [reflexivity|]. simpl. intros H. apply NoDup_cons in H as [H _].
  apply H. left.
Qed.

Lemma restore_checkpoint_no_index_witness :
  restore_checkpoint Demo.recursion_limit "A" Demo.live Demo.fresh
    = (Raise RecursionError, Demo.fresh).
Proof.
  exact (restore_checkpoint_no_index Demo.recursion_limit "A" Demo.live Demo.fresh
           eq_refl eq_refl).
Defined.

Lemma create_checkpoint_no_log_no_index_witness :
  create_checkpoint Demo.loads Demo.dumps Demo.recursion_limit
    "s9" (Demo.project ++ ["s9.jsonl"]) "m1" "first" "" None None "N" 1 Demo.fresh
    = (Raise RecursionError, Demo.fresh).
Proof.
  apply (create_checkpoint_no_log_no_index Demo.loads Demo.dumps Demo.recursion_limit
           "s9" (Demo.project ++ ["s9.jsonl"]) "m1" "first" "" None None "N" 1 Demo.fresh);
    reflexivity.
Defined.



Lemma restore_twice_backup_is_latest_witness :
  let m := Demo.two_checkpoints in
  let m1 := snd (restore_checkpoint Demo.recursion_limit "A" Demo.live m) in
  let m2 := snd (restore_checkpoint Demo.recursion_limit "B" Demo.live m1) in
  (exists backup_path live1,
     backup_path_of Demo.live = Some backup_path /\
     files m1 !! Demo.live = Some live1 /\
     files m2 !! backup_path = Some live1 /\
     forall live0, files m !! Demo.live = Some live0 ->
       files m1 !! backup_path = Some live0) /\
  files m1 !! (Demo.project ++ ["s1.jsonl.backup"]) = Some Demo.log /\
  files m2 !! (Demo.project ++ ["s1.jsonl.backup"]) = Some [Demo.dumps Demo.r1].
Proof.
  intros m m1 m2. split.
  - apply (restore_twice_backup_is_latest Demo.recursion_limit "A" "B" Demo.live m m1 m2);
      vm_compute; reflexivity.
  - vm_compute. split; reflexivity.
Defined.

(** The index [X <- X], [C <- X] satisfies the assumption of C3, and
    deleting [X] succeeds; yet [C], re-pointed to the former parent of [X],
    which is [X], is left with a reference that names no checkpoint. *)
Lemma delete_checkpoint_self_parent_dangles :
  let X := Demo.cp "X" "s1" "m1" (Some "X") None in
  let C := Demo.cp "C" "s1" "m2" (Some "X") None in
  let m' := snd (delete_checkpoint Demo.recursion_limit "X" Demo.self_parent) in
  index_view Demo.self_parent = Some [X; C] /\
  parents_resolve [X; C] /\
  delete_checkpoint Demo.recursion_limit "X" Demo.self_parent = (Ret true, m') /\
  index_view m' = Some [C] /\
  ~ parents_resolve [C].
Proof.
  intros X C m'. split; [reflexivity|]. split; [|split; [|split]].
  - intros c p Hc Hp. exists X. split; [left|].
    apply elem_of_cons in Hc as [->|Hc]; [by injection Hp as <-|].
    apply list_elem_of_singleton in Hc as ->. by injection Hp as <-.
  - vm_compute. reflexivity.
  - vm_compute. reflexivity.
  - intros H. destruct (H C "X") as (c' & Hc' & Hid); [left|reflexivity|].
    apply list_elem_of_singleton in Hc' as ->. discriminate.
Qed.

Lemma delete_checkpoint_reparents_witness :
  let A := Demo.cp "A" "s1" "m1" None None in
  let B := Demo.cp "B" "s1" "m2" (Some "A") None in
  let C := Demo.cp "C" "s1" "m3" (Some "B") None in
  let m' := snd (delete_checkpoint Demo.recursion_limit "B" Demo.chain) in
  exists cps',
    index_view m' = Some cps' /\
    cps' = reparented "B" (Some "A") <$> filter (fun c => checkpoint_id c <> "B") [A; B; C] /\
    (forall c, c ∈ [A; B; C] -> checkpoint_id c <> "B" ->
       parent_checkpoint_id c = Some "B" -> set_parent (Some "A") c ∈ cps') /\
    (forall c, c ∈ cps' -> checkpoint_id c <> "B") /\
    parents_resolve cps'.
Proof.
  intros A B C m'.
  apply (delete_checkpoint_reparents Demo.recursion_limit "B" Demo.chain m' [A; B; C] 1 B).
  - reflexivity.
  - intros c p Hc Hp.
    apply elem_of_cons in Hc as [->|Hc]; [discriminate|].
    apply elem_of_cons in Hc as [->|Hc].
    { injection Hp as <-. exists A. split; [left|reflexivity]. }
    apply list_elem_of_singleton in Hc as ->.
    injection Hp as <-. exists B. split; [right; left|reflexivity].
  - vm_compute. reflexivity.
  - discriminate.
  - vm_compute. reflexivity.
Defined.



(** The line of a two-letter message ends in three dots, which the first
    200 characters of its content do not account for. *)
Lemma display_line_keeps_ellipsis :
  project_messages Demo.py_str [Demo.r1] [] = Ret ["[user]: hi..."] /\
  "[user]: hi..." <> "[" +:+ "user" +:+ "]: " +:+ PyStr.slice_to 200 "hi".
Proof. split; [reflexivity|]. vm_compute. discriminate. Qed.

Lemma project_messages_lines_witness :
  let messages := [Demo.r1; Demo.r2; Demo.r3] in
  let lines := ["[user]: hi..."; "[user]: bye..."] in
  project_messages Demo.py_str messages [] = Ret lines /\
  lines = concat (map (projected_lines Demo.py_str) messages) /\
  projected_lines Demo.py_str Demo.r1 =
    ["[" +:+ "user" +:+ "]: " +:+ PyStr.slice_to 200 "hi" +:+ "..."] /\
  projected_lines Demo.py_str Demo.r2 = [].
Proof.
  intros messages lines.
  destruct (project_messages_lines Demo.py_str messages lines eq_refl) as (H1 & H2 & H3).
  split; [reflexivity|]. split; [exact H1|]. split.
  - eapply (H2 Demo.r1); [left|reflexivity..].
  - eapply (H3 Demo.r2); [right; left|reflexivity..].
Defined.



(** An [index.json] with an entry that [from_dict] rejects:
    [create_checkpoint] writes the snapshot, then raises the exception of
    the reading, and records nothing. *)
Example create_checkpoint_on_rejected_index :
  let r :=
    create_checkpoint Demo.loads Demo.dumps Demo.recursion_limit
      "s1" Demo.live "m2" "second" "" None None "N" 1 Demo.rejected_index in
  fst r = Raise TypeError /\
  checkpoints_file (snd r) = Some (Unloadable TypeError) /\
  _checkpoints (snd r) = None /\
  files (snd r) !! Demo.snapshot "N" = Some [Demo.dumps Demo.r1; Demo.dumps Demo.r2].
Proof. vm_compute. repeat split; reflexivity. Qed.

(** ** The further properties on the example store *)

(** Tactic: a call returns the given value and leaves the state it
    leaves; the value is found by evaluation. *)
Ltac returns_with_state :=
  match goal with
  | |- ?c = (?o, snd ?c) =>
      let H := fresh "H" in
      assert (H : fst c = o) by (vm_compute; reflexivity);
      destruct c; simpl in H |- *; subst; reflexivity
  end.

Lemma save_checkpoints_never_creates_index_witness :
  _save_checkpoints Demo.recursion_limit [Demo.cp "A" "s1" "m1" None None] Demo.fresh
    = (Raise RecursionError, Demo.fresh) /\
  _ensure_dir_exists Demo.recursion_limit Demo.fresh = (Raise RecursionError, Demo.fresh).
Proof.
  exact (save_checkpoints_never_creates_index Demo.recursion_limit
           [Demo.cp "A" "s1" "m1" None None] Demo.fresh eq_refl).
Defined.

Lemma get_checkpoints_serves_cache_witness :
  let A := Demo.cp "A" "s1" "m1" None None in
  let B := Demo.cp "B" "s1" "m2" (Some "A") None in
  let m' := snd (get_checkpoints Demo.recursion_limit (Some "s1") false
                   Demo.two_checkpoints) in
  exists all,
    [A; B] = of_session (Some "s1") all /\
    (forall (disk : option IndexFile) (sid' : option string),
       get_checkpoints Demo.recursion_limit sid' false (set_checkpoints_file disk m') =
         (Ret (of_session sid' all), set_checkpoints_file disk m')) /\
    (forall (i : IndexFile) (sid' : option string),
       get_checkpoints Demo.recursion_limit sid' true (set_checkpoints_file (Some i) m') =
         match load_index (Some i) with
         | Ret fresh =>
             (Ret (of_session sid' fresh), loaded fresh (set_checkpoints_file (Some i) m'))
         | Raise e => (Raise e, set_checkpoints_file (Some i) m')
         end) /\
    (forall sid' : option string,
       get_checkpoints Demo.recursion_limit sid' true (set_checkpoints_file None m') =
         (Raise RecursionError, set_checkpoints_file None m')) /\
    (forall disk, _checkpoints (set_checkpoints_file disk m') = Some all).
Proof.
  apply (get_checkpoints_serves_cache Demo.recursion_limit (Some "s1") false
           Demo.two_checkpoints).
  returns_with_state.
Defined.

(** On the example store: after a first reading, an [index.json] that
    came to hold an entry [from_dict] rejects makes the refresh raise, and
    the list read before is still served. *)
Example get_checkpoints_refresh_rejected :
  let m' := snd (get_checkpoints Demo.recursion_limit None false Demo.two_checkpoints) in
  let damaged := set_checkpoints_file (Some (Unloadable TypeError)) m' in
  get_checkpoints Demo.recursion_limit None true damaged = (Raise TypeError, damaged) /\
  fst (get_checkpoints Demo.recursion_limit None false damaged)
    = Ret [Demo.cp "A" "s1" "m1" None None; Demo.cp "B" "s1" "m2" (Some "A") None] /\
  fst (get_checkpoints Demo.recursion_limit None false Demo.rejected_index)
    = Raise TypeError.
Proof. vm_compute. repeat split; reflexivity. Qed.

Lemma create_checkpoint_overwrites_corrupt_index_witness :
  let cp := mkCheckpoint "N" "s1" "first" "" 1 "m2" None None in
  let m' :=
    snd (create_checkpoint Demo.loads Demo.dumps Demo.recursion_limit
           "s1" Demo.live "m2" "first" "" None None "N" 1 Demo.corrupt_index) in
  get_checkpoints Demo.recursion_limit None false Demo.corrupt_index
    = (Ret [], loaded [] Demo.corrupt_index) /\
  cp = cp /\
  checkpoints_file m' = Some (Entries [cp]) /\
  _checkpoints m' = Some [cp].
Proof.
  apply (create_checkpoint_overwrites_corrupt_index Demo.loads Demo.dumps
           Demo.recursion_limit "s1" Demo.live "m2" "first" "" None None "N" 1
           Demo.corrupt_index); [reflexivity|reflexivity|].
  returns_with_state.
Defined.


Lemma get_checkpoint_first_match_witness :
  let A := Demo.cp "A" "s1" "m1" None None in
  let B := Demo.cp "B" "s1" "m2" (Some "A") None in
  exists r,
    get_checkpoint Demo.recursion_limit "B" Demo.two_checkpoints
      = (Ret r, loaded [A; B] Demo.two_checkpoints) /\
    match r with
    | Some cp =>
        exists k, [A; B] !! k = Some cp /\ checkpoint_id cp = "B" /\
          forall j cp', j < k -> [A; B] !! j = Some cp' -> checkpoint_id cp' <> "B"
    | None => forall cp, cp ∈ [A; B] -> checkpoint_id cp <> "B"
    end.
Proof.
  exact (get_checkpoint_first_match Demo.recursion_limit "B" Demo.two_checkpoints _ eq_refl).
Defined.

(** The ids of the two checkpoints of the example store differ from a
    third one. *)
Lemma two_checkpoints_fresh (id : string) (c : Checkpoint) :
  id <> "A" -> id <> "B" ->
  c ∈ [Demo.cp "A" "s1" "m1" None None; Demo.cp "B" "s1" "m2" (Some "A") None] ->
  checkpoint_id c <> id.
Proof.
  intros HA HB Hc.
  apply elem_of_cons in Hc as [->|Hc]; [simpl; congruence|].
  apply list_elem_of_singleton in Hc as ->. simpl. congruence.
Qed.

Lemma create_then_get_checkpoint_witness :
  let cp := mkCheckpoint "N" "s1" "third" "" 2 "m3" (Some "B") None in
  let m' :=
    snd (create_checkpoint Demo.loads Demo.dumps Demo.recursion_limit
           "s1" Demo.live "m3" "third" "" (Some "B") None "N" 2 Demo.two_checkpoints) in
  cp = cp /\
  get_checkpoint Demo.recursion_limit "N" m' = (Ret (Some cp), m') /\
  forall id, id <> "N" ->
    fst (get_checkpoint Demo.recursion_limit id m')
    = fst (get_checkpoint Demo.recursion_limit id Demo.two_checkpoints).
Proof.
  apply (create_then_get_checkpoint Demo.loads Demo.dumps Demo.recursion_limit
           "s1" Demo.live "m3" "third" "" (Some "B") None "N" 2 Demo.two_checkpoints _ _
           [Demo.cp "A" "s1" "m1" None None; Demo.cp "B" "s1" "m2" (Some "A") None]).
  - reflexivity.
  - intros c Hc. by apply (two_checkpoints_fresh "N").
  - returns_with_state.
Defined.

Lemma delete_checkpoint_removes_only_its_directory_witness :
  let m := Demo.two_checkpoints in
  let m' := snd (delete_checkpoint Demo.recursion_limit "A" m) in
  let data_dir := PyPath.joinpath (checkpoints_dir m) "A" in
  checkpoints_dir m' = checkpoints_dir m /\
  (forall q, PyPath.below data_dir q = true -> files m' !! q = None) /\
  (forall q, PyPath.below data_dir q = false -> files m' !! q = files m !! q) /\
  files m' !! snapshot_path (checkpoints_dir m) "A" = None /\
  (forall id', id' <> "A" ->
     files m' !! snapshot_path (checkpoints_dir m) id' =
     files m !! snapshot_path (checkpoints_dir m) id').
Proof.
  apply (delete_checkpoint_removes_only_its_directory Demo.recursion_limit "A"
           Demo.two_checkpoints); [reflexivity|vm_compute; reflexivity|].
  returns_with_state.
Defined.

Lemma delete_checkpoint_unknown_id_witness :
  let A := Demo.cp "A" "s1" "m1" None None in
  let B := Demo.cp "B" "s1" "m2" (Some "A") None in
  let m := Demo.two_checkpoints in
  delete_checkpoint Demo.recursion_limit "Z" m = (Ret false, loaded [A; B] m) /\
  files (loaded [A; B] m) = files m /\
  checkpoints_file (loaded [A; B] m) = checkpoints_file m /\
  index_view (loaded [A; B] m) = Some [A; B].
Proof.
  apply (delete_checkpoint_unknown_id Demo.recursion_limit "Z" Demo.two_checkpoints);
    [reflexivity|].
  intros c Hc. repeat (apply elem_of_cons in Hc as [->|Hc]; [discriminate|]).
  by apply elem_of_nil in Hc.
Defined.

(** No file of the example store lies in the directory of a checkpoint
    other than [A] and [B]. *)
Lemma two_checkpoints_clean (id : string) (q : PyPath.Path) :
  id <> "A" -> id <> "B" ->
  is_Some (files Demo.two_checkpoints !! q) ->
  PyPath.below (PyPath.joinpath Demo.checkpoints id) q = false.
Proof.
  intros HA HB [x Hq]. unfold Demo.two_checkpoints in Hq. simpl in Hq.
  apply lookup_insert_Some in Hq as [[<- _]|[_ Hq]].
  { apply bool_decide_eq_false_2. cbv. intros [= H]. by subst id. }
  apply lookup_insert_Some in Hq as [[<- _]|[_ Hq]].
  { apply bool_decide_eq_false_2. cbv. intros [= H]. by subst id. }
  apply lookup_singleton_Some in Hq as [<- _].
  apply bool_decide_eq_false_2. cbv. intros H. discriminate H.
Qed.

Lemma create_then_delete_checkpoint_witness :
  let A := Demo.cp "A" "s1" "m1" None None in
  let B := Demo.cp "B" "s1" "m2" (Some "A") None in
  let m := Demo.two_checkpoints in
  let m' :=
    snd (create_checkpoint Demo.loads Demo.dumps Demo.recursion_limit
           "s1" Demo.live "m3" "third" "" (Some "B") None "N" 2 m) in
  delete_checkpoint Demo.recursion_limit "N" m' = (Ret true, saved [A; B] m) /\
  files (saved [A; B] m) = files m /\
  index_view (saved [A; B] m) = Some [A; B] /\
  checkpoints_file (saved [A; B] m) = Some (Entries [A; B]).
Proof.
  apply (create_then_delete_checkpoint Demo.loads Demo.dumps Demo.recursion_limit
           "s1" Demo.live "m3" "third" "" (Some "B") None "N" 2 Demo.two_checkpoints _
           (mkCheckpoint "N" "s1" "third" "" 2 "m3" (Some "B") None)).
  - reflexivity.
  - reflexivity.
  - intros c Hc. by apply (two_checkpoints_fresh "N").
  - intros c Hc.
    apply elem_of_cons in Hc as [->|Hc]; [discriminate|].
    apply list_elem_of_singleton in Hc as ->. discriminate.
  - intros q Hq. by apply (two_checkpoints_clean "N").
  - returns_with_state.
Defined.

Lemma restore_checkpoint_false_writes_nothing_witness :
  let m := Demo.two_checkpoints in
  let m' := snd (restore_checkpoint Demo.recursion_limit "Z" Demo.live m) in
  files m' = files m /\
  checkpoints_file m' = checkpoints_file m /\
  checkpoints_dir m' = checkpoints_dir m /\
  exists cps,
    index_view m = Some cps /\
    (find_checkpoint "Z" cps = None \/
     files m !! snapshot_path (checkpoints_dir m) "Z" = None).
Proof.
  apply (restore_checkpoint_false_writes_nothing Demo.recursion_limit "Z" Demo.live
           Demo.two_checkpoints).
  returns_with_state.
Defined.


(** On the example store the session file existed: the restore of [A]
    left the snapshot of [A] in it and the log in its backup. *)
Example restore_checkpoint_backup :
  let m' := snd (restore_checkpoint Demo.recursion_limit "A" Demo.live Demo.two_checkpoints) in
  files m' !! Demo.live = Some [Demo.dumps Demo.r1] /\
  files m' !! (Demo.project ++ ["s1.jsonl.backup"]) = Some Demo.log.
Proof. vm_compute. split; reflexivity. Qed.

Lemma create_then_restore_checkpoint_witness :
  let m' :=
    snd (create_checkpoint Demo.loads Demo.dumps Demo.recursion_limit
           "s1" Demo.live "m2" "second" "" (Some "A") None "N" 1 Demo.two_checkpoints) in
  exists m'',
    restore_checkpoint Demo.recursion_limit "N" Demo.live m' = (Ret true, m'') /\
    files m'' !! Demo.live =
      Some (Demo.dumps <$> through_first (record_has_uuid "m2")
                             (parseable_records Demo.loads Demo.log)) /\
    files m'' !! (Demo.project ++ ["s1.jsonl.backup"]) = Some Demo.log.
Proof.
  apply (create_then_restore_checkpoint Demo.loads Demo.dumps Demo.recursion_limit
           "s1" Demo.live "m2" "second" "" (Some "A") None "N" 1 Demo.two_checkpoints _
           (mkCheckpoint "N" "s1" "second" "" 1 "m2" (Some "A") None)).
  - reflexivity.
  - vm_compute. discriminate.
  - reflexivity.
  - vm_compute. discriminate.
  - reflexivity.
  - returns_with_state.
Defined.




Lemma create_then_get_checkpoint_messages_witness :
  let m' :=
    snd (create_checkpoint Demo.loads Demo.dumps Demo.recursion_limit
           "s1" Demo.live "m2" "second" "" (Some "A") None "N" 1 Demo.two_checkpoints) in
  get_checkpoint_messages Demo.loads "N" m' =
    (Ret (filter (fun v => is_chat_record v = true)
            (through_first (record_has_uuid "m2")
               (parseable_records Demo.loads Demo.log))), m') /\
  filter (fun v => is_chat_record v = true)
    (through_first (record_has_uuid "m2") (parseable_records Demo.loads Demo.log))
  = [Demo.r1; Demo.r2].
Proof.
  split; [|vm_compute; reflexivity].
  apply (create_then_get_checkpoint_messages Demo.loads Demo.dumps Demo.recursion_limit
           "s1" Demo.live "m2" "second" "" (Some "A") None "N" 1 Demo.two_checkpoints _
           (mkCheckpoint "N" "s1" "second" "" 1 "m2" (Some "A") None) Demo.log).
  - reflexivity.
  - assert (Hrecs : through_first (record_has_uuid "m2")
                      (parseable_records Demo.loads Demo.log) = [Demo.r1; Demo.r2])
      by (vm_compute; reflexivity).
    rewrite Hrecs. intros v Hv.
    repeat (apply elem_of_cons in Hv as [->|Hv]; [vm_compute; reflexivity|]).
    by apply elem_of_nil in Hv.
  - returns_with_state.
Defined.



Lemma fork_session_records_child_witness :
  let A := Demo.cp "A" "s1" "m1" None None in
  let B := Demo.cp "B" "s1" "m2" (Some "A") None in
  let m' := snd (fork_session Demo.loads Demo.dumps Demo.recursion_limit
                   "B" "s2" Demo.project "fork" "F" 1 Demo.two_checkpoints) in
  exists k source,
    find_checkpoint "B" [A; B] = Some (k, source) /\
    let forked :=
      mkCheckpoint "F" "s2"
        ("Fork from " +:+ name source) ("Forked from checkpoint: " +:+ name source)
        1 (message_uuid source) (Some "B") (Some "fork") in
    index_view m' = Some ([A; B] ++ [forked]) /\
    checkpoints_file m' = Some (Entries ([A; B] ++ [forked])).
Proof.
  apply (fork_session_records_child Demo.loads Demo.dumps Demo.recursion_limit
           "B" "s2" Demo.project "fork" "F" 1 Demo.two_checkpoints _
           (Demo.project ++ ["s2.jsonl"])); [reflexivity|].
  returns_with_state.
Defined.


(** The chain of the example store stands in order. *)
Lemma chain_in_order :
  NoDup (checkpoint_id <$> [Demo.cp "A" "s1" "m1" None None;
                            Demo.cp "B" "s1" "m2" (Some "A") None;
                            Demo.cp "C" "s1" "m3" (Some "B") None]) /\
  parents_earlier [Demo.cp "A" "s1" "m1" None None;
                   Demo.cp "B" "s1" "m2" (Some "A") None;
                   Demo.cp "C" "s1" "m3" (Some "B") None].
Proof.
  split.
  - apply (bool_decide_unpack _). vm_compute. exact I.
  - intros i c p Hi Hp.
    destruct i as [|[|[|i]]]; vm_compute in Hi; try discriminate;
      injection Hi as <-; vm_compute in Hp; try discriminate; injection Hp as <-.
    + exists 0, (Demo.cp "A" "s1" "m1" None None). split; [lia|]. split; reflexivity.
    + exists 1, (Demo.cp "B" "s1" "m2" (Some "A") None). split; [lia|]. split; reflexivity.
Qed.


Lemma get_timeline_shows_every_checkpoint_witness :
  let A := Demo.cp "A" "s1" "m1" None None in
  let B := Demo.cp "B" "s1" "m2" (Some "A") None in
  let C := Demo.cp "C" "s1" "m3" (Some "B") None in
  (forall depth tl m',
     get_timeline depth "s1" Demo.chain = (Ret tl, m') ->
     forest_nodes (tree tl) ≡ₚ of_session (Some "s1") [A; B; C] /\
     forest_count (tree tl) = total_checkpoints tl /\
     total_checkpoints tl = length (of_session (Some "s1") [A; B; C])) /\
  (exists enough, forall depth, enough <= depth ->
     exists tl, get_timeline depth "s1" Demo.chain = (Ret tl, loaded [A; B; C] Demo.chain)) /\
  fst (get_timeline 3 "s1" Demo.chain)
    = Ret {| tl_session_id := "s1"; total_checkpoints := 3; branches := [];
             tree := [Node A [Node B [Node C []]]] |} /\
  fst (get_timeline 2 "s1" Demo.chain) = Raise RecursionError.
Proof.
  intros A B C.
  destruct (get_timeline_shows_every_checkpoint "s1" Demo.chain [A; B; C]) as [H1 H2].
  - reflexivity.
  - exact (proj1 chain_in_order).
  - exact (proj2 chain_in_order).
  - split; [exact H1|]. split; [exact H2|]. vm_compute. split; reflexivity.
Defined.

(** The checkpoints of session [s1] of the branched example, and what
    descends among them from a checkpoint without parent: all three. *)
Lemma branched_ids :
  NoDup (checkpoint_id <$>
           of_session (Some "s1")
             [Demo.cp "A" "s1" "m1" None (Some "main");
              Demo.cp "B" "s1" "m2" (Some "A") (Some "dev");
              Demo.cp "C" "s1" "m3" (Some "A") (Some "dev");
              Demo.cp "F" "s2" "m2" (Some "B") (Some "fork")]).
Proof. apply (bool_decide_unpack _). vm_compute. exact I. Qed.

Lemma get_timeline_shows_rooted_checkpoints_witness :
  let A := Demo.cp "A" "s1" "m1" None (Some "main") in
  let B := Demo.cp "B" "s1" "m2" (Some "A") (Some "dev") in
  let C := Demo.cp "C" "s1" "m3" (Some "A") (Some "dev") in
  let F := Demo.cp "F" "s2" "m2" (Some "B") (Some "fork") in
  let all := [A; B; C; F] in
  (forall depth tl m',
     get_timeline depth "s1" Demo.branched = (Ret tl, m') ->
     total_checkpoints tl = length (of_session (Some "s1") all) /\
     NoDup (forest_nodes (tree tl)) /\
     forall x, x ∈ forest_nodes (tree tl) <-> rooted (of_session (Some "s1") all) x) /\
  (exists enough, forall depth, enough <= depth ->
     exists tl, get_timeline depth "s1" Demo.branched = (Ret tl, loaded all Demo.branched)) /\
  fst (get_timeline 2 "s1" Demo.branched)
    = Ret {| tl_session_id := "s1"; total_checkpoints := 3;
             branches := ["main"; "dev"; "dev"];
             tree := [Node A [Node B []; Node C []]] |}.
Proof.
  intros A B C F all.
  destruct (get_timeline_shows_rooted_checkpoints "s1" Demo.branched all) as [H1 H2].
  - reflexivity.
  - exact branched_ids.
  - split; [exact H1|]. split; [exact H2|]. vm_compute. reflexivity.
Defined.

Lemma get_timeline_follows_parent_references_witness :
  let m := Demo.branched in
  let tl := {| tl_session_id := "s1"; total_checkpoints := 3;
               branches := ["main"; "dev"; "dev"];
               tree := [Node (Demo.cp "A" "s1" "m1" None (Some "main"))
                          [Node (Demo.cp "B" "s1" "m2" (Some "A") (Some "dev")) [];
                           Node (Demo.cp "C" "s1" "m3" (Some "A") (Some "dev")) []]] |} in
  let m' := snd (get_timeline Demo.recursion_limit "s1" m) in
  (forall t, t ∈ tree tl -> parent_checkpoint_id (root_of t) = None) /\
  (forall p x, (p, x) ∈ forest_edges (tree tl) ->
     parent_checkpoint_id x = Some (checkpoint_id p)) /\
  exists cps,
    get_checkpoints Demo.recursion_limit (Some "s1") false m = (Ret cps, m') /\
    total_checkpoints tl = length cps /\
    (forall x, x ∈ forest_nodes (tree tl) -> x ∈ cps) /\
    (PyStr.falsy "s1" = false ->
     forall x, x ∈ forest_nodes (tree tl) -> session_id x = "s1").
Proof.
  apply (get_timeline_follows_parent_references Demo.recursion_limit "s1" Demo.branched).
  returns_with_state.
Defined.

Lemma get_timeline_branches_per_checkpoint_witness :
  let m := Demo.branched in
  let tl := {| tl_session_id := "s1"; total_checkpoints := 3;
               branches := ["main"; "dev"; "dev"];
               tree := [Node (Demo.cp "A" "s1" "m1" None (Some "main"))
                          [Node (Demo.cp "B" "s1" "m2" (Some "A") (Some "dev")) [];
                           Node (Demo.cp "C" "s1" "m3" (Some "A") (Some "dev")) []]] |} in
  let m' := snd (get_timeline Demo.recursion_limit "s1" m) in
  exists cps,
    get_checkpoints Demo.recursion_limit (Some "s1") false m = (Ret cps, m') /\
    branches tl = branch_names cps /\
    ("" ∉ branches tl) /\
    forall b, b <> "" ->
      length (filter (fun x => x = b) (branches tl)) =
      length (filter (fun c => branch_name c = Some b) cps).
Proof.
  apply (get_timeline_branches_per_checkpoint Demo.recursion_limit "s1" Demo.branched).
  returns_with_state.
Defined.

Lemma from_dict_to_dict_witness :
  let cp := Demo.cp "B" "s1" "m2" (Some "A") None in
  from_dict Demo.isoformat Demo.fromisoformat 3 (to_dict Demo.isoformat cp)
    = Ret (object_of cp).
Proof.
  apply (from_dict_to_dict Demo.isoformat Demo.fromisoformat 3
           (Demo.cp "B" "s1" "m2" (Some "A") None)).
  vm_compute. reflexivity.
Defined.

Lemma load_checkpoints_index_text_witness :
  let cps := [Demo.cp "A" "s1" "m1" None None; Demo.cp "B" "s1" "m2" (Some "A") None] in
  let json_loads := Demo.loads_in [Json.JList (to_dict Demo.isoformat <$> cps)] in
  load_checkpoints Demo.isoformat Demo.fromisoformat json_loads (fun _ => 3%Z)
    (index_text Demo.isoformat Demo.dumps cps) = Ret (object_of <$> cps).
Proof.
  apply (load_checkpoints_index_text
           (Demo.loads_in [Json.JList (to_dict Demo.isoformat <$>
              [Demo.cp "A" "s1" "m1" None None; Demo.cp "B" "s1" "m2" (Some "A") None])])
           Demo.isoformat Demo.fromisoformat Demo.dumps (fun _ => 3%Z)).
  - vm_compute. reflexivity.
  - intros cp Hcp.
    repeat (apply elem_of_cons in Hcp as [->|Hcp]; [vm_compute; reflexivity|]).
    by apply elem_of_nil in Hcp.
Defined.

Lemma load_checkpoints_bad_entry_witness :
  let json_loads := Demo.loads_in [Json.JList [Demo.bad_entry]] in
  (exists ex,
     load_checkpoints Demo.isoformat Demo.fromisoformat json_loads (fun _ => 3%Z)
       (Demo.dumps (Json.JList [Demo.bad_entry])) = Raise ex) /\
  forall text', json_loads text' = None ->
    load_checkpoints Demo.isoformat Demo.fromisoformat json_loads (fun _ => 3%Z) text'
    = Ret [].
Proof.
  apply (load_checkpoints_bad_entry (Demo.loads_in [Json.JList [Demo.bad_entry]])
           Demo.isoformat Demo.fromisoformat (fun _ => 3%Z)
           (Demo.dumps (Json.JList [Demo.bad_entry])) [Demo.bad_entry] Demo.bad_entry).
  - vm_compute. reflexivity.
  - left.
  - right. exists [("checkpoint_id", Json.JStr "A"); ("timestamp", Json.JNone)], Json.JNone.
    split; [reflexivity|]. split; [reflexivity|]. by left.
Defined.


(** The two checkpoints of the example store stand in order. *)
Lemma two_in_order :
  NoDup (checkpoint_id <$> [Demo.cp "A" "s1" "m1" None None;
                            Demo.cp "B" "s1" "m2" (Some "A") None]) /\
  parents_earlier [Demo.cp "A" "s1" "m1" None None;
                   Demo.cp "B" "s1" "m2" (Some "A") None].
Proof.
  split.
  - apply (bool_decide_unpack _). vm_compute. exact I.
  - intros i c p Hi Hp.
    destruct i as [|[|i]]; vm_compute in Hi; try discriminate;
      injection Hi as <-; vm_compute in Hp; try discriminate; injection Hp as <-.
    exists 0, (Demo.cp "A" "s1" "m1" None None). split; [lia|]. split; reflexivity.
Qed.

Lemma create_checkpoint_keeps_index_in_order_witness :
  let A := Demo.cp "A" "s1" "m1" None None in
  let B := Demo.cp "B" "s1" "m2" (Some "A") None in
  let cp := mkCheckpoint "N" "s1" "third" "" 2 "m3" (Some "B") None in
  let m' :=
    snd (create_checkpoint Demo.loads Demo.dumps Demo.recursion_limit
           "s1" Demo.live "m3" "third" "" (Some "B") None "N" 2 Demo.two_checkpoints) in
  index_view m' = Some ([A; B] ++ [cp]) /\
  NoDup (checkpoint_id <$> ([A; B] ++ [cp])) /\
  parents_earlier ([A; B] ++ [cp]).
Proof.
  apply (create_checkpoint_keeps_index_in_order Demo.loads Demo.dumps Demo.recursion_limit
           "s1" Demo.live "m3" "third" "" (Some "B") None "N" 2 Demo.two_checkpoints _
           (mkCheckpoint "N" "s1" "third" "" 2 "m3" (Some "B") None)).
  - reflexivity.
  - exact (proj1 two_in_order).
  - exact (proj2 two_in_order).
  - intros c Hc. by apply (two_checkpoints_fresh "N").
  - intros p [= <-]. exists (Demo.cp "B" "s1" "m2" (Some "A") None).
    split; [|reflexivity]. apply elem_of_cons. right. left.
  - returns_with_state.
Defined.

Lemma delete_checkpoint_keeps_index_in_order_witness :
  let A := Demo.cp "A" "s1" "m1" None None in
  let B := Demo.cp "B" "s1" "m2" (Some "A") None in
  let C := Demo.cp "C" "s1" "m3" (Some "B") None in
  let m' := snd (delete_checkpoint Demo.recursion_limit "B" Demo.chain) in
  (exists cps',
     index_view m' = Some cps' /\
     S (length cps') = length [A; B; C] /\
     NoDup (checkpoint_id <$> cps') /\
     parents_earlier cps') /\
  index_view m' = Some [A; Demo.cp "C" "s1" "m3" (Some "A") None].
Proof.
  split; [|vm_compute; reflexivity].
  apply (delete_checkpoint_keeps_index_in_order Demo.recursion_limit "B" Demo.chain).
  - reflexivity.
  - reflexivity.
  - exact (proj1 chain_in_order).
  - exact (proj2 chain_in_order).
  - returns_with_state.
Defined.
